(** * Krog & Co calendar scraper: a shallow embedding of [krogoco_ics.py]

    The development follows the module top to bottom: Python strings and
    the character classes used by [re], a small backtracking matcher for
    the five regular expressions of the module, the proleptic Gregorian
    [date] type, [_last_day_of_month], [_normalize_time],
    [_parse_time_range], the scanning loop of
    [KrogocoIcs.scrape_events] and the loop of
    [KrogocoIcs._build_calendar]. *)

From Stdlib Require Import ZArith NArith List Bool Ascii String Lia.
From stdpp Require Import base decidable countable gmap.
From Stdlib Require Import Sorted.
Import ListNotations.

Local Open Scope Z_scope.

(** ** Exceptions

    Python code that may raise is embedded in the [result] monad. Only the
    two exceptions that [datetime], [int] and [urljoin] can raise on the
    paths taken by the module are distinguished. *)

Inductive exn : Type :=
| ValueError
| OverflowError.

Inductive result (A : Type) : Type :=
| Ok (a : A)
| Raise (e : exn).

Arguments Ok {A} a.
Arguments Raise {A} e.

Global Instance result_ret : MRet result := @Ok.

Global Instance result_bind : MBind result := fun A B f r =>
  match r with
  | Ok a => f a
  | Raise e => Raise e
  end.

(** ** Python strings

    A [str] is a sequence of Unicode code points. *)

Definition char : Type := N.
Definition pystr : Type := list char.

Module Utf8.
(** Decoder used only to write string literals of the source file (which
    is UTF-8 encoded) in the natural way. *)

Fixpoint bytes (s : string) : list N :=
  match s with
  | EmptyString => []
  | String a s' => N_of_ascii a :: bytes s'
  end.

Definition cont (b : N) : N := N.land b 0x3F.

Fixpoint decode (bs : list N) : pystr :=
  match bs with
  | [] => []
  | b0 :: tl0 =>
      if (b0 <? 0x80)%N then b0 :: decode tl0
      else match tl0 with
      | [] => [b0]
      | b1 :: tl1 =>
          if (b0 <? 0xE0)%N then
            (N.shiftl (N.land b0 0x1F) 6 + cont b1)%N :: decode tl1
          else match tl1 with
          | [] => [b0; b1]
          | b2 :: tl2 =>
              if (b0 <? 0xF0)%N then
                (N.shiftl (N.land b0 0x0F) 12 + N.shiftl (cont b1) 6
                 + cont b2)%N :: decode tl2
              else match tl2 with
              | [] => [b0; b1; b2]
              | b3 :: tl3 =>
                  (N.shiftl (N.land b0 0x07) 18 + N.shiftl (cont b1) 12
                   + N.shiftl (cont b2) 6 + cont b3)%N :: decode tl3
              end
          end
      end
  end.
End Utf8.

Definition py (s : string) : pystr := Utf8.decode (Utf8.bytes s).

Definition chr1 (s : string) : char :=
  match py s with
  | c :: _ => c
  | [] => 0%N
  end.

(** [str.startswith]. *)
Fixpoint startswith (s prefix : pystr) : bool :=
  match prefix, s with
  | [], _ => true
  | _ :: _, [] => false
  | p :: prefix', c :: s' => (p =? c)%N && startswith s' prefix'
  end.

(** [sub in s] for strings: [sub] occurs at some offset of [s]. *)
Fixpoint contains (s sub : pystr) : bool :=
  startswith s sub ||
  match s with
  | [] => false
  | _ :: s' => contains s' sub
  end.

(** [s.replace(old, new)] where [old] and [new] are single characters. *)
Definition replace_char (old new : char) (s : pystr) : pystr :=
  map (fun c => if (c =? old)%N then new else c) s.

(** ** Character classes of [re] on [str] patterns

    For a [str] pattern the classes [\d], [\s] and [\w] are the Unicode
    ones: decimal digits (category Nd), [str.isspace] characters, and
    [str.isalnum] characters plus the underscore. The tables below are
    those of the Unicode Character Database 14.0.0 shipped with
    CPython 3.11. *)

Module Unicode.

Definition in_range (c : char) (r : N * N) : bool :=
  ((fst r <=? c) && (c <=? snd r))%N.

Definition in_table (t : list (N * N)) (c : char) : bool :=
  existsb (in_range c) t.

(** Code points of the digit zero of every run of ten decimal digits. *)
Definition decimal_zeros : list N := [
  0x30; 0x660; 0x6F0; 0x7C0; 0x966; 0x9E6; 0xA66; 0xAE6;
  0xB66; 0xBE6; 0xC66; 0xCE6; 0xD66; 0xDE6; 0xE50; 0xED0;
  0xF20; 0x1040; 0x1090; 0x17E0; 0x1810; 0x1946; 0x19D0; 0x1A80;
  0x1A90; 0x1B50; 0x1BB0; 0x1C40; 0x1C50; 0xA620; 0xA8D0; 0xA900;
  0xA9D0; 0xA9F0; 0xAA50; 0xABF0; 0xFF10; 0x104A0; 0x10D30; 0x11066;
  0x110F0; 0x11136; 0x111D0; 0x112F0; 0x11450; 0x114D0; 0x11650; 0x116C0;
  0x11730; 0x118E0; 0x11950; 0x11C50; 0x11D50; 0x11DA0; 0x16A60; 0x16AC0;
  0x16B50; 0x1D7CE; 0x1D7D8; 0x1D7E2; 0x1D7EC; 0x1D7F6; 0x1E140; 0x1E2F0;
  0x1E950; 0x1FBF0
]%N.

(** [Py_UNICODE_TODECIMAL]: the value (0..9) of a decimal digit. *)
Definition decimal (c : char) : option Z :=
  match find (fun z => in_range c (z, z + 9)%N) decimal_zeros with
  | Some z => Some (Z.of_N (c - z))
  | None => None
  end.

Definition isdecimal (c : char) : bool :=
  match decimal c with Some _ => true | None => false end.

Definition space_table : list (N * N) := [
  (0x9, 0xD); (0x1C, 0x20); (0x85, 0x85); (0xA0, 0xA0); (0x1680, 0x1680); (0x2000, 0x200A);
  (0x2028, 0x2029); (0x202F, 0x202F); (0x205F, 0x205F); (0x3000, 0x3000)
]%N.

Definition isspace : char -> bool := in_table space_table.

Definition alnum_table : list (N * N) := [
  (0x30, 0x39); (0x41, 0x5A); (0x61, 0x7A); (0xAA, 0xAA); (0xB2, 0xB3);
  (0xB5, 0xB5); (0xB9, 0xBA); (0xBC, 0xBE); (0xC0, 0xD6); (0xD8, 0xF6);
  (0xF8, 0x2C1); (0x2C6, 0x2D1); (0x2E0, 0x2E4); (0x2EC, 0x2EC); (0x2EE, 0x2EE);
  (0x370, 0x374); (0x376, 0x377); (0x37A, 0x37D); (0x37F, 0x37F); (0x386, 0x386);
  (0x388, 0x38A); (0x38C, 0x38C); (0x38E, 0x3A1); (0x3A3, 0x3F5); (0x3F7, 0x481);
  (0x48A, 0x52F); (0x531, 0x556); (0x559, 0x559); (0x560, 0x588); (0x5D0, 0x5EA);
  (0x5EF, 0x5F2); (0x620, 0x64A); (0x660, 0x669); (0x66E, 0x66F); (0x671, 0x6D3);
  (0x6D5, 0x6D5); (0x6E5, 0x6E6); (0x6EE, 0x6FC); (0x6FF, 0x6FF); (0x710, 0x710);
  (0x712, 0x72F); (0x74D, 0x7A5); (0x7B1, 0x7B1); (0x7C0, 0x7EA); (0x7F4, 0x7F5);
  (0x7FA, 0x7FA); (0x800, 0x815); (0x81A, 0x81A); (0x824, 0x824); (0x828, 0x828);
  (0x840, 0x858); (0x860, 0x86A); (0x870, 0x887); (0x889, 0x88E); (0x8A0, 0x8C9);
  (0x904, 0x939); (0x93D, 0x93D); (0x950, 0x950); (0x958, 0x961); (0x966, 0x96F);
  (0x971, 0x980); (0x985, 0x98C); (0x98F, 0x990); (0x993, 0x9A8); (0x9AA, 0x9B0);
  (0x9B2, 0x9B2); (0x9B6, 0x9B9); (0x9BD, 0x9BD); (0x9CE, 0x9CE); (0x9DC, 0x9DD);
  (0x9DF, 0x9E1); (0x9E6, 0x9F1); (0x9F4, 0x9F9); (0x9FC, 0x9FC); (0xA05, 0xA0A);
  (0xA0F, 0xA10); (0xA13, 0xA28); (0xA2A, 0xA30); (0xA32, 0xA33); (0xA35, 0xA36);
  (0xA38, 0xA39); (0xA59, 0xA5C); (0xA5E, 0xA5E); (0xA66, 0xA6F); (0xA72, 0xA74);
  (0xA85, 0xA8D); (0xA8F, 0xA91); (0xA93, 0xAA8); (0xAAA, 0xAB0); (0xAB2, 0xAB3);
  (0xAB5, 0xAB9); (0xABD, 0xABD); (0xAD0, 0xAD0); (0xAE0, 0xAE1); (0xAE6, 0xAEF);
  (0xAF9, 0xAF9); (0xB05, 0xB0C); (0xB0F, 0xB10); (0xB13, 0xB28); (0xB2A, 0xB30);
  (0xB32, 0xB33); (0xB35, 0xB39); (0xB3D, 0xB3D); (0xB5C, 0xB5D); (0xB5F, 0xB61);
  (0xB66, 0xB6F); (0xB71, 0xB77); (0xB83, 0xB83); (0xB85, 0xB8A); (0xB8E, 0xB90);
  (0xB92, 0xB95); (0xB99, 0xB9A); (0xB9C, 0xB9C); (0xB9E, 0xB9F); (0xBA3, 0xBA4);
  (0xBA8, 0xBAA); (0xBAE, 0xBB9); (0xBD0, 0xBD0); (0xBE6, 0xBF2); (0xC05, 0xC0C);
  (0xC0E, 0xC10); (0xC12, 0xC28); (0xC2A, 0xC39); (0xC3D, 0xC3D); (0xC58, 0xC5A);
  (0xC5D, 0xC5D); (0xC60, 0xC61); (0xC66, 0xC6F); (0xC78, 0xC7E); (0xC80, 0xC80);
  (0xC85, 0xC8C); (0xC8E, 0xC90); (0xC92, 0xCA8); (0xCAA, 0xCB3); (0xCB5, 0xCB9);
  (0xCBD, 0xCBD); (0xCDD, 0xCDE); (0xCE0, 0xCE1); (0xCE6, 0xCEF); (0xCF1, 0xCF2);
  (0xD04, 0xD0C); (0xD0E, 0xD10); (0xD12, 0xD3A); (0xD3D, 0xD3D); (0xD4E, 0xD4E);
  (0xD54, 0xD56); (0xD58, 0xD61); (0xD66, 0xD78); (0xD7A, 0xD7F); (0xD85, 0xD96);
  (0xD9A, 0xDB1); (0xDB3, 0xDBB); (0xDBD, 0xDBD); (0xDC0, 0xDC6); (0xDE6, 0xDEF);
  (0xE01, 0xE30); (0xE32, 0xE33); (0xE40, 0xE46); (0xE50, 0xE59); (0xE81, 0xE82);
  (0xE84, 0xE84); (0xE86, 0xE8A); (0xE8C, 0xEA3); (0xEA5, 0xEA5); (0xEA7, 0xEB0);
  (0xEB2, 0xEB3); (0xEBD, 0xEBD); (0xEC0, 0xEC4); (0xEC6, 0xEC6); (0xED0, 0xED9);
  (0xEDC, 0xEDF); (0xF00, 0xF00); (0xF20, 0xF33); (0xF40, 0xF47); (0xF49, 0xF6C);
  (0xF88, 0xF8C); (0x1000, 0x102A); (0x103F, 0x1049); (0x1050, 0x1055); (0x105A, 0x105D);
  (0x1061, 0x1061); (0x1065, 0x1066); (0x106E, 0x1070); (0x1075, 0x1081); (0x108E, 0x108E);
  (0x1090, 0x1099); (0x10A0, 0x10C5); (0x10C7, 0x10C7); (0x10CD, 0x10CD); (0x10D0, 0x10FA);
  (0x10FC, 0x1248); (0x124A, 0x124D); (0x1250, 0x1256); (0x1258, 0x1258); (0x125A, 0x125D);
  (0x1260, 0x1288); (0x128A, 0x128D); (0x1290, 0x12B0); (0x12B2, 0x12B5); (0x12B8, 0x12BE);
  (0x12C0, 0x12C0); (0x12C2, 0x12C5); (0x12C8, 0x12D6); (0x12D8, 0x1310); (0x1312, 0x1315);
  (0x1318, 0x135A); (0x1369, 0x137C); (0x1380, 0x138F); (0x13A0, 0x13F5); (0x13F8, 0x13FD);
  (0x1401, 0x166C); (0x166F, 0x167F); (0x1681, 0x169A); (0x16A0, 0x16EA); (0x16EE, 0x16F8);
  (0x1700, 0x1711); (0x171F, 0x1731); (0x1740, 0x1751); (0x1760, 0x176C); (0x176E, 0x1770);
  (0x1780, 0x17B3); (0x17D7, 0x17D7); (0x17DC, 0x17DC); (0x17E0, 0x17E9); (0x17F0, 0x17F9);
  (0x1810, 0x1819); (0x1820, 0x1878); (0x1880, 0x1884); (0x1887, 0x18A8); (0x18AA, 0x18AA);
  (0x18B0, 0x18F5); (0x1900, 0x191E); (0x1946, 0x196D); (0x1970, 0x1974); (0x1980, 0x19AB);
  (0x19B0, 0x19C9); (0x19D0, 0x19DA); (0x1A00, 0x1A16); (0x1A20, 0x1A54); (0x1A80, 0x1A89);
  (0x1A90, 0x1A99); (0x1AA7, 0x1AA7); (0x1B05, 0x1B33); (0x1B45, 0x1B4C); (0x1B50, 0x1B59);
  (0x1B83, 0x1BA0); (0x1BAE, 0x1BE5); (0x1C00, 0x1C23); (0x1C40, 0x1C49); (0x1C4D, 0x1C7D);
  (0x1C80, 0x1C88); (0x1C90, 0x1CBA); (0x1CBD, 0x1CBF); (0x1CE9, 0x1CEC); (0x1CEE, 0x1CF3);
  (0x1CF5, 0x1CF6); (0x1CFA, 0x1CFA); (0x1D00, 0x1DBF); (0x1E00, 0x1F15); (0x1F18, 0x1F1D);
  (0x1F20, 0x1F45); (0x1F48, 0x1F4D); (0x1F50, 0x1F57); (0x1F59, 0x1F59); (0x1F5B, 0x1F5B);
  (0x1F5D, 0x1F5D); (0x1F5F, 0x1F7D); (0x1F80, 0x1FB4); (0x1FB6, 0x1FBC); (0x1FBE, 0x1FBE);
  (0x1FC2, 0x1FC4); (0x1FC6, 0x1FCC); (0x1FD0, 0x1FD3); (0x1FD6, 0x1FDB); (0x1FE0, 0x1FEC);
  (0x1FF2, 0x1FF4); (0x1FF6, 0x1FFC); (0x2070, 0x2071); (0x2074, 0x2079); (0x207F, 0x2089);
  (0x2090, 0x209C); (0x2102, 0x2102); (0x2107, 0x2107); (0x210A, 0x2113); (0x2115, 0x2115);
  (0x2119, 0x211D); (0x2124, 0x2124); (0x2126, 0x2126); (0x2128, 0x2128); (0x212A, 0x212D);
  (0x212F, 0x2139); (0x213C, 0x213F); (0x2145, 0x2149); (0x214E, 0x214E); (0x2150, 0x2189);
  (0x2460, 0x249B); (0x24EA, 0x24FF); (0x2776, 0x2793); (0x2C00, 0x2CE4); (0x2CEB, 0x2CEE);
  (0x2CF2, 0x2CF3); (0x2CFD, 0x2CFD); (0x2D00, 0x2D25); (0x2D27, 0x2D27); (0x2D2D, 0x2D2D);
  (0x2D30, 0x2D67); (0x2D6F, 0x2D6F); (0x2D80, 0x2D96); (0x2DA0, 0x2DA6); (0x2DA8, 0x2DAE);
  (0x2DB0, 0x2DB6); (0x2DB8, 0x2DBE); (0x2DC0, 0x2DC6); (0x2DC8, 0x2DCE); (0x2DD0, 0x2DD6);
  (0x2DD8, 0x2DDE); (0x2E2F, 0x2E2F); (0x3005, 0x3007); (0x3021, 0x3029); (0x3031, 0x3035);
  (0x3038, 0x303C); (0x3041, 0x3096); (0x309D, 0x309F); (0x30A1, 0x30FA); (0x30FC, 0x30FF);
  (0x3105, 0x312F); (0x3131, 0x318E); (0x3192, 0x3195); (0x31A0, 0x31BF); (0x31F0, 0x31FF);
  (0x3220, 0x3229); (0x3248, 0x324F); (0x3251, 0x325F); (0x3280, 0x3289); (0x32B1, 0x32BF);
  (0x3400, 0x4DBF); (0x4E00, 0xA48C); (0xA4D0, 0xA4FD); (0xA500, 0xA60C); (0xA610, 0xA62B);
  (0xA640, 0xA66E); (0xA67F, 0xA69D); (0xA6A0, 0xA6EF); (0xA717, 0xA71F); (0xA722, 0xA788);
  (0xA78B, 0xA7CA); (0xA7D0, 0xA7D1); (0xA7D3, 0xA7D3); (0xA7D5, 0xA7D9); (0xA7F2, 0xA801);
  (0xA803, 0xA805); (0xA807, 0xA80A); (0xA80C, 0xA822); (0xA830, 0xA835); (0xA840, 0xA873);
  (0xA882, 0xA8B3); (0xA8D0, 0xA8D9); (0xA8F2, 0xA8F7); (0xA8FB, 0xA8FB); (0xA8FD, 0xA8FE);
  (0xA900, 0xA925); (0xA930, 0xA946); (0xA960, 0xA97C); (0xA984, 0xA9B2); (0xA9CF, 0xA9D9);
  (0xA9E0, 0xA9E4); (0xA9E6, 0xA9FE); (0xAA00, 0xAA28); (0xAA40, 0xAA42); (0xAA44, 0xAA4B);
  (0xAA50, 0xAA59); (0xAA60, 0xAA76); (0xAA7A, 0xAA7A); (0xAA7E, 0xAAAF); (0xAAB1, 0xAAB1);
  (0xAAB5, 0xAAB6); (0xAAB9, 0xAABD); (0xAAC0, 0xAAC0); (0xAAC2, 0xAAC2); (0xAADB, 0xAADD);
  (0xAAE0, 0xAAEA); (0xAAF2, 0xAAF4); (0xAB01, 0xAB06); (0xAB09, 0xAB0E); (0xAB11, 0xAB16);
  (0xAB20, 0xAB26); (0xAB28, 0xAB2E); (0xAB30, 0xAB5A); (0xAB5C, 0xAB69); (0xAB70, 0xABE2);
  (0xABF0, 0xABF9); (0xAC00, 0xD7A3); (0xD7B0, 0xD7C6); (0xD7CB, 0xD7FB); (0xF900, 0xFA6D);
  (0xFA70, 0xFAD9); (0xFB00, 0xFB06); (0xFB13, 0xFB17); (0xFB1D, 0xFB1D); (0xFB1F, 0xFB28);
  (0xFB2A, 0xFB36); (0xFB38, 0xFB3C); (0xFB3E, 0xFB3E); (0xFB40, 0xFB41); (0xFB43, 0xFB44);
  (0xFB46, 0xFBB1); (0xFBD3, 0xFD3D); (0xFD50, 0xFD8F); (0xFD92, 0xFDC7); (0xFDF0, 0xFDFB);
  (0xFE70, 0xFE74); (0xFE76, 0xFEFC); (0xFF10, 0xFF19); (0xFF21, 0xFF3A); (0xFF41, 0xFF5A);
  (0xFF66, 0xFFBE); (0xFFC2, 0xFFC7); (0xFFCA, 0xFFCF); (0xFFD2, 0xFFD7); (0xFFDA, 0xFFDC);
  (0x10000, 0x1000B); (0x1000D, 0x10026); (0x10028, 0x1003A); (0x1003C, 0x1003D); (0x1003F, 0x1004D);
  (0x10050, 0x1005D); (0x10080, 0x100FA); (0x10107, 0x10133); (0x10140, 0x10178); (0x1018A, 0x1018B);
  (0x10280, 0x1029C); (0x102A0, 0x102D0); (0x102E1, 0x102FB); (0x10300, 0x10323); (0x1032D, 0x1034A);
  (0x10350, 0x10375); (0x10380, 0x1039D); (0x103A0, 0x103C3); (0x103C8, 0x103CF); (0x103D1, 0x103D5);
  (0x10400, 0x1049D); (0x104A0, 0x104A9); (0x104B0, 0x104D3); (0x104D8, 0x104FB); (0x10500, 0x10527);
  (0x10530, 0x10563); (0x10570, 0x1057A); (0x1057C, 0x1058A); (0x1058C, 0x10592); (0x10594, 0x10595);
  (0x10597, 0x105A1); (0x105A3, 0x105B1); (0x105B3, 0x105B9); (0x105BB, 0x105BC); (0x10600, 0x10736);
  (0x10740, 0x10755); (0x10760, 0x10767); (0x10780, 0x10785); (0x10787, 0x107B0); (0x107B2, 0x107BA);
  (0x10800, 0x10805); (0x10808, 0x10808); (0x1080A, 0x10835); (0x10837, 0x10838); (0x1083C, 0x1083C);
  (0x1083F, 0x10855); (0x10858, 0x10876); (0x10879, 0x1089E); (0x108A7, 0x108AF); (0x108E0, 0x108F2);
  (0x108F4, 0x108F5); (0x108FB, 0x1091B); (0x10920, 0x10939); (0x10980, 0x109B7); (0x109BC, 0x109CF);
  (0x109D2, 0x10A00); (0x10A10, 0x10A13); (0x10A15, 0x10A17); (0x10A19, 0x10A35); (0x10A40, 0x10A48);
  (0x10A60, 0x10A7E); (0x10A80, 0x10A9F); (0x10AC0, 0x10AC7); (0x10AC9, 0x10AE4); (0x10AEB, 0x10AEF);
  (0x10B00, 0x10B35); (0x10B40, 0x10B55); (0x10B58, 0x10B72); (0x10B78, 0x10B91); (0x10BA9, 0x10BAF);
  (0x10C00, 0x10C48); (0x10C80, 0x10CB2); (0x10CC0, 0x10CF2); (0x10CFA, 0x10D23); (0x10D30, 0x10D39);
  (0x10E60, 0x10E7E); (0x10E80, 0x10EA9); (0x10EB0, 0x10EB1); (0x10F00, 0x10F27); (0x10F30, 0x10F45);
  (0x10F51, 0x10F54); (0x10F70, 0x10F81); (0x10FB0, 0x10FCB); (0x10FE0, 0x10FF6); (0x11003, 0x11037);
  (0x11052, 0x1106F); (0x11071, 0x11072); (0x11075, 0x11075); (0x11083, 0x110AF); (0x110D0, 0x110E8);
  (0x110F0, 0x110F9); (0x11103, 0x11126); (0x11136, 0x1113F); (0x11144, 0x11144); (0x11147, 0x11147);
  (0x11150, 0x11172); (0x11176, 0x11176); (0x11183, 0x111B2); (0x111C1, 0x111C4); (0x111D0, 0x111DA);
  (0x111DC, 0x111DC); (0x111E1, 0x111F4); (0x11200, 0x11211); (0x11213, 0x1122B); (0x11280, 0x11286);
  (0x11288, 0x11288); (0x1128A, 0x1128D); (0x1128F, 0x1129D); (0x1129F, 0x112A8); (0x112B0, 0x112DE);
  (0x112F0, 0x112F9); (0x11305, 0x1130C); (0x1130F, 0x11310); (0x11313, 0x11328); (0x1132A, 0x11330);
  (0x11332, 0x11333); (0x11335, 0x11339); (0x1133D, 0x1133D); (0x11350, 0x11350); (0x1135D, 0x11361);
  (0x11400, 0x11434); (0x11447, 0x1144A); (0x11450, 0x11459); (0x1145F, 0x11461); (0x11480, 0x114AF);
  (0x114C4, 0x114C5); (0x114C7, 0x114C7); (0x114D0, 0x114D9); (0x11580, 0x115AE); (0x115D8, 0x115DB);
  (0x11600, 0x1162F); (0x11644, 0x11644); (0x11650, 0x11659); (0x11680, 0x116AA); (0x116B8, 0x116B8);
  (0x116C0, 0x116C9); (0x11700, 0x1171A); (0x11730, 0x1173B); (0x11740, 0x11746); (0x11800, 0x1182B);
  (0x118A0, 0x118F2); (0x118FF, 0x11906); (0x11909, 0x11909); (0x1190C, 0x11913); (0x11915, 0x11916);
  (0x11918, 0x1192F); (0x1193F, 0x1193F); (0x11941, 0x11941); (0x11950, 0x11959); (0x119A0, 0x119A7);
  (0x119AA, 0x119D0); (0x119E1, 0x119E1); (0x119E3, 0x119E3); (0x11A00, 0x11A00); (0x11A0B, 0x11A32);
  (0x11A3A, 0x11A3A); (0x11A50, 0x11A50); (0x11A5C, 0x11A89); (0x11A9D, 0x11A9D); (0x11AB0, 0x11AF8);
  (0x11C00, 0x11C08); (0x11C0A, 0x11C2E); (0x11C40, 0x11C40); (0x11C50, 0x11C6C); (0x11C72, 0x11C8F);
  (0x11D00, 0x11D06); (0x11D08, 0x11D09); (0x11D0B, 0x11D30); (0x11D46, 0x11D46); (0x11D50, 0x11D59);
  (0x11D60, 0x11D65); (0x11D67, 0x11D68); (0x11D6A, 0x11D89); (0x11D98, 0x11D98); (0x11DA0, 0x11DA9);
  (0x11EE0, 0x11EF2); (0x11FB0, 0x11FB0); (0x11FC0, 0x11FD4); (0x12000, 0x12399); (0x12400, 0x1246E);
  (0x12480, 0x12543); (0x12F90, 0x12FF0); (0x13000, 0x1342E); (0x14400, 0x14646); (0x16800, 0x16A38);
  (0x16A40, 0x16A5E); (0x16A60, 0x16A69); (0x16A70, 0x16ABE); (0x16AC0, 0x16AC9); (0x16AD0, 0x16AED);
  (0x16B00, 0x16B2F); (0x16B40, 0x16B43); (0x16B50, 0x16B59); (0x16B5B, 0x16B61); (0x16B63, 0x16B77);
  (0x16B7D, 0x16B8F); (0x16E40, 0x16E96); (0x16F00, 0x16F4A); (0x16F50, 0x16F50); (0x16F93, 0x16F9F);
  (0x16FE0, 0x16FE1); (0x16FE3, 0x16FE3); (0x17000, 0x187F7); (0x18800, 0x18CD5); (0x18D00, 0x18D08);
  (0x1AFF0, 0x1AFF3); (0x1AFF5, 0x1AFFB); (0x1AFFD, 0x1AFFE); (0x1B000, 0x1B122); (0x1B150, 0x1B152);
  (0x1B164, 0x1B167); (0x1B170, 0x1B2FB); (0x1BC00, 0x1BC6A); (0x1BC70, 0x1BC7C); (0x1BC80, 0x1BC88);
  (0x1BC90, 0x1BC99); (0x1D2E0, 0x1D2F3); (0x1D360, 0x1D378); (0x1D400, 0x1D454); (0x1D456, 0x1D49C);
  (0x1D49E, 0x1D49F); (0x1D4A2, 0x1D4A2); (0x1D4A5, 0x1D4A6); (0x1D4A9, 0x1D4AC); (0x1D4AE, 0x1D4B9);
  (0x1D4BB, 0x1D4BB); (0x1D4BD, 0x1D4C3); (0x1D4C5, 0x1D505); (0x1D507, 0x1D50A); (0x1D50D, 0x1D514);
  (0x1D516, 0x1D51C); (0x1D51E, 0x1D539); (0x1D53B, 0x1D53E); (0x1D540, 0x1D544); (0x1D546, 0x1D546);
  (0x1D54A, 0x1D550); (0x1D552, 0x1D6A5); (0x1D6A8, 0x1D6C0); (0x1D6C2, 0x1D6DA); (0x1D6DC, 0x1D6FA);
  (0x1D6FC, 0x1D714); (0x1D716, 0x1D734); (0x1D736, 0x1D74E); (0x1D750, 0x1D76E); (0x1D770, 0x1D788);
  (0x1D78A, 0x1D7A8); (0x1D7AA, 0x1D7C2); (0x1D7C4, 0x1D7CB); (0x1D7CE, 0x1D7FF); (0x1DF00, 0x1DF1E);
  (0x1E100, 0x1E12C); (0x1E137, 0x1E13D); (0x1E140, 0x1E149); (0x1E14E, 0x1E14E); (0x1E290, 0x1E2AD);
  (0x1E2C0, 0x1E2EB); (0x1E2F0, 0x1E2F9); (0x1E7E0, 0x1E7E6); (0x1E7E8, 0x1E7EB); (0x1E7ED, 0x1E7EE);
  (0x1E7F0, 0x1E7FE); (0x1E800, 0x1E8C4); (0x1E8C7, 0x1E8CF); (0x1E900, 0x1E943); (0x1E94B, 0x1E94B);
  (0x1E950, 0x1E959); (0x1EC71, 0x1ECAB); (0x1ECAD, 0x1ECAF); (0x1ECB1, 0x1ECB4); (0x1ED01, 0x1ED2D);
  (0x1ED2F, 0x1ED3D); (0x1EE00, 0x1EE03); (0x1EE05, 0x1EE1F); (0x1EE21, 0x1EE22); (0x1EE24, 0x1EE24);
  (0x1EE27, 0x1EE27); (0x1EE29, 0x1EE32); (0x1EE34, 0x1EE37); (0x1EE39, 0x1EE39); (0x1EE3B, 0x1EE3B);
  (0x1EE42, 0x1EE42); (0x1EE47, 0x1EE47); (0x1EE49, 0x1EE49); (0x1EE4B, 0x1EE4B); (0x1EE4D, 0x1EE4F);
  (0x1EE51, 0x1EE52); (0x1EE54, 0x1EE54); (0x1EE57, 0x1EE57); (0x1EE59, 0x1EE59); (0x1EE5B, 0x1EE5B);
  (0x1EE5D, 0x1EE5D); (0x1EE5F, 0x1EE5F); (0x1EE61, 0x1EE62); (0x1EE64, 0x1EE64); (0x1EE67, 0x1EE6A);
  (0x1EE6C, 0x1EE72); (0x1EE74, 0x1EE77); (0x1EE79, 0x1EE7C); (0x1EE7E, 0x1EE7E); (0x1EE80, 0x1EE89);
  (0x1EE8B, 0x1EE9B); (0x1EEA1, 0x1EEA3); (0x1EEA5, 0x1EEA9); (0x1EEAB, 0x1EEBB); (0x1F100, 0x1F10C);
  (0x1FBF0, 0x1FBF9); (0x20000, 0x2A6DF); (0x2A700, 0x2B738); (0x2B740, 0x2B81D); (0x2B820, 0x2CEA1);
  (0x2CEB0, 0x2EBE0); (0x2F800, 0x2FA1D); (0x30000, 0x3134A)
]%N.

Definition isalnum : char -> bool := in_table alnum_table.

(** [\w]. *)
Definition isword (c : char) : bool := isalnum c || (c =? 0x5F)%N.

End Unicode.

(** ** Regular expressions

    The fragment of [re] syntax used by the module, with the leftmost,
    greedy, backtracking semantics of [re.search]. The matcher is written
    in continuation-passing style: the continuation is the rest of the
    pattern, and a [None] coming back from it makes the current construct
    try its next alternative. *)

Module Re.

Inductive regex : Type :=
| Eps                              (* the empty pattern *)
| Cls (p : char -> bool)           (* one character of a class *)
| Cat (r1 r2 : regex)              (* r1r2 *)
| Alt (r1 r2 : regex)              (* r1|r2 *)
| Opt (r : regex)                  (* r? *)
| Star (p : char -> bool)          (* c* for a character class c *)
| Grp (n : nat) (r : regex)        (* (r), the n-th capturing group *)
| NotAhead (r : regex)             (* (?!r) *)
| Bnd.                             (* \b *)

(** The text captured by each group, most recent first. *)
Definition groups : Type := list (nat * pystr).

(** Where the matcher stands: the character just before the cursor, the
    text still ahead, and the groups closed so far. *)
Record cursor : Type := Cursor {
  prev : option char;
  rest : pystr;
  caps : groups
}.

Definition cont : Type := cursor -> option groups.

Definition consumed (s s' : cursor) : pystr :=
  firstn (length (rest s) - length (rest s')) (rest s).

Definition close_group (n : nat) (s s' : cursor) : cursor :=
  Cursor (prev s') (rest s') ((n, consumed s s') :: caps s').

Definition word_at (c : option char) : bool :=
  match c with
  | Some c => Unicode.isword c
  | None => false
  end.

Fixpoint star (p : char -> bool) (k : cont)
    (pv : option char) (l : pystr) (g : groups) : option groups :=
  match l with
  | c :: tl =>
      if p c then
        match star p k (Some c) tl g with
        | Some m => Some m
        | None => k (Cursor pv l g)
        end
      else k (Cursor pv l g)
  | [] => k (Cursor pv [] g)
  end.

Fixpoint run (r : regex) (k : cont) (s : cursor) : option groups :=
  match r with
  | Eps => k s
  | Cls p =>
      match rest s with
      | c :: tl => if p c then k (Cursor (Some c) tl (caps s)) else None
      | [] => None
      end
  | Cat r1 r2 => run r1 (run r2 k) s
  | Alt r1 r2 =>
      match run r1 k s with
      | Some m => Some m
      | None => run r2 k s
      end
  | Opt r1 =>
      match run r1 k s with
      | Some m => Some m
      | None => k s
      end
  | Star p => star p k (prev s) (rest s) (caps s)
  | Grp n r1 => run r1 (fun s' => k (close_group n s s')) s
  | NotAhead r1 =>
      match run r1 (fun s' => Some (caps s')) s with
      | Some _ => None
      | None => k s
      end
  | Bnd =>
      if xorb (word_at (prev s)) (word_at (hd_error (rest s)))
      then k s else None
  end.

Definition accept : cont := fun s => Some (caps s).

(** [re.search]: the match starting at the leftmost possible offset. *)
Fixpoint search_from (r : regex) (pv : option char) (l : pystr)
    : option groups :=
  match run r accept (Cursor pv l []) with
  | Some m => Some m
  | None =>
      match l with
      | [] => None
      | c :: tl => search_from r (Some c) tl
      end
  end.

Definition search (r : regex) (text : pystr) : option groups :=
  search_from r None text.

(** [m.group(n)]. Every group of the patterns below takes part in every
    match, so the [None] of a group that did not is not needed. *)
Fixpoint group (m : groups) (n : nat) : pystr :=
  match m with
  | [] => []
  | (i, t) :: m' => if Nat.eqb i n then t else group m' n
  end.

(** Pattern syntax. *)
Definition seq (rs : list regex) : regex := fold_right Cat Eps rs.
Definition lit (s : string) : regex := Cls (N.eqb (chr1 s)).
Definition one_of (s : string) : regex :=
  Cls (fun c => existsb (N.eqb c) (py s)).
Definition digit : regex := Cls Unicode.isdecimal.
Definition spaces : regex := Star Unicode.isspace.
Definition rep_1_2 (r : regex) : regex := Cat r (Opt r).
Definition rep_2 (r : regex) : regex := Cat r r.

End Re.

Import Re.

(** ** Built-ins used on the matched groups *)

(** [int(s)] on the text of a [\d] group: a non-empty run of decimal
    digits (of any script) is read in base ten. Every other string is sent
    to [ValueError]; the blanks, sign and underscores that [int] would
    also accept never occur in a group of the patterns of this module. *)
Definition int_step (acc : result Z) (c : char) : result Z :=
  a ← acc;
  match Unicode.decimal c with
  | Some d => Ok (10 * a + d)
  | None => Raise ValueError
  end.

Definition py_int (s : pystr) : result Z :=
  match s with
  | [] => Raise ValueError
  | _ => fold_left int_step s (Ok 0)
  end.

Fixpoint uint_chars (u : Decimal.uint) : pystr :=
  match u with
  | Decimal.Nil => []
  | Decimal.D0 u => 0x30%N :: uint_chars u
  | Decimal.D1 u => 0x31%N :: uint_chars u
  | Decimal.D2 u => 0x32%N :: uint_chars u
  | Decimal.D3 u => 0x33%N :: uint_chars u
  | Decimal.D4 u => 0x34%N :: uint_chars u
  | Decimal.D5 u => 0x35%N :: uint_chars u
  | Decimal.D6 u => 0x36%N :: uint_chars u
  | Decimal.D7 u => 0x37%N :: uint_chars u
  | Decimal.D8 u => 0x38%N :: uint_chars u
  | Decimal.D9 u => 0x39%N :: uint_chars u
  end.

(** Left-pad with ['0'] up to [width] characters. *)
Definition zfill (width : nat) (s : pystr) : pystr :=
  repeat 0x30%N (width - length s) ++ s.

(** [f"{n:02d}"]: zero padding is sign-aware. *)
Definition format_02d (n : Z) : pystr :=
  match Z.to_int n with
  | Decimal.Pos u => zfill 2 (uint_chars u)
  | Decimal.Neg u => chr1 "-" :: zfill 1 (uint_chars u)
  end.

(** ** The time-expression parser *)

(** [\d{1,2}[.:]\d{2}] *)
Definition TIME : regex :=
  seq [rep_1_2 digit; one_of ".:"; rep_2 digit].

(** [(\d{1,2}[.:]\d{2})\s*[-–]\s*(\d{1,2}[.:]\d{2})] *)
Definition FULL_RANGE : regex :=
  seq [Grp 1 TIME; spaces; one_of "-–"; spaces; Grp 2 TIME].

(** [[Kk]l\.?\s*(\d{1,2})\s*[-–]\s*(\d{1,2})(?!\d|[.:/])] *)
Definition SHORT_RANGE : regex :=
  seq [one_of "Kk"; lit "l"; Opt (lit "."); spaces;
       Grp 1 (rep_1_2 digit); spaces; one_of "-–"; spaces;
       Grp 2 (rep_1_2 digit); NotAhead (Alt digit (one_of ".:/"))].

(** [(\d{1,2}[.:]\d{2})\s*,\s*(\d{1,2})\+] *)
Definition TIME_HINT : regex :=
  seq [Grp 1 TIME; spaces; lit ","; spaces; Grp 2 (rep_1_2 digit); lit "+"].

(** [(\d{1,2}[.:]\d{2})] *)
Definition SINGLE_TIME : regex := Grp 1 TIME.

Definition _normalize_time (t : pystr) : pystr :=
  replace_char (chr1 ".") (chr1 ":") t.

Definition time_result : Type := option pystr * option pystr * bool.

Definition _parse_time_range (text : pystr) : result time_result :=
  match search FULL_RANGE text with
  | Some m =>
      Ok (Some (_normalize_time (group m 1)),
          Some (_normalize_time (group m 2)), false)
  | None =>
  match search SHORT_RANGE text with
  | Some m =>
      h1 ← py_int (group m 1);
      h2 ← py_int (group m 2);
      Ok (Some (format_02d h1 ++ py ":00"),
          Some (format_02d h2 ++ py ":00"), false)
  | None =>
  match search TIME_HINT text with
  | Some m =>
      h2 ← py_int (group m 2);
      Ok (Some (_normalize_time (group m 1)),
          Some (format_02d h2 ++ py ":00"), false)
  | None =>
  match search SINGLE_TIME text with
  | Some m => Ok (Some (_normalize_time (group m 1)), None, false)
  | None => Ok (None, None, true)
  end end end end.

(** ** Dates

    [datetime.date] as CPython has it: a proleptic Gregorian date with
    [MINYEAR <= year <= MAXYEAR], ordered as the triple
    (year, month, day); adding a [timedelta] goes through the day ordinal.
    The arithmetic follows [Lib/datetime.py]; the constructor follows the
    C implementation that CPython loads in its place, which first converts
    its arguments to C [int]s and raises [OverflowError] when one does not
    fit. *)

Module Datetime.

Record date : Type := Date {
  year : Z;
  month : Z;
  day : Z
}.

Global Instance date_eq_dec : EqDecision date.
Proof. solve_decision. Defined.

Global Instance date_countable : Countable date.
Proof.
  refine (inj_countable' (fun d => (year d, month d, day d))
            (fun t => Date t.1.1 t.1.2 t.2) _).
  by intros [].
Defined.

Definition MINYEAR : Z := 1.
Definition MAXYEAR : Z := 9999.
Definition _MAXORDINAL : Z := 3652059.

(** A C [int] has 32 bits on the platforms CPython runs on. *)
Definition INT_MIN : Z := -2147483648.
Definition INT_MAX : Z := 2147483647.

Definition fits_int (n : Z) : bool := (INT_MIN <=? n) && (n <=? INT_MAX).

(** Index 0 is a placeholder, as in the library. *)
Definition _DAYS_IN_MONTH : list Z :=
  [-1; 31; 28; 31; 30; 31; 30; 31; 31; 30; 31; 30; 31].

Definition _DAYS_BEFORE_MONTH : list Z :=
  [-1; 0; 31; 59; 90; 120; 151; 181; 212; 243; 273; 304; 334].

(** [table[i]]; the library only indexes these tables with 1..12. *)
Definition item (table : list Z) (i : Z) : Z := nth (Z.to_nat i) table (-1).

Definition _is_leap (y : Z) : bool :=
  (y mod 4 =? 0) && (negb (y mod 100 =? 0) || (y mod 400 =? 0)).

Definition _days_before_year (year : Z) : Z :=
  let y := year - 1 in
  y * 365 + y / 4 - y / 100 + y / 400.

Definition _days_in_month (year month : Z) : Z :=
  if (month =? 2) && _is_leap year then 29
  else item _DAYS_IN_MONTH month.

Definition _days_before_month (year month : Z) : Z :=
  item _DAYS_BEFORE_MONTH month
  + (if (2 <? month) && _is_leap year then 1 else 0).

Definition _ymd2ord (year month day : Z) : Z :=
  _days_before_year year + _days_before_month year month + day.

Definition _DI400Y : Z := _days_before_year 401.
Definition _DI100Y : Z := _days_before_year 101.
Definition _DI4Y : Z := _days_before_year 5.

Definition _ord2ymd (n : Z) : Z * Z * Z :=
  let n := n - 1 in
  let n400 := n / _DI400Y in
  let n := n mod _DI400Y in
  let year := n400 * 400 + 1 in
  let n100 := n / _DI100Y in
  let n := n mod _DI100Y in
  let n4 := n / _DI4Y in
  let n := n mod _DI4Y in
  let n1 := n / 365 in
  let n := n mod 365 in
  let year := year + (n100 * 100 + n4 * 4 + n1) in
  if (n1 =? 4) || (n100 =? 4) then (year - 1, 12, 31)
  else
    let leapyear := (n1 =? 3) && (negb (n4 =? 24) || (n100 =? 3)) in
    let month := Z.shiftr (n + 50) 5 in
    let preceding :=
      item _DAYS_BEFORE_MONTH month
      + (if (2 <? month) && leapyear then 1 else 0) in
    if n <? preceding then
      let month := month - 1 in
      let preceding :=
        preceding - (item _DAYS_IN_MONTH month
                     + (if (month =? 2) && leapyear then 1 else 0)) in
      (year, month, n - preceding + 1)
    else (year, month, n - preceding + 1).

(** [_check_date_fields] as a predicate. *)
Definition valid_ymd (y m d : Z) : bool :=
  (MINYEAR <=? y) && (y <=? MAXYEAR) &&
  (1 <=? m) && (m <=? 12) &&
  (1 <=? d) && (d <=? _days_in_month y m).

(** The constructor [date(year, month, day)]: the three arguments are
    converted to C [int]s, then the fields are checked. *)
Definition new (y m d : Z) : result date :=
  if negb (fits_int y && fits_int m && fits_int d) then Raise OverflowError
  else if negb ((MINYEAR <=? y) && (y <=? MAXYEAR)) then Raise ValueError
  else if negb ((1 <=? m) && (m <=? 12)) then Raise ValueError
  else if negb ((1 <=? d) && (d <=? _days_in_month y m)) then Raise ValueError
  else Ok (Date y m d).

Definition toordinal (d : date) : Z := _ymd2ord (year d) (month d) (day d).

Definition fromordinal (n : Z) : result date :=
  let '(y, m, d) := _ord2ymd n in new y m d.

(** [d + timedelta(days=n)]. *)
Definition add_days (d : date) (n : Z) : result date :=
  let o := toordinal d + n in
  if (0 <? o) && (o <=? _MAXORDINAL) then fromordinal o
  else Raise OverflowError.

(** [d - timedelta(days=n)], which the library computes as
    [d + timedelta(-n)]. *)
Definition sub_days (d : date) (n : Z) : result date := add_days d (- n).

(** Comparison of dates is comparison of (year, month, day). *)
Definition ltb (a b : date) : bool :=
  (year a <? year b)
  || ((year a =? year b)
      && ((month a <? month b)
          || ((month a =? month b) && (day a <? day b)))).

Definition valid (d : date) : bool := valid_ymd (year d) (month d) (day d).

End Datetime.

(** [_last_day_of_month(d, months_ahead)]. *)
Definition _last_day_of_month (d : Datetime.date) (months_ahead : Z)
    : result Datetime.date :=
  let month := Datetime.month d + months_ahead in
  let year := Datetime.year d + (month - 1) / 12 in
  let month := (month - 1) mod 12 + 1 in
  if month =? 12 then
    first ← Datetime.new (year + 1) 1 1;
    Datetime.sub_days first 1
  else
    first ← Datetime.new year (month + 1) 1;
    Datetime.sub_days first 1.

(** ** The calendar extractor *)

(** [\b(\d{2})/(\d{2})\b] *)
Definition DATE_LINE : regex :=
  seq [Bnd; Grp 1 (rep_2 digit); lit "/"; Grp 2 (rep_2 digit); Bnd].

(** One scraped calendar event. *)
Record CalendarEvent : Type := {
  date : Datetime.date;
  title : pystr;
  url : pystr;
  all_day : bool;
  start_time : option pystr;
  end_time : option pystr
}.

(** What the loop reads from an [<h3>] element [h]: [h.get_text(" ", True)]
    and [h.find("a", href=True)], and from the link [a] found:
    [a.get_text(" ", True)] and [a["href"]]. *)
Record anchor : Type := {
  a_text : pystr;
  href : pystr
}.

Record h3 : Type := {
  get_text : pystr;
  find_a : option anchor
}.

(** The attributes of a [KrogocoIcs] instance that the scan reads. *)
Record KrogocoIcs : Type := {
  months : Z;
  blacklist : list pystr
}.

Definition BASE_URL : pystr := py "https://krogoco.se".

Definition event_key : Type := Datetime.date * pystr * pystr.

(** The local variables of [scrape_events] that live across iterations. *)
Record locals : Type := {
  events : list CalendarEvent;
  seen : gset event_key;
  inferred_year : Z;
  prev_month : option Z;
  current_date : option Datetime.date
}.

(** How one iteration of the [for] loop ends. *)
Inductive flow : Type :=
| Next (s : locals)      (* fell through, or [continue] *)
| Break (s : locals)     (* [break] *)
| Abort (e : exn).       (* an exception left the loop *)

Section Scraper.

(** [str.casefold] and [urllib.parse.urljoin] belong to the Python
    library; the scan is parametric in them. *)
Variable casefold : pystr -> pystr.
Variable urljoin : pystr -> pystr -> result pystr.

(** [KrogocoIcs.__init__]. *)
Definition __init__ (months : Z) (blacklist : list pystr) : KrogocoIcs :=
  {| months := months; blacklist := map casefold blacklist |}.

(** The branch for a date line such as ["lördag 31/01"]. *)
Definition date_line (s : locals) (m : groups) : flow :=
  match py_int (group m 1) with
  | Raise e => Abort e
  | Ok dd =>
  match py_int (group m 2) with
  | Raise e => Abort e
  | Ok mm =>
      let inferred_year :=
        match prev_month s with
        | Some pm => if mm <? pm then inferred_year s + 1 else inferred_year s
        | None => inferred_year s
        end in
      match Datetime.new inferred_year mm dd with
      | Raise e => Abort e
      | Ok d =>
          Next {| events := events s;
                  seen := seen s;
                  inferred_year := inferred_year;
                  prev_month := Some mm;
                  current_date := Some d |}
      end
  end end.

(** The branch for an event line, entered with the link and the current
    date. *)
Definition event_line (self : KrogocoIcs) (today horizon : Datetime.date)
    (s : locals) (a : anchor) (current_date : Datetime.date) : flow :=
  if Datetime.ltb current_date today then Next s
  else if Datetime.ltb horizon current_date then Break s
  else
    let title := a_text a in
    let title_lower := casefold title in
    if existsb (fun b => contains title_lower b) (blacklist self) then Next s
    else
      match (if startswith (href a) (py "/")
             then urljoin BASE_URL (href a) else Ok (href a)) with
      | Raise e => Abort e
      | Ok url =>
          let key := (current_date, title, url) in
          if decide (key ∈ seen s) then Next s
          else
            match _parse_time_range title with
            | Raise e => Abort e
            | Ok (start_t, end_t, all_day) =>
                Next {| events :=
                          events s ++
                          [ {| date := current_date;
                               title := title;
                               url := url;
                               all_day := all_day;
                               start_time := start_t;
                               end_time := end_t |} ];
                        seen := {[ key ]} ∪ seen s;
                        inferred_year := inferred_year s;
                        prev_month := prev_month s;
                        current_date := Some current_date |}
            end
      end.

(** The body of [for h in h3s]. *)
Definition body (self : KrogocoIcs) (today horizon : Datetime.date)
    (s : locals) (h : h3) : flow :=
  match search DATE_LINE (get_text h) with
  | Some m => date_line s m
  | None =>
      match find_a h, current_date s with
      | Some a, Some d => event_line self today horizon s a d
      | _, _ => Next s
      end
  end.

(** The [for] loop: [Next] here means the list was exhausted. *)
Fixpoint scan (self : KrogocoIcs) (today horizon : Datetime.date)
    (s : locals) (h3s : list h3) : flow :=
  match h3s with
  | [] => Next s
  | h :: rest =>
      match body self today horizon s h with
      | Next s' => scan self today horizon s' rest
      | Break s' => Break s'
      | Abort e => Abort e
      end
  end.

Definition initial (today : Datetime.date) : locals :=
  {| events := [];
     seen := ∅;
     inferred_year := Datetime.year today;
     prev_month := None;
     current_date := None |}.

(** [scrape_events], given the value of [date.today()] and the [<h3>]
    elements that [soup.find_all("h3")] produced from the fetched page. *)
Definition scrape_events (self : KrogocoIcs) (today : Datetime.date)
    (h3s : list h3) : result (list CalendarEvent) :=
  horizon ← _last_day_of_month today (months self);
  match scan self today horizon (initial today) h3s with
  | Next s => Ok (events s)
  | Break s => Ok (events s)
  | Abort e => Raise e
  end.

End Scraper.

(** ** Specification-side definitions

    Everything above is the program. The definitions below are what the
    theorems are stated with. *)

(** What a successful run of the matcher on [r] has consumed, and how it
    has moved the cursor: [derive r s w s'] holds whenever the matcher,
    started at [s], hands [s'] to its continuation after reading [w].
    The relation forgets the order in which alternatives are tried, and
    which character precedes the cursor after a star. *)
Inductive derive : regex -> cursor -> pystr -> cursor -> Prop :=
| derive_eps s :
    derive Eps s [] s
| derive_cls p pv c tl g :
    p c = true ->
    derive (Cls p) (Cursor pv (c :: tl) g) [c] (Cursor (Some c) tl g)
| derive_cat r1 r2 s w1 s1 w2 s2 :
    derive r1 s w1 s1 -> derive r2 s1 w2 s2 ->
    derive (Cat r1 r2) s (w1 ++ w2) s2
| derive_alt_l r1 r2 s w s' :
    derive r1 s w s' -> derive (Alt r1 r2) s w s'
| derive_alt_r r1 r2 s w s' :
    derive r2 s w s' -> derive (Alt r1 r2) s w s'
| derive_opt_some r s w s' :
    derive r s w s' -> derive (Opt r) s w s'
| derive_opt_none r s :
    derive (Opt r) s [] s
| derive_star p pv w tl g pv' :
    Forall (fun c => p c = true) w ->
    derive (Star p) (Cursor pv (w ++ tl) g) w (Cursor pv' tl g)
| derive_grp n r s w s' :
    derive r s w s' ->
    derive (Grp n r) s w (Cursor (prev s') (rest s') ((n, w) :: caps s'))
| derive_notahead r s :
    run r accept s = None ->
    derive (NotAhead r) s [] s
| derive_bnd s :
    xorb (word_at (prev s)) (word_at (hd_error (rest s))) = true ->
    derive Bnd s [] s.

(** A non-empty run of decimal digits. *)
Definition digits (w : pystr) : Prop :=
  w <> [] /\ Forall (fun c => Unicode.isdecimal c = true) w.

(** The key under which [scrape_events] remembers an event. *)
Definition key_of (e : CalendarEvent) : event_key :=
  (date e, title e, url e).

(** The four rules of [_parse_time_range], one by one: what each returns
    when its own pattern is found in the title. *)
Definition full_range_rule (text : pystr) : option (result time_result) :=
  m ← search FULL_RANGE text;
  Some (Ok (Some (_normalize_time (group m 1)),
            Some (_normalize_time (group m 2)), false)).

Definition short_range_rule (text : pystr) : option (result time_result) :=
  m ← search SHORT_RANGE text;
  Some (h1 ← py_int (group m 1);
        h2 ← py_int (group m 2);
        Ok (Some (format_02d h1 ++ py ":00"),
            Some (format_02d h2 ++ py ":00"), false)).

Definition time_hint_rule (text : pystr) : option (result time_result) :=
  m ← search TIME_HINT text;
  Some (h2 ← py_int (group m 2);
        Ok (Some (_normalize_time (group m 1)),
            Some (format_02d h2 ++ py ":00"), false)).

Definition single_time_rule (text : pystr) : option (result time_result) :=
  m ← search SINGLE_TIME text;
  Some (Ok (Some (_normalize_time (group m 1)), None, false)).

(** Rules in priority order: the first one that applies decides. *)
Fixpoint first_match (rules : list (pystr -> option (result time_result)))
    (text : pystr) : result time_result :=
  match rules with
  | [] => Ok (None, None, true)
  | rule :: rules' =>
      match rule text with
      | Some r => r
      | None => first_match rules' text
      end
  end.

(** The shape [HH:MM]: two decimal digits, a colon, two decimal digits. *)
Definition is_HH_MM (t : pystr) : bool :=
  match t with
  | [h1; h2; c; m1; m2] =>
      Unicode.isdecimal h1 && Unicode.isdecimal h2 && (c =? chr1 ":")%N
      && Unicode.isdecimal m1 && Unicode.isdecimal m2
  | _ => false
  end.

(** The hour and minute that [_build_calendar] reads back from a time
    string with [map(int, t.split(":"))]. *)
Fixpoint split_colon (t : pystr) : pystr * option pystr :=
  match t with
  | [] => ([], None)
  | c :: t' =>
      if (c =? chr1 ":")%N then ([], Some t')
      else let '(h, m) := split_colon t' in (c :: h, m)
  end.

Definition clock_fields (t : pystr) : option (Z * Z) :=
  match split_colon t with
  | (h, Some m) =>
      match py_int h, py_int m with
      | Ok h, Ok m => Some (h, m)
      | _, _ => None
      end
  | (_, None) => None
  end.

(** Stand-ins for the two library functions, used where a closed example
    needs some value for them: the identity for [casefold] (right on text
    that is already case-folded, and never consulted with an empty
    blacklist) and plain concatenation for [urljoin] (what joining a
    root-relative path without query, fragment or dot segments onto
    [BASE_URL] gives). *)
Definition casefold_id (s : pystr) : pystr := s.
Definition urljoin_concat (base u : pystr) : result pystr := Ok (base ++ u).

(** Nodes for examples: a heading without a link, and a heading that wraps
    one link. *)
Definition heading (text : string) : h3 :=
  {| get_text := py text; find_a := None |}.

Definition link (text target : string) : h3 :=
  {| get_text := py text;
     find_a := Some {| a_text := py text; href := py target |} |}.

(** The month that lies [k] months after the month of [d], by month
    arithmetic on the index [12 * year + (month - 1)]. *)
Definition months_after (d : Datetime.date) (k : Z) : Z * Z :=
  let i := 12 * Datetime.year d + (Datetime.month d - 1) + k in
  (i / 12, i mod 12 + 1).

(** [d] is the last calendar day of month [m] of year [y]. *)
Definition is_last_day_of (y m : Z) (d : Datetime.date) : Prop :=
  Datetime.year d = y /\ Datetime.month d = m /\
  Datetime.valid d = true /\
  forall d', Datetime.valid_ymd y m d' = true -> d' <= Datetime.day d.

(** The ordinal of the first day of the month after month [m] of year
    [y]. *)
Definition first_of_next_month (y m : Z) : Z :=
  if m =? 12 then Datetime._ymd2ord (y + 1) 1 1
  else Datetime._ymd2ord y (m + 1) 1.

Definition months12 : list Z := [1; 2; 3; 4; 5; 6; 7; 8; 9; 10; 11; 12].

(** [P 1 && ... && P n]. *)
Fixpoint all_upto (P : nat -> bool) (n : nat) : bool :=
  match n with
  | O => true
  | S k => P n && all_upto P k
  end.

(** An iteration, or the whole loop, ends without an exception in the
    state [s]. *)
Definition returns (f : flow) (s : locals) : Prop :=
  f = Next s \/ f = Break s.

(** The month that a heading carries when it is a date line. *)
Definition date_month (h : h3) : option Z :=
  match search DATE_LINE (get_text h) with
  | Some m =>
      match py_int (group m 2) with
      | Ok mm => Some mm
      | Raise _ => None
      end
  | None => None
  end.

(** The months of the date lines of a node sequence, in document order. *)
Definition date_months (h3s : list h3) : list Z := omap date_month h3s.

(** What one date line with month [mm] adds to the year, given the month
    of the date line before it. *)
Definition rollover (pm : option Z) (mm : Z) : Z :=
  match pm with
  | Some p => if mm <? p then 1 else 0
  | None => 0
  end.

(** The number of times a month is strictly smaller than the month before
    it, in a sequence of months that follows the month [pm]. *)
Fixpoint descents (pm : option Z) (ms : list Z) : Z :=
  match ms with
  | [] => 0
  | mm :: ms' => rollover pm mm + descents (Some mm) ms'
  end.

(** The last month of a sequence that follows the month [pm]. *)
Fixpoint last_month (pm : option Z) (ms : list Z) : option Z :=
  match ms with
  | [] => pm
  | mm :: ms' => last_month (Some mm) ms'
  end.

(** The year that the scan gives to a date line with month [mm] that
    comes after the nodes [pre]. *)
Definition inferred_year_at (today : Datetime.date) (pre : list h3)
    (mm : Z) : Z :=
  Datetime.year today + descents None (date_months pre)
  + rollover (last_month None (date_months pre)) mm.

(** A day and month that name no calendar date in any year: not even in
    a leap year. *)
Definition impossible_day_month (dd mm : Z) : bool :=
  negb (Datetime.valid_ymd 2000 mm dd).

(** What the code does with a link target. *)
Definition resolve (urljoin : pystr -> pystr -> result pystr)
    (target : pystr) : result pystr :=
  if startswith target (py "/") then urljoin BASE_URL target else Ok target.

(** An absolute URL starts with a scheme: a letter, then letters, digits,
    [+], [-] or [.], up to a colon. *)
Definition is_alpha (c : char) : bool :=
  ((0x41 <=? c) && (c <=? 0x5A) || (0x61 <=? c) && (c <=? 0x7A))%N.

Definition is_scheme_char (c : char) : bool :=
  is_alpha c || ((0x30 <=? c) && (c <=? 0x39))%N
  || existsb (N.eqb c) (py "+-.").

Fixpoint scheme_tail (u : pystr) : bool :=
  match u with
  | [] => false
  | c :: u' =>
      if (c =? chr1 ":")%N then true
      else is_scheme_char c && scheme_tail u'
  end.

Definition is_absolute_url (u : pystr) : bool :=
  match u with
  | c :: u' => is_alpha c && scheme_tail u'
  | [] => false
  end.

(** [a <= b] on dates, written out on the fields. *)
Definition date_le (a b : Datetime.date) : Prop :=
  Datetime.year a < Datetime.year b \/
  (Datetime.year a = Datetime.year b /\
   (Datetime.month a < Datetime.month b \/
    (Datetime.month a = Datetime.month b /\
     Datetime.day a <= Datetime.day b))).

(** A page in the style of the calendar: a month header, date lines and
    event links, one of them repeated, one with a path that is relative
    but not rooted, and a last date beyond a two-month horizon. *)
Definition sample_page : list h3 := [
  heading "februari";
  heading "torsdag 05/02";
  link "HV71 – Skellefteå AIK" "/jonkoping/event/hv71-skelleftea-aik/";
  heading "fredag 06/02";
  link "AW Med Quiz! Från Kl.17.00" "/jonkoping/event/aw-med-quiz/";
  link "AW Med Quiz! Från Kl.17.00" "/jonkoping/event/aw-med-quiz/";
  link "Fredagslunch Kl.12-17" "https://krogoco.se/jonkoping/event/lunch/";
  heading "lördag 07/02";
  link "Pianobar Kl.22.00, 23+" "jonkoping/event/pianobar/";
  heading "fredag 01/05";
  link "Valborg 19:00-23:00" "/jonkoping/event/valborg/"
].

Definition sample_scraper : KrogocoIcs := __init__ casefold_id 2 [].

(** A page whose only link has a target that is relative without a
    leading slash. *)
Definition relative_page : list h3 := [
  heading "lördag 07/02";
  link "Pianobar Kl.22.00, 23+" "jonkoping/event/pianobar/"
].

Definition sample_today : Datetime.date := Datetime.Date 2025 2 1.

Definition sample_events : list CalendarEvent := [
  {| date := Datetime.Date 2025 2 5;
     title := py "HV71 – Skellefteå AIK";
     url := py "https://krogoco.se/jonkoping/event/hv71-skelleftea-aik/";
     all_day := true; start_time := None; end_time := None |};
  {| date := Datetime.Date 2025 2 6;
     title := py "AW Med Quiz! Från Kl.17.00";
     url := py "https://krogoco.se/jonkoping/event/aw-med-quiz/";
     all_day := false; start_time := Some (py "17:00"); end_time := None |};
  {| date := Datetime.Date 2025 2 6;
     title := py "Fredagslunch Kl.12-17";
     url := py "https://krogoco.se/jonkoping/event/lunch/";
     all_day := false;
     start_time := Some (py "12:00"); end_time := Some (py "17:00") |};
  {| date := Datetime.Date 2025 2 7;
     title := py "Pianobar Kl.22.00, 23+";
     url := py "jonkoping/event/pianobar/";
     all_day := false;
     start_time := Some (py "22:00"); end_time := Some (py "23:00") |}
].

(** A page that crosses the turn of the year, with date lines in the
    months 12, 12, 1, 1 and 2. *)
Definition rollover_page : list h3 := [
  heading "december";
  heading "lördag 06/12";
  link "Julbord Kl.12-17" "https://krogoco.se/jonkoping/event/julbord/";
  heading "lördag 13/12";
  link "Lucia" "https://krogoco.se/jonkoping/event/lucia/";
  heading "januari";
  heading "lördag 03/01";
  link "Nyårsfest Från 21:00" "https://krogoco.se/jonkoping/event/nyar/";
  heading "lördag 10/01";
  link "Quiz" "https://krogoco.se/jonkoping/event/quiz/";
  heading "februari";
  heading "lördag 14/02";
  link "Alla Hjärtans Dag" "https://krogoco.se/jonkoping/event/hjartan/"
].

Definition rollover_scraper : KrogocoIcs := __init__ casefold_id 4 [].

Definition rollover_today : Datetime.date := Datetime.Date 2025 11 1.

Definition rollover_events : list CalendarEvent := [
  {| date := Datetime.Date 2025 12 6;
     title := py "Julbord Kl.12-17";
     url := py "https://krogoco.se/jonkoping/event/julbord/";
     all_day := false;
     start_time := Some (py "12:00"); end_time := Some (py "17:00") |};
  {| date := Datetime.Date 2025 12 13;
     title := py "Lucia";
     url := py "https://krogoco.se/jonkoping/event/lucia/";
     all_day := true; start_time := None; end_time := None |};
  {| date := Datetime.Date 2026 1 3;
     title := py "Nyårsfest Från 21:00";
     url := py "https://krogoco.se/jonkoping/event/nyar/";
     all_day := false; start_time := Some (py "21:00"); end_time := None |};
  {| date := Datetime.Date 2026 1 10;
     title := py "Quiz";
     url := py "https://krogoco.se/jonkoping/event/quiz/";
     all_day := true; start_time := None; end_time := None |};
  {| date := Datetime.Date 2026 2 14;
     title := py "Alla Hjärtans Dag";
     url := py "https://krogoco.se/jonkoping/event/hjartan/";
     all_day := true; start_time := None; end_time := None |}
].

(** The state in which an iteration or the loop ended, when it ended by
    falling through. *)
Definition is_next (f : flow) : bool :=
  match f with
  | Next _ => true
  | _ => false
  end.

Definition state_of (f : flow) (default : locals) : locals :=
  match f with
  | Next s => s
  | Break s => s
  | Abort _ => default
  end.

(** The loop was left by [break]. *)
Definition is_break (f : flow) : bool :=
  match f with
  | Break _ => true
  | _ => false
  end.

(** ** Building the calendar

    [_build_calendar] turns the events of [scrape_events] into the
    components it hands to the [icalendar] library. The library objects
    are embedded as the data put into them. *)

(** [s.split(sep)] for a separator of one character. *)
Fixpoint split (sep : char) (s : pystr) : list pystr :=
  match s with
  | [] => [[]]
  | c :: s' =>
      if (c =? sep)%N then [] :: split sep s'
      else
        match split sep s' with
        | w :: ws => (c :: w) :: ws
        | [] => [[c]]
        end
  end.

(** [h, m = map(int, parts)]: unpacking needs exactly two parts, and
    raises [ValueError] like [int] otherwise. The parts of a time of the
    parser are runs of digits, on which [py_int] is [int]. *)
Definition unpack_hm (parts : list pystr) : result (Z * Z) :=
  match parts with
  | [a; b] =>
      h ← py_int a;
      m ← py_int b;
      Ok (h, m)
  | _ => Raise ValueError
  end.

Module Timestamp.

(** [datetime.datetime] without time zone. The module only builds values
    whose seconds and microseconds are zero, so they are left out. *)
Record datetime : Type := DateTime {
  date_of : Datetime.date;
  hour : Z;
  minute : Z
}.

(** The constructor [datetime(year, month, day, hour, minute)]: the
    arguments are converted to C [int]s, then the date fields and the time
    fields are checked. *)
Definition new (y m d h mi : Z) : result datetime :=
  if negb (Datetime.fits_int h && Datetime.fits_int mi
           && Datetime.fits_int y && Datetime.fits_int m
           && Datetime.fits_int d)
  then Raise OverflowError else
  on ← Datetime.new y m d;
  if negb ((0 <=? h) && (h <=? 23)) then Raise ValueError
  else if negb ((0 <=? mi) && (mi <=? 59)) then Raise ValueError
  else Ok (DateTime on h mi).

(** [t + timedelta(days=n)]. *)
Definition add_days (t : datetime) (n : Z) : result datetime :=
  let o := Datetime.toordinal (date_of t) + n in
  if (0 <? o) && (o <=? Datetime._MAXORDINAL) then
    on ← Datetime.fromordinal o;
    Ok (DateTime on (hour t) (minute t))
  else Raise OverflowError.

(** Comparison is comparison of (year, month, day, hour, minute). *)
Definition ltb (a b : datetime) : bool :=
  Datetime.ltb (date_of a) (date_of b)
  || (negb (Datetime.ltb (date_of b) (date_of a))
      && ((hour a <? hour b)
          || ((hour a =? hour b) && (minute a <? minute b)))).

Definition leb (a b : datetime) : bool := negb (ltb b a).

End Timestamp.

(** The value of a [DTSTART] or [DTEND] property: a [DATE] or a
    [DATE-TIME]. *)
Inductive ical_value : Type :=
| DATE (d : Datetime.date)
| DATE_TIME (t : Timestamp.datetime).

(** An [icalendar.Event] after the four [event.add] calls. *)
Record Event : Type := {
  summary : pystr;
  event_url : pystr;
  dtstart : ical_value;
  dtend : ical_value
}.

(** An [icalendar.Calendar] after [cal.add] and [cal.add_component]. *)
Record Calendar : Type := {
  prodid : pystr;
  version : pystr;
  components : list Event
}.

(** [_build_calendar] can also fail with an [AttributeError], when it
    calls [split] on a start time that is [None]. *)
Inductive build_error : Type :=
| Raised (e : exn)
| AttributeError.

Inductive built (A : Type) : Type :=
| Built (a : A)
| Failed (e : build_error).

Arguments Built {A} a.
Arguments Failed {A} e.

Definition lift {A : Type} (r : result A) : built A :=
  match r with
  | Ok a => Built a
  | Raise e => Failed (Raised e)
  end.

(** The [if ev.all_day] branch of the loop body. *)
Definition all_day_event (ev : CalendarEvent) : result Event :=
  next ← Datetime.add_days (date ev) 1;
  Ok {| summary := title ev;
        event_url := url ev;
        dtstart := DATE (date ev);
        dtend := DATE next |}.

(** The [else] branch, entered with the start time. *)
Definition timed_event (ev : CalendarEvent) (start : pystr) : result Event :=
  let y := Datetime.year (date ev) in
  let mo := Datetime.month (date ev) in
  let d := Datetime.day (date ev) in
  '(h, m) ← unpack_hm (split (chr1 ":") start);
  dtstart ← Timestamp.new y mo d h m;
  match end_time ev with
  | Some (c :: t) =>
      '(h, m) ← unpack_hm (split (chr1 ":") (c :: t));
      dtend ← Timestamp.new y mo d h m;
      dtend ← (if Timestamp.leb dtend dtstart
               then Timestamp.add_days dtend 1 else Ok dtend);
      Ok {| summary := title ev;
            event_url := url ev;
            dtstart := DATE_TIME dtstart;
            dtend := DATE_TIME dtend |}
  | _ =>
      midnight ← Timestamp.new y mo d 0 0;
      dtend ← Timestamp.add_days midnight 1;
      Ok {| summary := title ev;
            event_url := url ev;
            dtstart := DATE_TIME dtstart;
            dtend := DATE_TIME dtend |}
  end.

(** The body of [for ev in self.scrape_events()]. *)
Definition component (ev : CalendarEvent) : built Event :=
  if all_day ev then lift (all_day_event ev)
  else
    match start_time ev with
    | Some start => lift (timed_event ev start)
    | None => Failed AttributeError
    end.

(** The loop: the first exception ends it. *)
Fixpoint build_components (evs : list CalendarEvent) : built (list Event) :=
  match evs with
  | [] => Built []
  | ev :: evs' =>
      match component ev with
      | Failed e => Failed e
      | Built c =>
          match build_components evs' with
          | Failed e => Failed e
          | Built cs => Built (c :: cs)
          end
      end
  end.

Section Builder.

Variable casefold : pystr -> pystr.
Variable urljoin : pystr -> pystr -> result pystr.

(** [_build_calendar], given what [scrape_events] is given. *)
Definition _build_calendar (self : KrogocoIcs) (today : Datetime.date)
    (h3s : list h3) : built Calendar :=
  match scrape_events casefold urljoin self today h3s with
  | Raise e => Failed (Raised e)
  | Ok evs =>
      match build_components evs with
      | Failed e => Failed e
      | Built cs =>
          Built {| prodid := py "-//KrogCo//Calendar//EN";
                   version := py "2.0";
                   components := cs |}
      end
  end.

End Builder.

(** ** More specification-side definitions *)

(** A time written with a one- or two-digit hour: [H:MM] or [HH:MM]. *)
Definition is_H_MM (t : pystr) : bool :=
  match t with
  | [h1; c; m1; m2] =>
      Unicode.isdecimal h1 && (c =? chr1 ":")%N
      && Unicode.isdecimal m1 && Unicode.isdecimal m2
  | [h1; h2; c; m1; m2] =>
      Unicode.isdecimal h1 && Unicode.isdecimal h2 && (c =? chr1 ":")%N
      && Unicode.isdecimal m1 && Unicode.isdecimal m2
  | _ => false
  end.

(** What [_last_day_of_month] does for the target month [m] of year [y]:
    the last day when the following month still starts on a date; an
    [OverflowError] when stepping back from 0001-01-01, and when the year
    of the following month does not fit a C [int]; a [ValueError] for
    every other target. *)
Definition last_day_outcome (y m : Z) : result Datetime.date :=
  if (1 <=? y) && (y <=? 9999) && negb ((y =? 9999) && (m =? 12))
  then Ok (Datetime.Date y m (Datetime._days_in_month y m))
  else if (y =? 0) && (m =? 12) then Raise OverflowError
  else if Datetime.fits_int (if m =? 12 then y + 1 else y)
  then Raise ValueError
  else Raise OverflowError.

(** The text of the link a heading wraps, if it wraps one. *)
Definition link_title (h : h3) : option pystr := a_text <$> find_a h.

(** [a] is in the same month as [b] or in an earlier one. *)
Definition month_le (a b : Datetime.date) : Prop :=
  Datetime.year a < Datetime.year b \/
  (Datetime.year a = Datetime.year b /\ Datetime.month a <= Datetime.month b).

(** A scraper that blacklists the hockey club, and what it returns for the
    sample page. *)
Definition blacklist_scraper : KrogocoIcs := __init__ casefold_id 2 [py "HV71"].

Definition blacklist_events : list CalendarEvent := tail sample_events.

(** Two of the events of the sample page. *)
Definition lunch_event : CalendarEvent :=
  {| date := Datetime.Date 2025 2 6;
     title := py "Fredagslunch Kl.12-17";
     url := py "https://krogoco.se/jonkoping/event/lunch/";
     all_day := false;
     start_time := Some (py "12:00"); end_time := Some (py "17:00") |}.

Definition pianobar_event : CalendarEvent :=
  {| date := Datetime.Date 2025 2 7;
     title := py "Pianobar Kl.22.00, 23+";
     url := py "jonkoping/event/pianobar/";
     all_day := false;
     start_time := Some (py "22:00"); end_time := Some (py "23:00") |}.

(** The calendar day after [d]. *)
Definition next_day (d : Datetime.date) : Datetime.date :=
  let y := Datetime.year d in
  let m := Datetime.month d in
  if Datetime.day d <? Datetime._days_in_month y m
  then Datetime.Date y m (Datetime.day d + 1)
  else if m <? 12 then Datetime.Date y (m + 1) 1
  else Datetime.Date (y + 1) 1 1.

(** [_ord2ymd] cut in two: the divisions that find the year, and the
    date made from their results. *)
Definition ord_parts (n : Z) : Z * Z * Z * Z * Z :=
  let n := n - 1 in
  let n400 := n / Datetime._DI400Y in
  let n := n mod Datetime._DI400Y in
  let n100 := n / Datetime._DI100Y in
  let n := n mod Datetime._DI100Y in
  let n4 := n / Datetime._DI4Y in
  let n := n mod Datetime._DI4Y in
  let n1 := n / 365 in
  let n := n mod 365 in
  (n400, n100, n4, n1, n).

(** Month and day of the day with index [n] in a year. *)
Definition month_day (leapyear : bool) (n : Z) : Z * Z :=
  let month := Z.shiftr (n + 50) 5 in
  let preceding :=
    Datetime.item Datetime._DAYS_BEFORE_MONTH month
    + (if (2 <? month) && leapyear then 1 else 0) in
  if n <? preceding then
    let month := month - 1 in
    let preceding :=
      preceding - (Datetime.item Datetime._DAYS_IN_MONTH month
                   + (if (month =? 2) && leapyear then 1 else 0)) in
    (month, n - preceding + 1)
  else (month, n - preceding + 1).

Definition ord_date (p : Z * Z * Z * Z * Z) : Z * Z * Z :=
  let '(n400, n100, n4, n1, n) := p in
  let year := n400 * 400 + 1 + (n100 * 100 + n4 * 4 + n1) in
  if (n1 =? 4) || (n100 =? 4) then (year - 1, 12, 31)
  else
    let leapyear := (n1 =? 3) && (negb (n4 =? 24) || (n100 =? 3)) in
    let '(month, day) := month_day leapyear n in
    (year, month, day).

(** What is checked of each year of a 400-year cycle: the divisions at
    its first day, its last day when it is a leap year, and its length. *)
Definition year_check (y : Z) : bool :=
  let first := Datetime._days_before_year y + 1 in
  let '(n400, n100, n4, n1, n) := ord_parts first in
  (n400 =? 0) && (0 <=? n100) && (n100 <=? 3) && (0 <=? n4)
  && (0 <=? n1) && (n1 <=? 3) && (n =? 0)
  && (n100 * 100 + n4 * 4 + n1 + 1 =? y)
  && Bool.eqb ((n1 =? 3) && (negb (n4 =? 24) || (n100 =? 3)))
       (Datetime._is_leap y)
  && (negb (Datetime._is_leap y)
      || bool_decide (Datetime._ord2ymd (first + 365) = (y, 12, 31)))
  && (Datetime._days_before_year (y + 1)
      =? Datetime._days_before_year y
         + (if Datetime._is_leap y then 366 else 365)).

Definition days31 : list Z :=
  [1; 2; 3; 4; 5; 6; 7; 8; 9; 10; 11; 12; 13; 14; 15; 16; 17; 18; 19; 20;
   21; 22; 23; 24; 25; 26; 27; 28; 29; 30; 31].

(** The hour and minute of a time string, when [datetime] accepts them. *)
Definition clock (t : pystr) : option (Z * Z) :=
  match clock_fields t with
  | Some (h, m) => if (h <=? 23) && (m <=? 59) then Some (h, m) else None
  | None => None
  end.

(** The span of an event in the words of the specification: an all-day
    event runs from its date to the next day; a timed event without an end
    runs to midnight of the next day; one with an end runs to that clock
    on the same day, or on the next day when the end is not later than the
    start. There is no span when a clock is out of range. *)
Definition span (e : CalendarEvent) : option (ical_value * ical_value) :=
  match start_time e with
  | None => Some (DATE (date e), DATE (next_day (date e)))
  | Some st =>
      '(h, m) ← clock st;
      let start := Timestamp.DateTime (date e) h m in
      match end_time e with
      | None =>
          Some (DATE_TIME start,
                DATE_TIME (Timestamp.DateTime (next_day (date e)) 0 0))
      | Some en =>
          '(h', m') ← clock en;
          let later := (h <? h') || ((h =? h') && (m <? m')) in
          let day := if later then date e else next_day (date e) in
          Some (DATE_TIME start, DATE_TIME (Timestamp.DateTime day h' m'))
      end
  end.

Definition expected (e : CalendarEvent) : option Event :=
  '(s, t) ← span e;
  Some {| summary := title e; event_url := url e; dtstart := s; dtend := t |}.

(** The day a value falls on, and the order of two values of a kind. *)
Definition day_of (v : ical_value) : Datetime.date :=
  match v with
  | DATE d => d
  | DATE_TIME t => Timestamp.date_of t
  end.

Definition value_ltb (a b : ical_value) : bool :=
  match a, b with
  | DATE x, DATE y => Datetime.ltb x y
  | DATE_TIME x, DATE_TIME y => Timestamp.ltb x y
  | _, _ => false
  end.

(** A scraped event good enough for [_build_calendar]: a valid date
    before December 9999 and time fields as the parser gives them. *)
Definition parsed (e : CalendarEvent) : Prop :=
  Datetime.valid (date e) = true /\
  (Datetime.year (date e) < 9999 \/ Datetime.month (date e) < 12) /\
  _parse_time_range (title e) = Ok (start_time e, end_time e, all_day e).

Definition time_like (o : option pystr) : Prop :=
  match o with
  | Some t => is_H_MM t = true
  | None => True
  end.

(** A page with a title whose time is no clock time. *)
Definition late_page : list h3 := [
  heading "fredag 06/02";
  link "Quiz Kl.17.00" "/jonkoping/event/quiz/";
  link "Nattklubb 25.00" "/jonkoping/event/nattklubb/";
  link "Lunch Kl.12-17" "/jonkoping/event/lunch/"
].

(** A page with an event that ends after midnight, and its calendar. *)
Definition night_page : list h3 := [
  heading "fredag 06/02";
  link "Nattklubb 22.00-02.00" "/jonkoping/event/nattklubb/"
].

Definition night_event : Event :=
  {| summary := py "Nattklubb 22.00-02.00";
     event_url := py "https://krogoco.se/jonkoping/event/nattklubb/";
     dtstart := DATE_TIME (Timestamp.DateTime (Datetime.Date 2025 2 6) 22 0);
     dtend := DATE_TIME (Timestamp.DateTime (Datetime.Date 2025 2 7) 2 0) |}.

Definition night_calendar : Calendar :=
  {| prodid := py "-//KrogCo//Calendar//EN";
     version := py "2.0";
     components := [night_event] |}.

(** * Properties *)

(** ** The matcher *)

Lemma derive_rest r s w s' : derive r s w s' -> rest s = w ++ rest s'.
Proof.
  induction 1; simpl; try reflexivity; try assumption.
  rewrite IHderive1, IHderive2. by rewrite <- app_assoc.
Qed.

Lemma consumed_derive r s w s' : derive r s w s' -> consumed s s' = w.
Proof.
  intros H. apply derive_rest in H. unfold consumed. rewrite H.
  rewrite length_app.
  replace (length w + length (rest s') - length (rest s'))%nat
    with (length w) by lia.
  by rewrite firstn_app, firstn_all, Nat.sub_diag, app_nil_r.
Qed.

Lemma star_sound p k : forall l pv g m,
  star p k pv l g = Some m ->
  exists w tl pv', l = w ++ tl /\ Forall (fun c => p c = true) w
                   /\ k (Cursor pv' tl g) = Some m.
Proof.
  induction l as [|c tl IH]; intros pv g m H; simpl in H.
  - exists [], [], pv. auto.
  - destruct (p c) eqn:Hp.
    + destruct (star p k (Some c) tl g) eqn:Hs.
      * injection H as ->. apply IH in Hs as (w & tl' & pv' & -> & Hw & Hk).
        exists (c :: w), tl', pv'. auto.
      * exists [], (c :: tl), pv. auto.
    + exists [], (c :: tl), pv. auto.
Qed.

(** Whatever the matcher returns was returned by its continuation, at a
    cursor that the pattern derives. *)
Lemma run_sound r : forall k s m,
  run r k s = Some m ->
  exists w s', derive r s w s' /\ k s' = Some m.
Proof.
  induction r as [|p|r1 IH1 r2 IH2|r1 IH1 r2 IH2|r IH|p|n r IH|r IH|];
    intros k s m H; simpl in H.
  - exists [], s. split; [constructor | done].
  - destruct s as [pv [|c tl] g]; simpl in H; [done|].
    destruct (p c) eqn:Hp; [|done].
    eexists [c], _. split; [by constructor | done].
  - apply IH1 in H as (w1 & s1 & H1 & H).
    apply IH2 in H as (w2 & s2 & H2 & H).
    exists (w1 ++ w2), s2. split; [by econstructor | done].
  - destruct (run r1 k s) eqn:H1.
    + injection H as ->. apply IH1 in H1 as (w & s' & ? & ?).
      exists w, s'. split; [by apply derive_alt_l | done].
    + apply IH2 in H as (w & s' & ? & ?).
      exists w, s'. split; [by apply derive_alt_r | done].
  - destruct (run r k s) eqn:H1.
    + injection H as ->. apply IH in H1 as (w & s' & ? & ?).
      exists w, s'. split; [by apply derive_opt_some | done].
    + exists [], s. split; [apply derive_opt_none | done].
  - destruct s as [pv l g]; simpl in H.
    apply star_sound in H as (w & tl & pv' & -> & Hw & Hk).
    exists w, (Cursor pv' tl g). split; [by constructor | done].
  - apply IH in H as (w & s' & Hd & H).
    unfold close_group in H. rewrite (consumed_derive _ _ _ _ Hd) in H.
    exists w, (Cursor (prev s') (rest s') ((n, w) :: caps s')).
    split; [by apply derive_grp | done].
  - fold accept in H. destruct (run r accept s) eqn:H1; [done|].
    exists [], s. split; [by constructor | done].
  - destruct (xorb _ _) eqn:Hx; [|done].
    exists [], s. split; [by constructor | done].
Qed.

Lemma search_from_sound r : forall l pv m,
  search_from r pv l = Some m ->
  exists pv' l' w s', derive r (Cursor pv' l' []) w s' /\ m = caps s'.
Proof.
  induction l as [|c tl IH]; intros pv m H; simpl in H.
  - destruct (run r accept _) eqn:Hr; [|done]. injection H as ->.
    apply run_sound in Hr as (w & s' & Hd & Ha). injection Ha as <-.
    by exists pv, [], w, s'.
  - destruct (run r accept _) eqn:Hr.
    + injection H as ->.
      apply run_sound in Hr as (w & s' & Hd & Ha). injection Ha as <-.
      by exists pv, (c :: tl), w, s'.
    + by apply IH in H.
Qed.

Lemma search_sound r text m :
  search r text = Some m ->
  exists pv l w s', derive r (Cursor pv l []) w s' /\ m = caps s'.
Proof. apply search_from_sound. Qed.

(** Inversion of [derive] on a pattern given by its syntax. *)
Ltac derive_inv :=
  repeat match goal with
  | H : derive Eps _ _ _ |- _ => inversion H; subst; clear H
  | H : derive (Cls _) _ _ _ |- _ => inversion H; subst; clear H
  | H : derive (Cat _ _) _ _ _ |- _ => inversion H; subst; clear H
  | H : derive (Alt _ _) _ _ _ |- _ => inversion H; subst; clear H
  | H : derive (Opt _) _ _ _ |- _ => inversion H; subst; clear H
  | H : derive (Star _) _ _ _ |- _ => inversion H; subst; clear H
  | H : derive (Grp _ _) _ _ _ |- _ => inversion H; subst; clear H
  | H : derive (NotAhead _) _ _ _ |- _ => inversion H; subst; clear H
  | H : derive Bnd _ _ _ |- _ => inversion H; subst; clear H
  end.

Ltac unfold_pattern H :=
  cbv [FULL_RANGE SHORT_RANGE TIME_HINT SINGLE_TIME DATE_LINE TIME
       seq fold_right rep_1_2 rep_2 digit spaces lit one_of] in H.

Lemma digits_1 c : Unicode.isdecimal c = true -> digits [c].
Proof. intros H. split; [done | by repeat constructor]. Qed.

Lemma digits_2 c d :
  Unicode.isdecimal c = true -> Unicode.isdecimal d = true -> digits [c; d].
Proof. intros H1 H2. split; [done | by repeat constructor]. Qed.

#[local] Hint Resolve digits_1 digits_2 : core.

Lemma short_range_groups text m :
  search SHORT_RANGE text = Some m ->
  digits (group m 1) /\ digits (group m 2).
Proof.
  intros H. apply search_sound in H as (pv & l & w & s' & Hd & ->).
  unfold_pattern Hd. derive_inv; simpl; auto.
Qed.

Lemma time_hint_groups text m :
  search TIME_HINT text = Some m -> digits (group m 2).
Proof.
  intros H. apply search_sound in H as (pv & l & w & s' & Hd & ->).
  unfold_pattern Hd. derive_inv; simpl; auto.
Qed.

Lemma date_line_groups text m :
  search DATE_LINE text = Some m ->
  digits (group m 1) /\ digits (group m 2).
Proof.
  intros H. apply search_sound in H as (pv & l & w & s' & Hd & ->).
  unfold_pattern Hd. derive_inv; simpl; auto.
Qed.

(** [int] does not raise on the text of a [\d] group. *)
Lemma int_step_digits : forall (l : pystr) (a : Z),
  Forall (fun c => Unicode.isdecimal c = true) l ->
  exists n, fold_left int_step l (Ok a) = Ok n.
Proof.
  induction l as [|x l IH]; intros a Hl; simpl.
  - by exists a.
  - inversion Hl as [|? ? Hx Hl']; subst.
    unfold Unicode.isdecimal in Hx.
    destruct (Unicode.decimal x) as [d|]; [|done]. by apply IH.
Qed.

Lemma py_int_digits w : digits w -> exists n, py_int w = Ok n.
Proof.
  intros [Hne Hall]. destruct w as [|c w]; [done|].
  by apply (int_step_digits (c :: w) 0).
Qed.

(** ** The time-expression parser *)

(** The parser never raises: the groups handed to [int] are digit runs. *)
Lemma _parse_time_range_total text :
  exists st en ad, _parse_time_range text = Ok (st, en, ad).
Proof.
  unfold _parse_time_range.
  destruct (search FULL_RANGE text) as [m|]; [by eauto|].
  destruct (search SHORT_RANGE text) as [m|] eqn:H2.
  { apply short_range_groups in H2 as [G1 G2].
    apply py_int_digits in G1 as [h1 ->], G2 as [h2 ->]. simpl. by eauto. }
  destruct (search TIME_HINT text) as [m|] eqn:H3.
  { apply time_hint_groups, py_int_digits in H3 as [h2 ->]. simpl. by eauto. }
  destruct (search SINGLE_TIME text) as [m|]; by eauto.
Qed.

(** Nor does [int] raise on the day and month of a date line. *)
Lemma date_line_ints text m :
  search DATE_LINE text = Some m ->
  exists dd mm, py_int (group m 1) = Ok dd /\ py_int (group m 2) = Ok mm.
Proof.
  intros H. apply date_line_groups in H as [G1 G2].
  apply py_int_digits in G1 as [dd ->], G2 as [mm ->]. by eauto.
Qed.

Lemma _parse_time_range_all_day text st en ad :
  _parse_time_range text = Ok (st, en, ad) ->
  (ad = true <-> st = None /\ en = None) /\ (ad = false -> is_Some st).
Proof.
  unfold _parse_time_range.
  destruct (search FULL_RANGE text) as [m|].
  { intros [= <- <- <-]. by intuition eauto. }
  destruct (search SHORT_RANGE text) as [m|].
  { destruct (py_int (group m 1)); [|done].
    destruct (py_int (group m 2)); [|done].
    intros [= <- <- <-]. by intuition eauto. }
  destruct (search TIME_HINT text) as [m|].
  { destruct (py_int (group m 2)); [|done].
    intros [= <- <- <-]. by intuition eauto. }
  destruct (search SINGLE_TIME text) as [m|];
    intros [= <- <- <-]; by intuition eauto.
Qed.

Lemma _parse_time_range_first_match text :
  _parse_time_range text =
  first_match
    [full_range_rule; short_range_rule; time_hint_rule; single_time_rule]
    text.
Proof.
  unfold _parse_time_range, first_match, full_range_rule, short_range_rule,
    time_hint_rule, single_time_rule.
  destruct (search FULL_RANGE text); simpl; [done|].
  destruct (search SHORT_RANGE text); simpl; [done|].
  destruct (search TIME_HINT text); simpl; [done|].
  by destruct (search SINGLE_TIME text).
Qed.

(** C4. The rules of [_parse_time_range] are tried in the order full
    range, short hour range, time plus hint, single time, and the first one
    whose pattern is found anywhere in the title decides the result. In
    particular, as soon as the full-range pattern is found its two
    normalised times are returned, whatever the other patterns would
    find. *)
Theorem parse_time_range_priority text :
  _parse_time_range text =
    first_match
      [full_range_rule; short_range_rule; time_hint_rule; single_time_rule]
      text
  /\ forall m, search FULL_RANGE text = Some m ->
       _parse_time_range text =
         Ok (Some (_normalize_time (group m 1)),
             Some (_normalize_time (group m 2)), false).
Proof.
  split; [apply _parse_time_range_first_match|].
  intros m H. unfold _parse_time_range. by rewrite H.
Qed.

(** A title in which all four patterns are found, among them a full range
    and an unrelated "23+" hint: the full range wins. *)
Lemma parse_time_range_priority_witness :
  let text := py "Kl.12-17 Pianobar Kl.22.00, 23+ Fest 19:00-23:00" in
  is_Some (search SHORT_RANGE text) /\
  is_Some (search TIME_HINT text) /\
  is_Some (search SINGLE_TIME text) /\
  _parse_time_range text = Ok (Some (py "19:00"), Some (py "23:00"), false).
Proof.
  intros text.
  split; [vm_compute; eexists; reflexivity|].
  split; [vm_compute; eexists; reflexivity|].
  split; [vm_compute; eexists; reflexivity|].
  refine (eq_trans
    (proj2 (parse_time_range_priority text)
       [(2%nat, py "23:00"); (1%nat, py "19:00")] _) _);
    vm_compute; reflexivity.
Defined.

(** C3, at the failing input: a one-digit hour is passed through by
    [_normalize_time] with only its separator changed, so the start time is
    ["9:00"], which is not of the shape [HH:MM]. *)
Theorem parse_time_range_one_digit_hour :
  _parse_time_range (py "Från 9.00") = Ok (Some (py "9:00"), None, false)
  /\ is_HH_MM (py "9:00") = false.
Proof. split; vm_compute; reflexivity. Qed.

(** C10. The parser does not check that a time lies on the 24-hour clock:
    the title "Från 99.99" gives the start time "99:99" on an event that is
    not all-day, whose hour and minute read back as 99 and 99. *)
Theorem parse_time_range_no_clock_check :
  _parse_time_range (py "Från 99.99") = Ok (Some (py "99:99"), None, false)
  /\ clock_fields (py "99:99") = Some (99, 99)
  /\ scrape_events casefold_id urljoin_concat
       (__init__ casefold_id 2 []) (Datetime.Date 2025 2 1)
       [heading "fredag 07/02";
        link "Från 99.99" "https://krogoco.se/jonkoping/event/x/"]
     = Ok [ {| date := Datetime.Date 2025 2 7;
               title := py "Från 99.99";
               url := py "https://krogoco.se/jonkoping/event/x/";
               all_day := false;
               start_time := Some (py "99:99");
               end_time := None |} ].
Proof. split; [|split]; vm_compute; reflexivity. Qed.

(** ** Dates *)

Lemma month_cases m :
  1 <= m <= 12 ->
  m = 1 \/ m = 2 \/ m = 3 \/ m = 4 \/ m = 5 \/ m = 6 \/
  m = 7 \/ m = 8 \/ m = 9 \/ m = 10 \/ m = 11 \/ m = 12.
Proof. lia. Qed.

Ltac each_month m H :=
  destruct (month_cases m H)
    as [->|[->|[->|[->|[->|[->|[->|[->|[->|[->|[->| ->]]]]]]]]]]].

(** Replace table look-ups and tests on literals by their values. *)
Ltac eval_closed :=
  repeat match goal with
  | |- context [Datetime.item ?t ?i] =>
      let v := eval vm_compute in (Datetime.item t i) in
      change (Datetime.item t i) with v
  | |- context [if ?c then _ else _] =>
      let v := eval vm_compute in c in change c with v; cbv iota
  end.

Section DatetimeFacts.
Import Datetime.

Lemma all_upto_spec (P : nat -> bool) n :
  all_upto P n = true -> forall k, (1 <= k <= n)%nat -> P k = true.
Proof.
  induction n as [|n IH]; intros H k Hk; [lia|].
  cbn [all_upto] in H. apply andb_prop in H as [Hn Hrest].
  destruct (decide (k = S n)) as [->|]; [done|]. apply IH; [done|lia].
Qed.

(** One 400-year cycle, by computation: the day before the first of next
    month is the last day of the month. *)
Lemma cycle_check_ok :
  all_upto
    (fun k =>
       forallb
         (fun m =>
            bool_decide
              (_ord2ymd (first_of_next_month (Z.of_nat k) m - 1)
               = (Z.of_nat k, m, _days_in_month (Z.of_nat k) m)))
         months12)
    400 = true.
Proof. vm_compute. reflexivity. Qed.

Lemma month_end_cycle y m :
  1 <= y <= 400 -> 1 <= m <= 12 ->
  _ord2ymd (first_of_next_month y m - 1) = (y, m, _days_in_month y m).
Proof.
  intros Hy Hm.
  assert (1 <= Z.to_nat y <= 400)%nat as Hk by lia.
  pose proof (all_upto_spec _ 400 cycle_check_ok (Z.to_nat y) Hk) as H.
  cbv beta in H. rewrite forallb_forall in H.
  assert (In m months12) as Hin by (unfold months12; cbn [In]; lia).
  apply H in Hin. apply bool_decide_eq_true in Hin.
  by rewrite Z2Nat.id in Hin by lia.
Qed.

Lemma _is_leap_period y q : _is_leap (y + 400 * q) = _is_leap y.
Proof.
  unfold _is_leap.
  replace ((y + 400 * q) mod 4) with (y mod 4)
    by (replace (y + 400 * q) with (y + (100 * q) * 4) by lia;
        by rewrite Z_mod_plus_full).
  replace ((y + 400 * q) mod 100) with (y mod 100)
    by (replace (y + 400 * q) with (y + (4 * q) * 100) by lia;
        by rewrite Z_mod_plus_full).
  replace ((y + 400 * q) mod 400) with (y mod 400)
    by (replace (y + 400 * q) with (y + q * 400) by lia;
        by rewrite Z_mod_plus_full).
  reflexivity.
Qed.

Lemma _days_before_year_period y q :
  _days_before_year (y + 400 * q) = _days_before_year y + 146097 * q.
Proof.
  unfold _days_before_year. cbv zeta.
  replace ((y + 400 * q - 1) / 4) with ((y - 1) / 4 + 100 * q)
    by (replace (y + 400 * q - 1) with (y - 1 + (100 * q) * 4) by lia;
        by rewrite Z_div_plus_full).
  replace ((y + 400 * q - 1) / 100) with ((y - 1) / 100 + 4 * q)
    by (replace (y + 400 * q - 1) with (y - 1 + (4 * q) * 100) by lia;
        by rewrite Z_div_plus_full).
  replace ((y + 400 * q - 1) / 400) with ((y - 1) / 400 + q)
    by (replace (y + 400 * q - 1) with (y - 1 + q * 400) by lia;
        by rewrite Z_div_plus_full).
  lia.
Qed.

Lemma _days_in_month_period y q m :
  _days_in_month (y + 400 * q) m = _days_in_month y m.
Proof. unfold _days_in_month. by rewrite _is_leap_period. Qed.

Lemma _ymd2ord_period y q m d :
  _ymd2ord (y + 400 * q) m d = _ymd2ord y m d + 146097 * q.
Proof.
  unfold _ymd2ord, _days_before_month.
  rewrite _days_before_year_period, _is_leap_period. lia.
Qed.

Lemma first_of_next_month_period y q m :
  first_of_next_month (y + 400 * q) m = first_of_next_month y m + 146097 * q.
Proof.
  unfold first_of_next_month. destruct (m =? 12).
  - replace (y + 400 * q + 1) with (y + 1 + 400 * q) by lia.
    apply _ymd2ord_period.
  - apply _ymd2ord_period.
Qed.

Lemma _ord2ymd_period n q :
  _ord2ymd (n + 146097 * q) =
  let '(y, m, d) := _ord2ymd n in (y + 400 * q, m, d).
Proof.
  unfold _ord2ymd. cbv zeta.
  change _DI400Y with 146097.
  replace (n + 146097 * q - 1) with (n - 1 + q * 146097) by lia.
  rewrite Z_div_plus_full, Z_mod_plus_full by done.
  set (n0 := (n - 1) mod 146097).
  set (n1 := (n0 mod _DI100Y mod _DI4Y) / 365).
  destruct ((n1 =? 4) || (n0 / _DI100Y =? 4)).
  - f_equal. f_equal. lia.
  - match goal with |- context [if ?c then _ else _] =>
      destruct c end; f_equal; f_equal; lia.
Qed.

(** The day before the first of next month is the last day of this month,
    in every year. *)
Lemma month_end y m :
  1 <= m <= 12 ->
  _ord2ymd (first_of_next_month y m - 1) = (y, m, _days_in_month y m).
Proof.
  intros Hm.
  assert (exists r q, y = r + 400 * q /\ 1 <= r <= 400) as (r & q & -> & Hr).
  { exists ((y - 1) mod 400 + 1), ((y - 1) / 400).
    pose proof (Z.div_mod (y - 1) 400).
    pose proof (Z.mod_pos_bound (y - 1) 400). lia. }
  rewrite first_of_next_month_period, _days_in_month_period.
  replace (first_of_next_month r m + 146097 * q - 1)
    with (first_of_next_month r m - 1 + 146097 * q) by lia.
  rewrite _ord2ymd_period, month_end_cycle by done. reflexivity.
Qed.

Lemma _days_in_month_bounds y m :
  1 <= m <= 12 -> 28 <= _days_in_month y m <= 31.
Proof.
  intros Hm. unfold _days_in_month.
  each_month m Hm; destruct (_is_leap y); eval_closed; lia.
Qed.

Lemma first_of_next_month_bounds y m :
  1 <= y <= 9999 -> 1 <= m <= 12 -> y < 9999 \/ m < 12 ->
  1 < first_of_next_month y m <= _MAXORDINAL.
Proof.
  intros Hy Hm Hlt.
  unfold first_of_next_month, _ymd2ord, _MAXORDINAL, _days_before_month,
    _days_before_year.
  cbv zeta.
  pose proof (Z.div_mod (y - 1) 4). pose proof (Z.mod_pos_bound (y - 1) 4).
  pose proof (Z.div_mod (y - 1) 100). pose proof (Z.mod_pos_bound (y - 1) 100).
  pose proof (Z.div_mod (y - 1) 400). pose proof (Z.mod_pos_bound (y - 1) 400).
  pose proof (Z.div_mod (y + 1 - 1) 4).
  pose proof (Z.mod_pos_bound (y + 1 - 1) 4).
  pose proof (Z.div_mod (y + 1 - 1) 100).
  pose proof (Z.mod_pos_bound (y + 1 - 1) 100).
  pose proof (Z.div_mod (y + 1 - 1) 400).
  pose proof (Z.mod_pos_bound (y + 1 - 1) 400).
  each_month m Hm;
    [destruct (_is_leap y) .. | destruct (_is_leap (y + 1))];
    eval_closed; lia.
Qed.

End DatetimeFacts.

Section LastDay.
Import Datetime.

Lemma valid_ymd_spec y m d :
  valid_ymd y m d = true <->
  1 <= y <= 9999 /\ 1 <= m <= 12 /\ 1 <= d <= _days_in_month y m.
Proof. unfold valid_ymd, MINYEAR, MAXYEAR. rewrite !andb_true_iff. lia. Qed.

Lemma fits_int_spec n : fits_int n = true <-> INT_MIN <= n <= INT_MAX.
Proof. unfold fits_int. rewrite andb_true_iff, !Z.leb_le. done. Qed.

Lemma valid_ymd_fits y m d :
  valid_ymd y m d = true ->
  fits_int y && fits_int m && fits_int d = true.
Proof.
  intros Hv. apply valid_ymd_spec in Hv as (Hy & Hm & Hd).
  pose proof (_days_in_month_bounds y m Hm).
  rewrite !andb_true_iff, !fits_int_spec. unfold INT_MIN, INT_MAX. lia.
Qed.

(** The constructor returns the date when its fields are valid, and
    raises otherwise: [OverflowError] when an argument does not fit a C
    [int], [ValueError] when all do. *)
Lemma new_spec y m d :
  new y m d = if valid_ymd y m d then Ok (Date y m d)
              else if fits_int y && fits_int m && fits_int d
                   then Raise ValueError else Raise OverflowError.
Proof.
  unfold new.
  destruct (fits_int y && fits_int m && fits_int d) eqn:Hf; cbn [negb].
  - unfold valid_ymd.
    destruct (MINYEAR <=? y), (y <=? MAXYEAR), (1 <=? m), (m <=? 12),
      (1 <=? d), (d <=? _days_in_month y m); reflexivity.
  - destruct (valid_ymd y m d) eqn:Hv; [|done].
    apply valid_ymd_fits in Hv. congruence.
Qed.

Lemma new_first_of_month y m :
  1 <= y <= 9999 -> 1 <= m <= 12 -> new y m 1 = Ok (Date y m 1).
Proof.
  intros Hy Hm. rewrite new_spec.
  pose proof (_days_in_month_bounds y m Hm).
  replace (valid_ymd y m 1) with true; [done|].
  symmetry. apply valid_ymd_spec. lia.
Qed.

Lemma new_last_of_month y m :
  1 <= y <= 9999 -> 1 <= m <= 12 ->
  new y m (_days_in_month y m) = Ok (Date y m (_days_in_month y m)).
Proof.
  intros Hy Hm. rewrite new_spec.
  pose proof (_days_in_month_bounds y m Hm).
  replace (valid_ymd y m (_days_in_month y m)) with true; [done|].
  symmetry. apply valid_ymd_spec. lia.
Qed.

(** Stepping one day back from the first of the following month. *)
Lemma day_before_next_month y m y' m' :
  1 <= y <= 9999 -> 1 <= m <= 12 -> y < 9999 \/ m < 12 ->
  first_of_next_month y m = _ymd2ord y' m' 1 ->
  sub_days (Date y' m' 1) 1 = Ok (Date y m (_days_in_month y m)).
Proof.
  intros Hy Hm Hlt Hord.
  unfold sub_days, add_days, toordinal. cbn [year month day].
  rewrite <- Hord.
  pose proof (first_of_next_month_bounds y m Hy Hm Hlt) as Hb.
  replace (first_of_next_month y m + - (1)) with (first_of_next_month y m - 1)
    by lia.
  replace ((0 <? first_of_next_month y m - 1)
           && (first_of_next_month y m - 1 <=? _MAXORDINAL)) with true
    by (symmetry; apply andb_true_iff; lia).
  unfold fromordinal. rewrite month_end by done.
  by apply new_last_of_month.
Qed.

Lemma last_day_of_month_value d k :
  let '(y, m) := months_after d k in
  1 <= y <= 9999 -> y < 9999 \/ m < 12 ->
  _last_day_of_month d k = Ok (Date y m (_days_in_month y m)).
Proof.
  unfold months_after, _last_day_of_month. cbv zeta.
  replace (12 * year d + (month d - 1) + k)
    with (month d + k - 1 + year d * 12) by lia.
  rewrite Z_div_plus_full, Z_mod_plus_full by done.
  replace ((month d + k - 1) / 12 + year d)
    with (year d + (month d + k - 1) / 12) by lia.
  set (y := year d + (month d + k - 1) / 12).
  set (m := (month d + k - 1) mod 12 + 1).
  intros Hy Hlt.
  assert (1 <= m <= 12) as Hm.
  { unfold m. pose proof (Z.mod_pos_bound (month d + k - 1) 12). lia. }
  destruct (m =? 12) eqn:E.
  - apply Z.eqb_eq in E.
    rewrite new_first_of_month by lia. simpl.
    apply day_before_next_month; try done.
    unfold first_of_next_month. by rewrite E.
  - apply Z.eqb_neq in E.
    rewrite new_first_of_month by lia. simpl.
    apply day_before_next_month; try done.
    unfold first_of_next_month.
    by replace (m =? 12) with false by (symmetry; by apply Z.eqb_neq).
Qed.

Lemma is_last_day_of_intro y m :
  1 <= y <= 9999 -> 1 <= m <= 12 ->
  is_last_day_of y m (Date y m (_days_in_month y m)).
Proof.
  intros Hy Hm. pose proof (_days_in_month_bounds y m Hm).
  repeat split; cbn [year month day].
  - unfold valid. cbn [year month day]. apply valid_ymd_spec. lia.
  - intros d' Hd'. apply valid_ymd_spec in Hd'. lia.
Qed.

Lemma months_after_range d k :
  valid d = true -> 0 <= k ->
  1 <= fst (months_after d k) /\ 1 <= snd (months_after d k) <= 12.
Proof.
  intros Hv Hk. apply valid_ymd_spec in Hv as (Hy & Hm & _).
  unfold months_after. cbn [fst snd].
  pose proof (Z.mod_pos_bound (12 * year d + (month d - 1) + k) 12).
  pose proof (Z.div_mod (12 * year d + (month d - 1) + k) 12).
  lia.
Qed.

(** No year makes an impossible day and month valid. *)
Lemma impossible_day_month_spec dd mm :
  impossible_day_month dd mm = true -> forall y, valid_ymd y mm dd = false.
Proof.
  unfold impossible_day_month. intros H y.
  apply negb_true_iff in H. apply not_true_is_false. intros Hv.
  apply valid_ymd_spec in Hv as (Hy & Hm & Hd).
  assert (valid_ymd 2000 mm dd = true) as Hv'; [|congruence].
  apply valid_ymd_spec. split; [lia|]. split; [done|].
  revert Hd. unfold _days_in_month. change (_is_leap 2000) with true.
  each_month mm Hm; destruct (_is_leap y); eval_closed; lia.
Qed.

End LastDay.

(** C6, as the code has it. For a date [d] and [k >= 0] months ahead,
    [_last_day_of_month] returns the last calendar day of the month that
    lies [k] months after the month of [d], the year being carried by
    month arithmetic, provided the first day of the month after that one is
    still a date, that is, the target month is earlier than December
    9999. *)
Theorem last_day_of_month_correct d k :
  Datetime.valid d = true -> 0 <= k ->
  fst (months_after d k) < 9999 \/
    (fst (months_after d k) = 9999 /\ snd (months_after d k) < 12) ->
  exists r,
    _last_day_of_month d k = Ok r /\
    is_last_day_of (fst (months_after d k)) (snd (months_after d k)) r.
Proof.
  intros Hv Hk Hlt.
  pose proof (months_after_range d k Hv Hk) as [Hy Hm].
  pose proof (last_day_of_month_value d k) as H.
  destruct (months_after d k) as [y m]. cbn [fst snd] in *.
  eexists. split.
  - apply H; lia.
  - apply is_last_day_of_intro; lia.
Qed.

(** The scenario of the specification: two months ahead of 2025-02-01 the
    horizon is 2025-04-30. *)
Lemma last_day_of_month_correct_witness :
  exists r,
    _last_day_of_month (Datetime.Date 2025 2 1) 2 = Ok r /\
    is_last_day_of 2025 4 r /\ r = Datetime.Date 2025 4 30.
Proof.
  destruct (last_day_of_month_correct (Datetime.Date 2025 2 1) 2)
    as (r & Hr & Hlast).
  - reflexivity.
  - lia.
  - left. vm_compute. reflexivity.
  - exists r. split; [exact Hr|]. split; [exact Hlast|].
    assert (_last_day_of_month (Datetime.Date 2025 2 1) 2
            = Ok (Datetime.Date 2025 4 30)) as E by (vm_compute; reflexivity).
    rewrite E in Hr. by injection Hr.
Defined.

(** C6 as stated fails when the target month has no representable
    successor: seven months after June 9999 is January 10000, and the
    constructor [date] refuses the year. *)
Lemma last_day_of_month_out_of_range :
  Datetime.valid (Datetime.Date 9999 6 15) = true /\
  months_after (Datetime.Date 9999 6 15) 7 = (10000, 1) /\
  _last_day_of_month (Datetime.Date 9999 6 15) 7 = Raise ValueError.
Proof. split; [|split]; vm_compute; reflexivity. Qed.

Lemma months_after_month d k : 1 <= snd (months_after d k) <= 12.
Proof.
  unfold months_after. cbn [snd].
  pose proof (Z.mod_pos_bound (12 * Datetime.year d + (Datetime.month d - 1) + k) 12).
  lia.
Qed.

Lemma last_day_of_month_target d k :
  _last_day_of_month d k =
  let y := fst (months_after d k) in
  let m := snd (months_after d k) in
  if m =? 12 then
    first ← Datetime.new (y + 1) 1 1; Datetime.sub_days first 1
  else
    first ← Datetime.new y (m + 1) 1; Datetime.sub_days first 1.
Proof.
  unfold months_after, _last_day_of_month. cbn [fst snd]. cbv zeta.
  replace (12 * Datetime.year d + (Datetime.month d - 1) + k)
    with (Datetime.month d + k - 1 + Datetime.year d * 12) by lia.
  rewrite Z_div_plus_full, Z_mod_plus_full by done.
  by replace ((Datetime.month d + k - 1) / 12 + Datetime.year d)
    with (Datetime.year d + (Datetime.month d + k - 1) / 12) by lia.
Qed.

Lemma new_out_of_range y m d :
  ~ 1 <= y <= 9999 ->
  Datetime.fits_int m = true -> Datetime.fits_int d = true ->
  Datetime.new y m d = if Datetime.fits_int y then Raise ValueError
                       else Raise OverflowError.
Proof.
  intros Hy Hm Hd. rewrite new_spec, Hm, Hd, !andb_true_r.
  destruct (Datetime.valid_ymd y m d) eqn:E; [|done].
  apply valid_ymd_spec in E. lia.
Qed.

(** The ways [_last_day_of_month] can end, by target month. *)
Lemma last_day_of_month_split d k :
  let y := fst (months_after d k) in
  let m := snd (months_after d k) in
  (1 <= y <= 9999 /\ (y < 9999 \/ m < 12) /\
   _last_day_of_month d k = Ok (Datetime.Date y m (Datetime._days_in_month y m)))
  \/ (~ (1 <= y <= 9999 /\ (y < 9999 \/ m < 12)) /\
      _last_day_of_month d k
      = if (y =? 0) && (m =? 12) then Raise OverflowError
        else if Datetime.fits_int (if m =? 12 then y + 1 else y)
             then Raise ValueError
             else Raise OverflowError).
Proof.
  pose proof (months_after_month d k) as Hm.
  pose proof (last_day_of_month_value d k) as Hok.
  pose proof (last_day_of_month_target d k) as Ht. cbv zeta in Ht |- *.
  destruct (months_after d k) as [y m]. cbn [fst snd] in *.
  destruct (decide (1 <= y <= 9999 /\ (y < 9999 \/ m < 12))) as [Hin|Hout].
  { left. destruct Hin as [Hy Hlt]. by auto. }
  right. split; [done|]. rewrite Ht. clear Ht Hok.
  destruct (m =? 12) eqn:E12.
  - apply Z.eqb_eq in E12. subst m. rewrite andb_true_r.
    destruct (y =? 0) eqn:E0.
    { apply Z.eqb_eq in E0. subst y. vm_compute. reflexivity. }
    apply Z.eqb_neq in E0.
    rewrite new_out_of_range by (done || lia).
    by destruct (Datetime.fits_int (y + 1)).
  - apply Z.eqb_neq in E12. rewrite andb_false_r.
    rewrite new_out_of_range;
      [by destruct (Datetime.fits_int y) | lia | | done].
    apply fits_int_spec. unfold Datetime.INT_MIN, Datetime.INT_MAX. lia.
Qed.

Lemma last_day_of_month_ok d k r :
  _last_day_of_month d k = Ok r ->
  r = Datetime.Date (fst (months_after d k)) (snd (months_after d k))
        (Datetime._days_in_month (fst (months_after d k))
           (snd (months_after d k))).
Proof.
  pose proof (last_day_of_month_split d k) as H. cbv zeta in H.
  destruct H as [(_ & _ & ->)|(_ & ->)]; [by intros [= <-]|].
  destruct (_ && _); [done|]. by destruct (Datetime.fits_int _).
Qed.

(** A horizon that [_last_day_of_month] returns is at most 9999-11-30. *)
Lemma last_day_of_month_bound d k r :
  _last_day_of_month d k = Ok r ->
  1 <= Datetime.year r <= 9999 /\
  (Datetime.year r < 9999 \/ Datetime.month r < 12).
Proof.
  pose proof (last_day_of_month_split d k) as H. cbv zeta in H.
  destruct H as [(Hy & Hlt & ->)|(_ & ->)]; [by intros [= <-]|].
  destruct (_ && _); [done|]. by destruct (Datetime.fits_int _).
Qed.

(** Whatever [_last_day_of_month] returns is the last day of the target
    month. *)
Lemma last_day_of_month_is_last d k r :
  _last_day_of_month d k = Ok r ->
  is_last_day_of (fst (months_after d k)) (snd (months_after d k)) r.
Proof.
  intros Hr. pose proof (last_day_of_month_bound d k r Hr) as [Hy _].
  pose proof (months_after_month d k) as Hm.
  apply last_day_of_month_ok in Hr. subst r.
  cbn [Datetime.year] in Hy. by apply is_last_day_of_intro.
Qed.

(** ** The scanning loop *)

Section Scan.

Variable casefold : pystr -> pystr.
Variable urljoin : pystr -> pystr -> result pystr.
Variable self : KrogocoIcs.
Variables today horizon : Datetime.date.

Local Abbreviation step := (body casefold urljoin self today horizon).
Local Abbreviation loop := (scan casefold urljoin self today horizon).

Lemma scan_app : forall pre post s,
  loop s (pre ++ post) =
  match loop s pre with
  | Next s' => loop s' post
  | Break s' => Break s'
  | Abort e => Abort e
  end.
Proof.
  induction pre as [|h pre IH]; intros post s; simpl; [done|].
  destruct (step s h); auto.
Qed.

(** A property of the processed prefix and the state that every iteration
    keeps holds when the loop ends. *)
Lemma scan_invariant (I : list h3 -> locals -> Prop) :
  (forall pre s h s', I pre s -> returns (step s h) s' -> I (pre ++ [h]) s') ->
  forall h3s pre s s',
    I pre s -> returns (loop s h3s) s' ->
    exists seen_nodes rest_nodes,
      h3s = seen_nodes ++ rest_nodes /\ I (pre ++ seen_nodes) s'.
Proof.
  intros Hstep. induction h3s as [|h tl IH]; intros pre s s' HI Hret.
  - destruct Hret as [[= <-]|[=]]. exists [], [].
    split; [done|]. by rewrite app_nil_r.
  - simpl in Hret. destruct (step s h) as [s1|s1|e] eqn:Hb.
    + assert (I (pre ++ [h]) s1) as HI1 by (apply (Hstep pre s); [done|by left]).
      destruct (IH _ _ _ HI1 Hret) as (sn & rn & -> & HI').
      exists (h :: sn), rn. split; [done|].
      by rewrite <- app_assoc in HI'.
    + destruct Hret as [[=]|[= <-]].
      exists [h], tl. split; [done|].
      apply (Hstep pre s); [done|by right].
    + by destruct Hret.
Qed.

(** What an iteration that does not raise does to the event list. *)
Lemma body_returns s h s' :
  returns (step s h) s' ->
  (events s' = events s /\ seen s' = seen s) \/
  (exists a cd u st en ad,
     find_a h = Some a /\ current_date s = Some cd /\
     Datetime.ltb cd today = false /\ Datetime.ltb horizon cd = false /\
     resolve urljoin (href a) = Ok u /\
     ((cd, a_text a, u) ∉ seen s) /\
     _parse_time_range (a_text a) = Ok (st, en, ad) /\
     events s' =
       events s ++ [ {| date := cd; title := a_text a; url := u;
                        all_day := ad; start_time := st; end_time := en |} ] /\
     seen s' = {[ (cd, a_text a, u) ]} ∪ seen s).
Proof.
  unfold body.
  destruct (search DATE_LINE (get_text h)) as [m|].
  { unfold date_line.
    destruct (py_int (group m 1)) as [dd|]; [|by intros [|]].
    destruct (py_int (group m 2)) as [mm|]; [|by intros [|]].
    destruct (Datetime.new _ mm dd); [|by intros [|]].
    intros [[= <-]|[=]]. by left. }
  destruct (find_a h) as [a|]; [|intros [[= <-]|[=]]; by left].
  destruct (current_date s) as [cd|]; [|intros [[= <-]|[=]]; by left].
  unfold event_line.
  destruct (Datetime.ltb cd today) eqn:Hpast; [intros [[= <-]|[=]]; by left|].
  destruct (Datetime.ltb horizon cd) eqn:Hfar; [intros [[=]|[= <-]]; by left|].
  destruct (existsb _ (blacklist self)); [intros [[= <-]|[=]]; by left|].
  fold (resolve urljoin (href a)).
  destruct (resolve urljoin (href a)) as [u|] eqn:Hu; [|by intros [|]].
  destruct (decide _) as [Hin|Hnew]; [intros [[= <-]|[=]]; by left|].
  destruct (_parse_time_range (a_text a)) as [[[st en] ad]|] eqn:Hp;
    [|by intros [|]].
  intros [[= <-]|[=]]. right. exists a, cd, u, st, en, ad. by repeat split.
Qed.

(** Where every event of the list comes from. *)
Lemma scan_events_origin h3s s' :
  returns (loop (initial today) h3s) s' ->
  forall e, e ∈ events s' ->
    exists h a,
      h ∈ h3s /\ find_a h = Some a /\ title e = a_text a /\
      resolve urljoin (href a) = Ok (url e) /\
      Datetime.ltb (date e) today = false /\
      Datetime.ltb horizon (date e) = false /\
      _parse_time_range (title e) = Ok (start_time e, end_time e, all_day e).
Proof.
  intros Hret.
  set (I := fun (pre : list h3) (s : locals) =>
    forall e, e ∈ events s ->
      exists h a,
        h ∈ pre /\ find_a h = Some a /\ title e = a_text a /\
        resolve urljoin (href a) = Ok (url e) /\
        Datetime.ltb (date e) today = false /\
        Datetime.ltb horizon (date e) = false /\
        _parse_time_range (title e) = Ok (start_time e, end_time e, all_day e)).
  assert (forall pre s h s1, I pre s -> returns (step s h) s1 ->
                             I (pre ++ [h]) s1) as Hstep.
  { intros pre s h s1 HI Hb e He.
    apply body_returns in Hb as [[Hev _]|Hnew].
    - rewrite Hev in He. destruct (HI e He) as (h0 & a & Hin & Hrest).
      exists h0, a. split; [|done]. apply elem_of_app. by left.
    - destruct Hnew as (a & cd & u & st & en & ad & Ha & _ & Hpast & Hfar
                        & Hu & _ & Hp & Hev & _).
      rewrite Hev in He. apply elem_of_app in He as [He|He].
      + destruct (HI e He) as (h0 & a0 & Hin & Hrest).
        exists h0, a0. split; [|done]. apply elem_of_app. by left.
      + apply list_elem_of_singleton in He as ->. simpl.
        exists h, a. split; [|done].
        apply elem_of_app. right. by apply list_elem_of_singleton. }
  assert (I [] (initial today)) as Hinit.
  { intros e He. by apply elem_of_nil in He. }
  destruct (scan_invariant I Hstep h3s [] (initial today) s' Hinit Hret)
    as (sn & rn & -> & HI).
  intros e He. destruct (HI e He) as (h & a & Hin & Hrest).
  exists h, a. split; [|done]. apply elem_of_app. by left.
Qed.

(** The list holds one event per remembered key. *)
Lemma scan_events_nodup h3s s' :
  returns (loop (initial today) h3s) s' ->
  NoDup (key_of <$> events s').
Proof.
  intros Hret.
  set (I := fun (_ : list h3) (s : locals) =>
    NoDup (key_of <$> events s)
    /\ forall e, e ∈ events s -> key_of e ∈ seen s).
  assert (forall pre s h s1, I pre s -> returns (step s h) s1 ->
                             I (pre ++ [h]) s1) as Hstep.
  { intros pre s h s1 [Hnd Hseen] Hb.
    apply body_returns in Hb as [[Hev Hs]|Hnew].
    - unfold I. by rewrite Hev, Hs.
    - destruct Hnew as (a & cd & u & st & en & ad & _ & _ & _ & _
                        & _ & Hfresh & _ & Hev & Hs).
      unfold I. rewrite Hev, Hs, fmap_app. split.
      + apply NoDup_app. split; [done|]. split; [|apply NoDup_singleton].
        intros k Hk Hk'. apply list_elem_of_singleton in Hk' as ->.
        apply list_elem_of_fmap in Hk as (e & He & Hin).
        apply Hseen in Hin. by rewrite <- He in Hin.
      + intros e He. apply elem_of_app in He as [He|He].
        * apply elem_of_union. right. by apply Hseen.
        * apply list_elem_of_singleton in He as ->.
          apply elem_of_union. left. by apply elem_of_singleton. }
  assert (I [] (initial today)) as Hinit.
  { split; [constructor|]. intros e He. by apply elem_of_nil in He. }
  by destruct (scan_invariant I Hstep h3s [] (initial today) s' Hinit Hret)
    as (sn & rn & _ & HI & _).
Qed.

(** The remembered keys are the keys of the events listed so far. *)
Lemma scan_seen_keys h3s s' :
  returns (loop (initial today) h3s) s' ->
  forall k, k ∈ seen s' <-> k ∈ key_of <$> events s'.
Proof.
  intros Hret.
  set (I := fun (_ : list h3) (s : locals) =>
    forall k, k ∈ seen s <-> k ∈ key_of <$> events s).
  assert (forall pre s h s1, I pre s -> returns (step s h) s1 ->
                             I (pre ++ [h]) s1) as Hstep.
  { intros pre s h s1 HI Hb k.
    apply body_returns in Hb as [[Hev Hs]|Hnew].
    - rewrite Hev, Hs. apply HI.
    - destruct Hnew as (a & cd & u & st & en & ad & _ & _ & _ & _
                        & _ & _ & _ & Hev & Hs).
      rewrite Hev, Hs, fmap_app, elem_of_union, elem_of_app, elem_of_singleton.
      simpl. rewrite list_elem_of_singleton. unfold key_of at 2. simpl.
      specialize (HI k). tauto. }
  assert (I [] (initial today)) as Hinit.
  { intros k. simpl. rewrite elem_of_nil. set_solver. }
  by destruct (scan_invariant I Hstep h3s [] (initial today) s' Hinit Hret)
    as (sn & rn & _ & HI).
Qed.

(** Events are only ever appended. *)
Lemma scan_events_grow h3s s s' :
  returns (loop s h3s) s' -> forall e, e ∈ events s -> e ∈ events s'.
Proof.
  intros Hret.
  set (I := fun (_ : list h3) (s1 : locals) =>
    forall e, e ∈ events s -> e ∈ events s1).
  assert (forall pre s0 h s1, I pre s0 -> returns (step s0 h) s1 ->
                              I (pre ++ [h]) s1) as Hstep.
  { intros pre s0 h s1 HI Hb e He.
    apply body_returns in Hb as [[Hev _]|Hnew].
    - rewrite Hev. by apply HI.
    - destruct Hnew as (a & cd & u & st & en & ad & _ & _ & _ & _
                        & _ & _ & _ & Hev & _).
      rewrite Hev. apply elem_of_app. left. by apply HI. }
  assert (I [] s) as Hinit by (by intros e He).
  by destruct (scan_invariant I Hstep h3s [] s s' Hinit Hret)
    as (sn & rn & _ & HI).
Qed.

(** An event line that is in the window, not blacklisted and whose url
    resolves leaves its key among the keys of the events, provided every
    remembered key is. *)
Lemma body_event_line s h s' a cd u :
  returns (step s h) s' ->
  (forall k, k ∈ seen s -> k ∈ key_of <$> events s) ->
  search DATE_LINE (get_text h) = None ->
  find_a h = Some a ->
  current_date s = Some cd ->
  Datetime.ltb cd today = false ->
  Datetime.ltb horizon cd = false ->
  existsb (fun b => contains (casefold (a_text a)) b) (blacklist self) = false ->
  resolve urljoin (href a) = Ok u ->
  (cd, a_text a, u) ∈ key_of <$> events s'.
Proof.
  intros Hret Hseen Hno Ha Hcd Hpast Hfar Hbl Hu. revert Hret.
  unfold body. rewrite Hno, Ha, Hcd. unfold event_line.
  rewrite Hpast, Hfar, Hbl. fold (resolve urljoin (href a)). rewrite Hu.
  destruct (decide _) as [Hin|Hnew].
  - intros [[= <-]|[=]]. by apply Hseen.
  - destruct (_parse_time_range (a_text a)) as [[[st en] ad]|];
      [|by intros [|]].
    intros [[= <-]|[=]]. simpl. rewrite fmap_app. apply elem_of_app. right.
    by apply list_elem_of_singleton.
Qed.

(** What an iteration that does not raise does to the date context. *)
Lemma body_context s h s' :
  returns (step s h) s' ->
  match date_month h with
  | Some mm =>
      inferred_year s' = inferred_year s + rollover (prev_month s) mm /\
      prev_month s' = Some mm /\
      events s' = events s /\
      exists cd, current_date s' = Some cd /\
                 Datetime.year cd = inferred_year s' /\
                 Datetime.month cd = mm
  | None =>
      inferred_year s' = inferred_year s /\
      prev_month s' = prev_month s /\
      current_date s' = current_date s
  end.
Proof.
  intros Hret. pose proof (body_returns s h s' Hret) as Hev.
  revert Hret. unfold body, date_month.
  destruct (search DATE_LINE (get_text h)) as [m|].
  { unfold date_line.
    destruct (py_int (group m 2)) as [mm|];
      [|destruct (py_int (group m 1)); by intros [|]].
    destruct (py_int (group m 1)) as [dd|]; [|by intros [|]].
    rewrite new_spec.
    destruct (Datetime.valid_ymd _ mm dd);
      [|destruct (_ && _); by intros [|]].
    intros [[= <-]|[=]]. simpl. unfold rollover.
    destruct (prev_month s) as [pm|]; [destruct (mm <? pm)|];
      (split; [lia|]); repeat (split; [done|]); by eexists. }
  destruct (find_a h) as [a|]; [|by intros [[= <-]|[=]]].
  destruct (current_date s) as [cd|] eqn:Hcd; [|by intros [[= <-]|[=]]].
  unfold event_line.
  destruct (Datetime.ltb cd today); [by intros [[= <-]|[=]]|].
  destruct (Datetime.ltb horizon cd); [by intros [[=]|[= <-]]|].
  destruct (existsb _ (blacklist self)); [by intros [[= <-]|[=]]|].
  destruct (if startswith _ _ then _ else _) as [u|]; [|by intros [|]].
  destruct (decide _); [by intros [[= <-]|[=]]|].
  destruct (_parse_time_range (a_text a)) as [[[st en] ad]|]; [|by intros [|]].
  by intros [[= <-]|[=]].
Qed.

End Scan.

(** ** Year rollover *)

Lemma descents_snoc ms : forall pm mm,
  descents pm (ms ++ [mm]) = descents pm ms + rollover (last_month pm ms) mm.
Proof.
  induction ms as [|m ms IH]; intros pm mm; simpl; [lia|].
  rewrite IH. lia.
Qed.

Lemma last_month_snoc ms : forall pm mm,
  last_month pm (ms ++ [mm]) = Some mm.
Proof. induction ms as [|m ms IH]; intros pm mm; simpl; auto. Qed.

Lemma date_months_snoc pre h :
  date_months (pre ++ [h]) =
  date_months pre ++ match date_month h with Some mm => [mm] | None => [] end.
Proof.
  unfold date_months. rewrite omap_app. simpl.
  by destruct (date_month h).
Qed.

(** Every event comes from a link node, and its year is the year of
    [today] plus the number of descents among the months of the date lines
    before that node; its month is the month of the last of them. *)
Lemma scan_event_years casefold urljoin self today horizon h3s s' :
  returns (scan casefold urljoin self today horizon (initial today) h3s) s' ->
  forall e, e ∈ events s' ->
    exists pre h post a,
      h3s = pre ++ h :: post /\
      find_a h = Some a /\ title e = a_text a /\
      last_month None (date_months pre) = Some (Datetime.month (date e)) /\
      Datetime.year (date e)
        = Datetime.year today + descents None (date_months pre).
Proof.
  intros Hret.
  set (Y := Datetime.year today).
  set (I := fun (pre : list h3) (s : locals) =>
    inferred_year s = Y + descents None (date_months pre) /\
    prev_month s = last_month None (date_months pre) /\
    (forall cd, current_date s = Some cd ->
       Datetime.year cd = inferred_year s /\
       Some (Datetime.month cd) = prev_month s) /\
    (forall e, e ∈ events s ->
       exists pre1 h pre2 a,
         pre = pre1 ++ h :: pre2 /\
         find_a h = Some a /\ title e = a_text a /\
         last_month None (date_months pre1) = Some (Datetime.month (date e)) /\
         Datetime.year (date e) = Y + descents None (date_months pre1))).
  assert (forall pre s e (h : h3),
            (forall e, e ∈ events s ->
               exists pre1 h pre2 a,
                 pre = pre1 ++ h :: pre2 /\
                 find_a h = Some a /\ title e = a_text a /\
                 last_month None (date_months pre1)
                   = Some (Datetime.month (date e)) /\
                 Datetime.year (date e) = Y + descents None (date_months pre1)) ->
            e ∈ events s ->
            exists pre1 h0 pre2 a,
              pre ++ [h] = pre1 ++ h0 :: pre2 /\
              find_a h0 = Some a /\ title e = a_text a /\
              last_month None (date_months pre1)
                = Some (Datetime.month (date e)) /\
              Datetime.year (date e) = Y + descents None (date_months pre1))
    as Hold.
  { intros pre s e h Hev He.
    destruct (Hev e He) as (p1 & h0 & p2 & a & -> & Hrest).
    exists p1, h0, (p2 ++ [h]), a. split; [|done].
    by rewrite <- app_assoc. }
  assert (forall pre s h s1,
            I pre s ->
            returns (body casefold urljoin self today horizon s h) s1 ->
            I (pre ++ [h]) s1) as Hstep.
  { intros pre s h s1 (Hy & Hpm & Hcd & Hev) Hb.
    pose proof (body_context _ _ _ _ _ _ _ _ Hb) as Hctx.
    pose proof (body_returns _ _ _ _ _ _ _ _ Hb) as Hret1.
    unfold I. rewrite date_months_snoc.
    destruct (date_month h) as [mm|].
    - destruct Hctx as (Hy1 & Hpm1 & Hev1 & cd & Hcd1 & Hcy & Hcm).
      rewrite descents_snoc, last_month_snoc, <- Hpm.
      split; [lia|]. split; [done|]. split.
      + intros cd' Hcd'. rewrite Hcd1 in Hcd'. injection Hcd' as <-.
        by rewrite Hpm1, Hcm.
      + intros e He. rewrite Hev1 in He. by apply (Hold pre s).
    - destruct Hctx as (Hy1 & Hpm1 & Hcd1). rewrite app_nil_r.
      split; [lia|]. split; [congruence|]. split.
      + intros cd Hcd'. rewrite Hcd1 in Hcd'. rewrite Hy1, Hpm1. by apply Hcd.
      + intros e He. destruct Hret1 as [[Hsame _]|Hnew].
        * rewrite Hsame in He. by apply (Hold pre s).
        * destruct Hnew as (a & cd & u & st & en & ad & Ha & Hc & _ & _ & _
                            & _ & _ & Hadd & _).
          rewrite Hadd in He. apply elem_of_app in He as [He|He].
          -- by apply (Hold pre s).
          -- apply list_elem_of_singleton in He as ->. simpl.
             destruct (Hcd cd Hc) as [Hcy Hcm].
             exists pre, h, [], a. repeat (split; [done|]).
             split; [congruence|lia]. }
  assert (I [] (initial today)) as Hinit.
  { unfold I. simpl. split; [lia|]. split; [done|]. split; [done|].
    intros e He. by apply elem_of_nil in He. }
  destruct (scan_invariant _ _ _ _ _ I Hstep h3s [] (initial today) s'
              Hinit Hret) as (sn & rn & -> & _ & _ & _ & HI).
  intros e He. destruct (HI e He) as (p1 & h & p2 & a & Hsplit & Hrest).
  simpl in Hsplit. subst sn. exists p1, h, (p2 ++ rn), a.
  split; [|done]. by rewrite <- app_assoc.
Qed.

(** ** [scrape_events] *)

Lemma scrape_events_returns casefold urljoin self today h3s evs :
  scrape_events casefold urljoin self today h3s = Ok evs ->
  exists horizon s',
    _last_day_of_month today (months self) = Ok horizon /\
    returns (scan casefold urljoin self today horizon (initial today) h3s) s' /\
    evs = events s'.
Proof.
  unfold scrape_events.
  destruct (_last_day_of_month today (months self)) as [horizon|]; [|done].
  simpl.
  destruct (scan _ _ _ _ _ _ _) as [s'|s'|e] eqn:Hs; intros [= <-].
  - exists horizon, s'. split; [done|]. split; [by left|done].
  - exists horizon, s'. split; [done|]. split; [by right|done].
Qed.

Lemma ltb_false_date_le a b : Datetime.ltb b a = false -> date_le a b.
Proof.
  unfold Datetime.ltb, date_le. intros H.
  apply orb_false_elim in H as [H1 H2]. apply Z.ltb_ge in H1.
  destruct (Datetime.year b =? Datetime.year a) eqn:Ey.
  - apply Z.eqb_eq in Ey. simpl in H2.
    apply orb_false_elim in H2 as [H2 H3]. apply Z.ltb_ge in H2.
    destruct (Datetime.month b =? Datetime.month a) eqn:Em.
    + apply Z.eqb_eq in Em. simpl in H3. apply Z.ltb_ge in H3. lia.
    + apply Z.eqb_neq in Em. lia.
  - apply Z.eqb_neq in Ey. lia.
Qed.

Lemma sample_scrape :
  scrape_events casefold_id urljoin_concat sample_scraper sample_today
    sample_page = Ok sample_events.
Proof. vm_compute. reflexivity. Qed.

(** C1. [_parse_time_range] always returns, and it returns
    [all_day = true] exactly when both times are [None]; when
    [all_day = false] the start time is present. Every event returned by
    [scrape_events] carries the three values the parser gave for its
    title, so [all_day] is true on it exactly when both its times are
    absent. *)
Theorem all_day_iff_no_times :
  (forall text,
     exists st en ad,
       _parse_time_range text = Ok (st, en, ad) /\
       (ad = true <-> st = None /\ en = None) /\
       (ad = false -> is_Some st)) /\
  (forall casefold urljoin self today h3s evs e,
     scrape_events casefold urljoin self today h3s = Ok evs ->
     e ∈ evs ->
     (all_day e = true <-> start_time e = None /\ end_time e = None) /\
     (all_day e = false -> is_Some (start_time e))).
Proof.
  split.
  - intros text.
    destruct (_parse_time_range_total text) as (st & en & ad & H).
    exists st, en, ad. split; [done|].
    by apply (_parse_time_range_all_day text).
  - intros casefold urljoin self today h3s evs e Hs He.
    apply scrape_events_returns in Hs as (horizon & s' & _ & Hret & ->).
    destruct (scan_events_origin _ _ _ _ _ _ _ Hret e He)
      as (h & a & _ & _ & _ & _ & _ & _ & Hp).
    by apply (_parse_time_range_all_day (title e)).
Qed.

Lemma all_day_iff_no_times_witness :
  let e := {| date := Datetime.Date 2025 2 6;
              title := py "Fredagslunch Kl.12-17";
              url := py "https://krogoco.se/jonkoping/event/lunch/";
              all_day := false;
              start_time := Some (py "12:00");
              end_time := Some (py "17:00") |} in
  (all_day e = true <-> start_time e = None /\ end_time e = None) /\
  (all_day e = false -> is_Some (start_time e)).
Proof.
  intros e.
  apply (proj2 all_day_iff_no_times casefold_id urljoin_concat
           sample_scraper sample_today sample_page sample_events e).
  - vm_compute. reflexivity.
  - unfold sample_events, e. apply elem_of_cons. right.
    apply elem_of_cons. right. apply elem_of_cons. by left.
Defined.

(** C2. Every event in the list returned by [scrape_events] has a date
    that is not before [today] and not after the horizon, and the horizon
    is the last day of the month that lies [months] months after the month
    of [today]. *)
Theorem events_within_window casefold urljoin self today h3s evs e :
  scrape_events casefold urljoin self today h3s = Ok evs ->
  e ∈ evs ->
  exists horizon,
    _last_day_of_month today (months self) = Ok horizon /\
    is_last_day_of (fst (months_after today (months self)))
      (snd (months_after today (months self))) horizon /\
    date_le today (date e) /\ date_le (date e) horizon.
Proof.
  intros Hs He.
  apply scrape_events_returns in Hs as (horizon & s' & Hh & Hret & ->).
  destruct (scan_events_origin _ _ _ _ _ _ _ Hret e He)
    as (h & a & _ & _ & _ & _ & Hpast & Hfar & _).
  exists horizon. split; [done|].
  split; [by apply last_day_of_month_is_last|].
  split; by apply ltb_false_date_le.
Qed.

Lemma events_within_window_witness :
  let e := {| date := Datetime.Date 2025 2 5;
              title := py "HV71 – Skellefteå AIK";
              url := py "https://krogoco.se/jonkoping/event/hv71-skelleftea-aik/";
              all_day := true; start_time := None; end_time := None |} in
  months_after sample_today (months sample_scraper) = (2025, 4) /\
  exists horizon,
    _last_day_of_month sample_today (months sample_scraper) = Ok horizon /\
    is_last_day_of (fst (months_after sample_today (months sample_scraper)))
      (snd (months_after sample_today (months sample_scraper))) horizon /\
    date_le sample_today (date e) /\ date_le (date e) horizon.
Proof.
  intros e. split; [vm_compute; reflexivity|].
  apply (events_within_window casefold_id urljoin_concat sample_scraper
           sample_today sample_page sample_events e).
  - vm_compute. reflexivity.
  - unfold sample_events, e. apply elem_of_cons. by left.
Defined.

Lemma NoDup_fmap_filter_one {A B} `{EqDecision B} (f : A -> B) (l : list A) k :
  NoDup (f <$> l) -> k ∈ f <$> l ->
  length (List.filter (fun x => bool_decide (f x = k)) l) = 1%nat.
Proof.
  induction l as [|x l IH]; simpl; intros Hnd Hin.
  - by apply elem_of_nil in Hin.
  - apply NoDup_cons in Hnd as [Hx Hnd].
    destruct (bool_decide (f x = k)) eqn:E.
    + apply bool_decide_eq_true in E. subst k. simpl. f_equal.
      clear IH Hin Hnd. induction l as [|y l IH]; [done|].
      simpl. apply not_elem_of_cons in Hx as [Hne Hx].
      replace (bool_decide (f y = f x)) with false
        by (symmetry; apply bool_decide_eq_false; congruence).
      by apply IH.
    + apply bool_decide_eq_false in E.
      apply elem_of_cons in Hin as [->|Hin]; [done|]. by apply IH.
Qed.

(** C7. No two events of the list returned by [scrape_events] have the
    same (date, title, url): the keys of the events are pairwise distinct.
    Moreover every event line that the scan reaches, that lies in the
    window, is not blacklisted and whose link resolves, has exactly one
    event with its (date, title, url) in the returned list, however many
    other lines yield the same triple. *)
Theorem events_unique casefold urljoin self today h3s evs :
  scrape_events casefold urljoin self today h3s = Ok evs ->
  NoDup (key_of <$> evs) /\
  (forall horizon pre h post s a cd u,
     h3s = pre ++ h :: post ->
     _last_day_of_month today (months self) = Ok horizon ->
     scan casefold urljoin self today horizon (initial today) pre = Next s ->
     search DATE_LINE (get_text h) = None ->
     find_a h = Some a ->
     current_date s = Some cd ->
     Datetime.ltb cd today = false ->
     Datetime.ltb horizon cd = false ->
     existsb (fun b => contains (casefold (a_text a)) b) (blacklist self)
       = false ->
     resolve urljoin (href a) = Ok u ->
     length (List.filter (fun e => bool_decide (key_of e = (cd, a_text a, u))) evs)
       = 1%nat).
Proof.
  intros Hs.
  apply scrape_events_returns in Hs as (horizon & s' & Hh & Hret & ->).
  assert (NoDup (key_of <$> events s')) as Hnd
    by (by apply (scan_events_nodup casefold urljoin self today horizon h3s)).
  split; [done|].
  intros horizon' pre h post s a cd u -> Hh' Hpre Hno Ha Hcd Hpast Hfar Hbl Hu.
  rewrite Hh in Hh'. injection Hh' as <-.
  apply NoDup_fmap_filter_one; [done|].
  rewrite scan_app, Hpre in Hret. cbn [scan] in Hret.
  destruct (body casefold urljoin self today horizon s h) as [s1|s1|e] eqn:Hb.
  - assert ((cd, a_text a, u) ∈ key_of <$> events s1) as Hin.
    { apply (body_event_line casefold urljoin self today horizon s h s1 a cd u);
        try done; [by left|].
      intros k. apply (scan_seen_keys casefold urljoin self today horizon pre).
      by left. }
    apply list_elem_of_fmap in Hin as (e & He & Hin). rewrite He.
    apply list_elem_of_fmap_2.
    by apply (scan_events_grow casefold urljoin self today horizon post s1).
  - destruct Hret as [[=]|[= <-]].
    apply (body_event_line casefold urljoin self today horizon s h s1 a cd u);
      try done; [by right|].
    intros k. apply (scan_seen_keys casefold urljoin self today horizon pre).
    by left.
  - by destruct Hret.
Qed.

Lemma is_next_state f d : is_next f = true -> f = Next (state_of f d).
Proof. by destruct f. Qed.

(** The quiz is listed twice on the sample page and once in the result:
    the theorem at the second of the two lines. *)
Lemma events_unique_witness :
  let a := {| a_text := py "AW Med Quiz! Från Kl.17.00";
              href := py "/jonkoping/event/aw-med-quiz/" |} in
  let cd := Datetime.Date 2025 2 6 in
  let u := py "https://krogoco.se/jonkoping/event/aw-med-quiz/" in
  NoDup (key_of <$> sample_events) /\
  length (List.filter
            (fun e => bool_decide (key_of e = (cd, a_text a, u)))
            sample_events) = 1%nat.
Proof.
  intros a cd u.
  destruct (events_unique casefold_id urljoin_concat sample_scraper
              sample_today sample_page sample_events) as [Hnd Hone].
  { vm_compute. reflexivity. }
  split; [exact Hnd|].
  apply (Hone (Datetime.Date 2025 4 30) (firstn 5 sample_page)
           {| get_text := py "AW Med Quiz! Från Kl.17.00"; find_a := Some a |}
           (skipn 6 sample_page)
           (state_of
              (scan casefold_id urljoin_concat sample_scraper sample_today
                 (Datetime.Date 2025 4 30) (initial sample_today)
                 (firstn 5 sample_page))
              (initial sample_today))
           a cd u).
  - reflexivity.
  - vm_compute. reflexivity.
  - apply is_next_state. vm_compute. reflexivity.
  - vm_compute. reflexivity.
  - reflexivity.
  - vm_compute. reflexivity.
  - vm_compute. reflexivity.
  - vm_compute. reflexivity.
  - vm_compute. reflexivity.
  - vm_compute. reflexivity.
Defined.

(** What the code does with the link target of every returned event: a
    target that starts with ["/"] is joined onto [BASE_URL] with
    [urljoin]; every other target, relative or absolute, is kept as it
    is. *)
Lemma event_url_origin casefold urljoin self today h3s evs e :
  scrape_events casefold urljoin self today h3s = Ok evs ->
  e ∈ evs ->
  exists h a,
    h ∈ h3s /\ find_a h = Some a /\ title e = a_text a /\
    if startswith (href a) (py "/")
    then urljoin BASE_URL (href a) = Ok (url e)
    else url e = href a.
Proof.
  intros Hs He.
  apply scrape_events_returns in Hs as (horizon & s' & _ & Hret & ->).
  destruct (scan_events_origin _ _ _ _ _ _ _ Hret e He)
    as (h & a & Hin & Ha & Ht & Hu & _).
  exists h, a. repeat (split; [done|]).
  unfold resolve in Hu. destruct (startswith (href a) (py "/")); [done|].
  by injection Hu.
Qed.

(** C9, at the failing input: a link target that is relative without a
    leading slash is not resolved. Whatever [urljoin] and [casefold] are,
    the event of the link ["jonkoping/event/pianobar/"] is returned with
    that target as its url, which is not an absolute URL. *)
Theorem relative_url_kept_verbatim casefold urljoin :
  exists e,
    scrape_events casefold urljoin (__init__ casefold 2 []) sample_today
      relative_page = Ok [e] /\
    url e = py "jonkoping/event/pianobar/" /\
    is_absolute_url (url e) = false.
Proof.
  exists {| date := Datetime.Date 2025 2 7;
            title := py "Pianobar Kl.22.00, 23+";
            url := py "jonkoping/event/pianobar/";
            all_day := false;
            start_time := Some (py "22:00"); end_time := Some (py "23:00") |}.
  split; [|split]; vm_compute; reflexivity.
Qed.

Lemma rollover_scrape :
  scrape_events casefold_id urljoin_concat rollover_scraper rollover_today
    rollover_page = Ok rollover_events.
Proof. vm_compute. reflexivity. Qed.

Lemma date_months_prefix pre post :
  date_months (pre ++ post) = date_months pre ++ date_months post.
Proof. apply omap_app. Qed.

Lemma descents_12_12_1_1_2 ms ms' Y m yr :
  ms ++ ms' = [12; 12; 1; 1; 2] ->
  last_month None ms = Some m ->
  yr = Y + descents None ms ->
  (m = 12 /\ yr = Y) \/ ((m = 1 \/ m = 2) /\ yr = Y + 1).
Proof.
  intros Hms Hlast Hyr.
  destruct ms as [|m1 [|m2 [|m3 [|m4 [|m5 [|m6 ms]]]]]];
    simpl in Hms, Hlast; simplify_eq; simpl; lia.
Qed.

(** C5. Every returned event comes from a link node, and its year is
    the year of [today] plus the number of date lines before that node
    whose month is strictly smaller than the month of the date line before
    it: the inferred year grows by one at exactly those date lines. In
    particular, when the date lines carry the months 12, 12, 1, 1, 2, the
    events under the month-12 dates are in the year of [today] and those
    under the month-1 and month-2 dates in the next year. *)
Theorem year_rollover casefold urljoin self today h3s evs e :
  scrape_events casefold urljoin self today h3s = Ok evs ->
  e ∈ evs ->
  (exists pre h post a,
     h3s = pre ++ h :: post /\
     find_a h = Some a /\ title e = a_text a /\
     last_month None (date_months pre) = Some (Datetime.month (date e)) /\
     Datetime.year (date e)
       = Datetime.year today + descents None (date_months pre)) /\
  (date_months h3s = [12; 12; 1; 1; 2] ->
   (Datetime.month (date e) = 12 /\
    Datetime.year (date e) = Datetime.year today) \/
   ((Datetime.month (date e) = 1 \/ Datetime.month (date e) = 2) /\
    Datetime.year (date e) = Datetime.year today + 1)).
Proof.
  intros Hs He.
  apply scrape_events_returns in Hs as (horizon & s' & _ & Hret & ->).
  destruct (scan_event_years _ _ _ _ _ _ _ Hret e He)
    as (pre & h & post & a & -> & Ha & Ht & Hlast & Hyear).
  split; [by exists pre, h, post, a|].
  rewrite date_months_prefix. intros Hms.
  by apply (descents_12_12_1_1_2 (date_months pre) (date_months (h :: post))).
Qed.

Lemma year_rollover_witness :
  let e := {| date := Datetime.Date 2026 2 14;
              title := py "Alla Hjärtans Dag";
              url := py "https://krogoco.se/jonkoping/event/hjartan/";
              all_day := true; start_time := None; end_time := None |} in
  date_months rollover_page = [12; 12; 1; 1; 2] /\
  ((Datetime.month (date e) = 12 /\
    Datetime.year (date e) = Datetime.year rollover_today) \/
   ((Datetime.month (date e) = 1 \/ Datetime.month (date e) = 2) /\
    Datetime.year (date e) = Datetime.year rollover_today + 1)).
Proof.
  intros e.
  assert (date_months rollover_page = [12; 12; 1; 1; 2]) as Hms
    by (vm_compute; reflexivity).
  split; [exact Hms|].
  apply (year_rollover casefold_id urljoin_concat rollover_scraper
           rollover_today rollover_page rollover_events e).
  - vm_compute. reflexivity.
  - unfold rollover_events, e. do 4 (apply elem_of_cons; right).
    apply elem_of_cons. by left.
  - exact Hms.
Defined.

(** ** Malformed date lines *)

(** The date context after a prefix of the page that the scan has gone
    through without stopping. *)
Lemma scan_next_context casefold urljoin self today horizon pre :
  forall s0 s,
    scan casefold urljoin self today horizon s0 pre = Next s ->
    inferred_year s
    = inferred_year s0 + descents (prev_month s0) (date_months pre) /\
    prev_month s = last_month (prev_month s0) (date_months pre).
Proof.
  induction pre as [|h tl IH]; intros s0 s Hs.
  - injection Hs as <-. simpl. split; [lia|done].
  - cbn [scan] in Hs.
    destruct (body casefold urljoin self today horizon s0 h) as [s1|s1|e]
      eqn:Hb; [|done|done].
    assert (returns (body casefold urljoin self today horizon s0 h) s1)
      as Hret by (left; exact Hb).
    apply body_context in Hret.
    destruct (IH s1 s Hs) as [Hy Hpm].
    unfold date_months in *. cbn [omap list_omap].
    destruct (date_month h) as [mm|].
    + destruct Hret as (Hy1 & Hpm1 & _). cbn [descents last_month].
      rewrite Hpm1 in Hy, Hpm. split; [lia|done].
    + destruct Hret as (Hy1 & Hpm1 & _).
      rewrite Hpm1 in Hy, Hpm. split; [lia|done].
Qed.

(** C8, as the code has it. When the scan reaches a heading whose text
    matches the date pattern with a day and month that name no calendar
    date in the year inferred for that heading (day 32, month 13, or
    29/02 when that year is no leap year), [scrape_events] raises and
    returns no list. The scan reaches the heading unless it has stopped
    before, at an event beyond the horizon. *)
Theorem impossible_date_raises casefold urljoin self today pre h post m dd mm :
  search DATE_LINE (get_text h) = Some m ->
  py_int (group m 1) = Ok dd ->
  py_int (group m 2) = Ok mm ->
  Datetime.valid_ymd (inferred_year_at today pre mm) mm dd = false ->
  (forall horizon,
     _last_day_of_month today (months self) = Ok horizon ->
     is_break (scan casefold urljoin self today horizon (initial today) pre)
       = false) ->
  exists e,
    scrape_events casefold urljoin self today (pre ++ h :: post) = Raise e.
Proof.
  intros Hm Hdd Hmm Himp Hreach. unfold scrape_events.
  destruct (_last_day_of_month today (months self)) as [horizon|e] eqn:Hh;
    [|by exists e].
  simpl. rewrite scan_app.
  destruct (scan _ _ _ _ _ _ pre) as [s1|s1|e] eqn:Hpre.
  - apply scan_next_context in Hpre as [Hy Hpm]. cbn [initial inferred_year
      prev_month] in Hy, Hpm.
    cbn [scan]. unfold body. rewrite Hm. unfold date_line.
    rewrite Hdd, Hmm.
    replace (match prev_month s1 with
             | Some pm => if mm <? pm then inferred_year s1 + 1
                          else inferred_year s1
             | None => inferred_year s1
             end) with (inferred_year_at today pre mm).
    + rewrite new_spec, Himp. destruct (_ && _); by eexists.
    + unfold inferred_year_at, rollover. rewrite Hy, <- Hpm.
      destruct (prev_month s1) as [pm|]; [destruct (mm <? pm)|]; lia.
  - specialize (Hreach horizon eq_refl). by rewrite Hpre in Hreach.
  - by exists e.
Qed.

Lemma impossible_date_raises_witness :
  exists e,
    scrape_events casefold_id urljoin_concat sample_scraper sample_today
      ([heading "torsdag 05/02";
        link "HV71 – Skellefteå AIK" "/jonkoping/event/hv71-skelleftea-aik/"]
       ++ heading "lördag 29/02"
       :: [link "Fredagslunch Kl.12-17" "/jonkoping/event/lunch/"])
    = Raise e.
Proof.
  apply (impossible_date_raises casefold_id urljoin_concat sample_scraper
           sample_today _ (heading "lördag 29/02") _
           [(2%nat, py "02"); (1%nat, py "29")] 29 2).
  - vm_compute. reflexivity.
  - vm_compute. reflexivity.
  - vm_compute. reflexivity.
  - vm_compute. reflexivity.
  - intros horizon Hh.
    assert (_last_day_of_month sample_today (months sample_scraper)
            = Ok (Datetime.Date 2025 4 30)) as E by (vm_compute; reflexivity).
    rewrite E in Hh. injection Hh as <-. vm_compute. reflexivity.
Defined.

(** C8 as stated fails for a malformed date line that lies after the
    point where the scan stops: the sample page ends with an event beyond
    the horizon, and a heading "32/13" appended to it is never examined. *)
Lemma impossible_date_after_break :
  search DATE_LINE (py "lördag 32/13")
    = Some [(2%nat, py "13"); (1%nat, py "32")] /\
  py_int (py "32") = Ok 32 /\ py_int (py "13") = Ok 13 /\
  impossible_day_month 32 13 = true /\
  scrape_events casefold_id urljoin_concat sample_scraper sample_today
    (sample_page ++ [heading "lördag 32/13"]) = Ok sample_events.
Proof. repeat (split; [vm_compute; reflexivity|]). vm_compute. reflexivity. Qed.

(** * Further properties *)

(** ** More on the time-expression parser *)

Lemma decimal_range c d : Unicode.decimal c = Some d -> 0 <= d <= 9.
Proof.
  unfold Unicode.decimal.
  destruct (find _ Unicode.decimal_zeros) as [z|] eqn:Hf; [|done].
  intros [= <-]. apply find_some in Hf as [_ Hr].
  unfold Unicode.in_range in Hr. cbn [fst snd] in Hr.
  apply andb_prop in Hr as [H1 H2].
  apply N.leb_le in H1, H2. lia.
Qed.

Lemma isdecimal_value c :
  Unicode.isdecimal c = true -> exists d, Unicode.decimal c = Some d /\ 0 <= d <= 9.
Proof.
  unfold Unicode.isdecimal. destruct (Unicode.decimal c) as [d|] eqn:E; [|done].
  intros _. exists d. split; [done|]. by apply (decimal_range c).
Qed.

Lemma py_int_1 c :
  Unicode.isdecimal c = true -> exists n, py_int [c] = Ok n /\ 0 <= n <= 99.
Proof.
  intros H. apply isdecimal_value in H as (d & Hd & Hr).
  exists d. unfold py_int. cbn [fold_left]. unfold int_step. simpl.
  rewrite Hd. split; [f_equal; lia | lia].
Qed.

Lemma py_int_2 c1 c2 :
  Unicode.isdecimal c1 = true -> Unicode.isdecimal c2 = true ->
  exists n, py_int [c1; c2] = Ok n /\ 0 <= n <= 99.
Proof.
  intros H1 H2. apply isdecimal_value in H1 as (d1 & Hd1 & Hr1).
  apply isdecimal_value in H2 as (d2 & Hd2 & Hr2).
  exists (10 * d1 + d2). unfold py_int. cbn [fold_left]. unfold int_step. simpl.
  rewrite Hd1. simpl. rewrite Hd2. split; [f_equal; lia | lia].
Qed.

(** Two decimal digits of any script, read by [int] and printed with
    [:02d], give a zero-padded hour in ASCII digits. *)
Lemma format_02d_cases :
  forallb (fun n => is_HH_MM (format_02d (Z.of_nat n) ++ py ":00"))
    (List.seq 0 100) = true.
Proof. vm_compute. reflexivity. Qed.

Lemma format_02d_HH_00 n :
  0 <= n <= 99 -> is_HH_MM (format_02d n ++ py ":00") = true.
Proof.
  intros Hn. pose proof format_02d_cases as H.
  rewrite forallb_forall in H. specialize (H (Z.to_nat n)).
  rewrite Z2Nat.id in H by lia. apply H. apply in_seq. lia.
Qed.

Lemma normalize_digit c :
  Unicode.isdecimal c = true ->
  (if (c =? chr1 ".")%N then chr1 ":" else c) = c.
Proof.
  intros H. destruct (c =? chr1 ".")%N eqn:E; [|done].
  apply N.eqb_eq in E. subst c. vm_compute in H. discriminate.
Qed.

Lemma normalize_separator c :
  existsb (N.eqb c) (py ".:") = true ->
  (if (c =? chr1 ".")%N then chr1 ":" else c) = chr1 ":".
Proof.
  intros H. destruct (c =? chr1 ".")%N eqn:E; [done|].
  change (py ".:") with [chr1 "."; chr1 ":"] in H. cbn [existsb] in H.
  rewrite E in H. simpl in H. rewrite orb_false_r in H.
  by apply N.eqb_eq in H.
Qed.

(** The text of a [TIME] group, once normalised. *)
Lemma derive_TIME_normalized s w s' :
  derive TIME s w s' ->
  is_H_MM (_normalize_time w) = true /\ caps s' = caps s.
Proof.
  intros Hd. unfold_pattern Hd. derive_inv.
  all: match goal with
       | H : _ || _ = true |- _ => pose proof (normalize_separator _ H) as Hsep
       end.
  all: simpl; rewrite Hsep.
  all: repeat match goal with
       | H : Unicode.isdecimal ?x = true |- _ =>
           rewrite ?(normalize_digit x H), ?H; clear H
       end.
  all: by rewrite N.eqb_refl.
Qed.

(** The groups of the patterns that hold a [TIME]. *)
Ltac time_groups Hd :=
  cbv [FULL_RANGE TIME_HINT SINGLE_TIME seq fold_right spaces lit one_of
       rep_1_2 digit] in Hd;
  derive_inv;
  repeat match goal with
  | H : derive TIME _ _ _ |- _ =>
      apply derive_TIME_normalized in H as [? ?]
  end;
  simpl in *;
  repeat match goal with
  | H : caps ?s = _ |- _ => rewrite H in *; clear H
  end;
  simpl.

Lemma full_range_times text m :
  search FULL_RANGE text = Some m ->
  is_H_MM (_normalize_time (group m 1)) = true /\
  is_H_MM (_normalize_time (group m 2)) = true.
Proof.
  intros H. apply search_sound in H as (pv & l & w & s' & Hd & ->).
  by time_groups Hd.
Qed.

Lemma single_time_times text m :
  search SINGLE_TIME text = Some m ->
  is_H_MM (_normalize_time (group m 1)) = true.
Proof.
  intros H. apply search_sound in H as (pv & l & w & s' & Hd & ->).
  by time_groups Hd.
Qed.

Lemma time_hint_times text m :
  search TIME_HINT text = Some m ->
  is_H_MM (_normalize_time (group m 1)) = true /\
  exists n, py_int (group m 2) = Ok n /\ 0 <= n <= 99.
Proof.
  intros H. apply search_sound in H as (pv & l & w & s' & Hd & ->).
  time_groups Hd; (split; [done|]); by (apply py_int_2 || apply py_int_1).
Qed.

Lemma short_range_hours text m :
  search SHORT_RANGE text = Some m ->
  (exists n, py_int (group m 1) = Ok n /\ 0 <= n <= 99) /\
  (exists n, py_int (group m 2) = Ok n /\ 0 <= n <= 99).
Proof.
  intros H. apply search_sound in H as (pv & l & w & s' & Hd & ->).
  unfold_pattern Hd. derive_inv; simpl;
    split; by (apply py_int_2 || apply py_int_1).
Qed.

Lemma is_HH_MM_H_MM t : is_HH_MM t = true -> is_H_MM t = true.
Proof.
  destruct t as [|h1 [|h2 [|c [|m1 [|m2 [|x t]]]]]]; simpl; try done.
Qed.

(** The times that [_parse_time_range] returns, rule by rule. *)
Lemma _parse_time_range_times text st en ad :
  _parse_time_range text = Ok (st, en, ad) -> time_like st /\ time_like en.
Proof.
  unfold _parse_time_range.
  destruct (search FULL_RANGE text) as [m|] eqn:H1.
  { apply full_range_times in H1 as [G1 G2]. by intros [= <- <- <-]. }
  destruct (search SHORT_RANGE text) as [m|] eqn:H2.
  { apply short_range_hours in H2 as [(n1 & -> & R1) (n2 & -> & R2)]. simpl.
    intros [= <- <- <-].
    split; by apply is_HH_MM_H_MM, format_02d_HH_00. }
  destruct (search TIME_HINT text) as [m|] eqn:H3.
  { apply time_hint_times in H3 as [G1 (n2 & -> & R2)]. simpl.
    intros [= <- <- <-]. split; [done|].
    by apply is_HH_MM_H_MM, format_02d_HH_00. }
  destruct (search SINGLE_TIME text) as [m|] eqn:H4.
  { apply single_time_times in H4. by intros [= <- <- <-]. }
  by intros [= <- <- <-].
Qed.

(** X1. Every start or end time that [_parse_time_range] returns is a
    one- or two-digit hour, a colon and a two-digit minute, all decimal
    digits: the separator is always normalised, whichever rule applies. *)
Theorem parse_time_range_shape text st en ad :
  _parse_time_range text = Ok (st, en, ad) ->
  (forall t, st = Some t -> is_H_MM t = true) /\
  (forall t, en = Some t -> is_H_MM t = true).
Proof.
  intros H. apply _parse_time_range_times in H as [Hst Hen].
  split; by intros t ->.
Qed.

Lemma parse_time_range_shape_witness :
  (forall t, Some (py "9:30") = Some t -> is_H_MM t = true) /\
  (forall t, Some (py "23:00") = Some t -> is_H_MM t = true).
Proof.
  apply (parse_time_range_shape (py "Brunch 9.30 – 23.00") _ _ false).
  vm_compute. reflexivity.
Defined.

(** X2. When the full-range pattern is not found, every end time comes
    out of the [:02d] format: two digits, a colon and two digits. When the
    short hour range decides, the start time does too. *)
Theorem parse_time_range_padded_hours text st en ad :
  search FULL_RANGE text = None ->
  _parse_time_range text = Ok (st, en, ad) ->
  (forall t, en = Some t -> is_HH_MM t = true) /\
  (is_Some (search SHORT_RANGE text) ->
   forall t, st = Some t -> is_HH_MM t = true).
Proof.
  intros H1. unfold _parse_time_range. rewrite H1.
  destruct (search SHORT_RANGE text) as [m|] eqn:H2.
  { apply short_range_hours in H2 as [(n1 & -> & R1) (n2 & -> & R2)]. simpl.
    intros [= <- <- <-].
    split; [|intros _]; intros t [= <-]; by apply format_02d_HH_00. }
  destruct (search TIME_HINT text) as [m|] eqn:H3.
  { apply time_hint_times in H3 as [G1 (n2 & -> & R2)]. simpl.
    intros [= <- <- <-]. split; [|by intros [? ?]].
    intros t [= <-]. by apply format_02d_HH_00. }
  destruct (search SINGLE_TIME text) as [m|];
    intros [= <- <- <-]; (split; [by intros t [=]|by intros [? ?]]).
Qed.

Lemma parse_time_range_padded_hours_witness :
  (forall t, Some (py "09:00") = Some t -> is_HH_MM t = true) /\
  (is_Some (search SHORT_RANGE (py "Lunch kl 7-9")) ->
   forall t, Some (py "07:00") = Some t -> is_HH_MM t = true).
Proof.
  apply (parse_time_range_padded_hours (py "Lunch kl 7-9") _ _ false).
  - vm_compute. reflexivity.
  - vm_compute. reflexivity.
Defined.

(** A match lies inside the text. *)
Lemma search_from_within r : forall l pv m,
  search_from r pv l = Some m ->
  exists before pv' l' w s',
    l = before ++ l' /\ derive r (Cursor pv' l' []) w s' /\ m = caps s'.
Proof.
  induction l as [|c tl IH]; intros pv m H; simpl in H.
  - destruct (run r accept _) eqn:Hr; [|done]. injection H as ->.
    apply run_sound in Hr as (w & s' & Hd & Ha). injection Ha as <-.
    by exists [], pv, [], w, s'.
  - destruct (run r accept _) eqn:Hr.
    + injection H as ->.
      apply run_sound in Hr as (w & s' & Hd & Ha). injection Ha as <-.
      by exists [], pv, (c :: tl), w, s'.
    + apply IH in H as (before & pv' & l' & w & s' & -> & Hd & ->).
      by exists (c :: before), pv', l', w, s'.
Qed.

Lemma search_matched_text r text m :
  search r text = Some m ->
  exists before w after pv s',
    text = before ++ w ++ after /\
    derive r (Cursor pv (w ++ after) []) w s'.
Proof.
  intros H. apply search_from_within in H
    as (before & pv' & l' & w & s' & -> & Hd & _).
  pose proof (derive_rest _ _ _ _ Hd) as Hr. simpl in Hr.
  exists before, w, (rest s'), pv', s'. by rewrite <- Hr.
Qed.

Ltac in_list :=
  rewrite ?elem_of_app, ?elem_of_cons; naive_solver.

(** Each of the four time patterns needs a decimal digit. *)
Lemma time_pattern_digit r text m :
  r = FULL_RANGE \/ r = SHORT_RANGE \/ r = TIME_HINT \/ r = SINGLE_TIME ->
  search r text = Some m ->
  exists c, c ∈ text /\ Unicode.isdecimal c = true.
Proof.
  intros Hr H.
  apply search_matched_text in H as (before & w & after & pv & s' & -> & Hd).
  assert (exists c, c ∈ w /\ Unicode.isdecimal c = true) as (c & Hc & Hdec).
  { destruct Hr as [->|[->|[->| ->]]]; unfold_pattern Hd; derive_inv;
      match goal with
      | H : Unicode.isdecimal ?c = true |- _ =>
          exists c; split; [in_list | exact H]
      end. }
  exists c. split; [|done].
  apply elem_of_app. right. apply elem_of_app. by left.
Qed.

(** X3. A title without any decimal digit has no time: the parser returns
    [(None, None, True)]. *)
Theorem parse_time_range_no_digit text :
  (forall c, c ∈ text -> Unicode.isdecimal c = false) ->
  _parse_time_range text = Ok (None, None, true).
Proof.
  intros Hno.
  assert (forall r m,
    r = FULL_RANGE \/ r = SHORT_RANGE \/ r = TIME_HINT \/ r = SINGLE_TIME ->
    search r text <> Some m) as Hnone.
  { intros r m Hr H.
    destruct (time_pattern_digit r text m Hr H) as (c & Hin & Hdec).
    rewrite (Hno c Hin) in Hdec. done. }
  unfold _parse_time_range.
  destruct (search FULL_RANGE text) eqn:H1; [by eapply Hnone in H1; auto|].
  destruct (search SHORT_RANGE text) eqn:H2; [by eapply Hnone in H2; auto|].
  destruct (search TIME_HINT text) eqn:H3; [by eapply Hnone in H3; auto|].
  destruct (search SINGLE_TIME text) eqn:H4; [by eapply Hnone in H4; auto|].
  done.
Qed.

Lemma parse_time_range_no_digit_witness :
  _parse_time_range (py "Studentfest") = Ok (None, None, true).
Proof.
  apply parse_time_range_no_digit.
  intros c Hc. unfold py in Hc. cbn in Hc.
  repeat (apply elem_of_cons in Hc as [->|Hc]; [vm_compute; reflexivity|]).
  by apply elem_of_nil in Hc.
Defined.

(** X4. [_normalize_time] keeps the length, leaves no ["."] behind, and
    does nothing to a string without ["."]; so normalising twice is
    normalising once. *)
Theorem normalize_time_facts t :
  length (_normalize_time t) = length t /\
  (chr1 "." ∉ _normalize_time t) /\
  (chr1 "." ∉ t -> _normalize_time t = t) /\
  _normalize_time (_normalize_time t) = _normalize_time t.
Proof.
  assert (forall s, chr1 "." ∉ _normalize_time s) as Hdot.
  { induction s as [|c s IH]; [apply not_elem_of_nil|].
    unfold _normalize_time, replace_char in *. cbn [map].
    apply not_elem_of_cons. split; [|done].
    destruct (c =? chr1 ".")%N eqn:E; [done|]. apply N.eqb_neq in E. congruence. }
  assert (forall s, chr1 "." ∉ s -> _normalize_time s = s) as Hid.
  { induction s as [|c s IH]; [done|]. intros Hn.
    apply not_elem_of_cons in Hn as [Hc Hs].
    unfold _normalize_time, replace_char in *. cbn [map].
    rewrite IH by done.
    destruct (c =? chr1 ".")%N eqn:E; [|done]. apply N.eqb_eq in E. congruence. }
  split; [apply length_map|]. split; [apply Hdot|]. split; [apply Hid|].
  apply Hid, Hdot.
Qed.

(** ** More on [_last_day_of_month] *)

(** X5. [_last_day_of_month] for every date and every integer
    [months_ahead], negative ones included: it returns the last day of the
    target month when that month lies between January 0001 and November
    9999; it raises [OverflowError] for December of the year 0 and
    whenever the year of the following month does not fit a C [int]; it
    raises [ValueError] for every other target, December 9999 among
    them. *)
Theorem last_day_of_month_outcome d k :
  _last_day_of_month d k =
  last_day_outcome (fst (months_after d k)) (snd (months_after d k)).
Proof.
  pose proof (months_after_month d k) as Hm.
  pose proof (last_day_of_month_split d k) as H. cbv zeta in H.
  destruct (months_after d k) as [y m]. cbn [fst snd] in *.
  unfold last_day_outcome.
  destruct H as [(Hy & Hlt & ->)|(Hout & ->)].
  - replace ((1 <=? y) && (y <=? 9999) && negb ((y =? 9999) && (m =? 12)))
      with true; [done|].
    symmetry. rewrite !andb_true_iff, negb_true_iff, andb_false_iff.
    rewrite !Z.leb_le, !Z.eqb_neq. lia.
  - replace ((1 <=? y) && (y <=? 9999) && negb ((y =? 9999) && (m =? 12)))
      with false; [done|].
    symmetry. rewrite !andb_false_iff, negb_false_iff, andb_true_iff.
    rewrite !Z.leb_gt, !Z.eqb_eq. lia.
Qed.

(** A scenario for each outcome: a horizon, the step back from
    0001-01-01, a year that [date] rejects and a year that is no C
    [int]. *)
Lemma last_day_of_month_outcomes :
  _last_day_of_month (Datetime.Date 2025 2 1) 2 = Ok (Datetime.Date 2025 4 30)
  /\ _last_day_of_month (Datetime.Date 1 1 1) (-1) = Raise OverflowError
  /\ _last_day_of_month (Datetime.Date 9999 12 1) 0 = Raise ValueError
  /\ _last_day_of_month (Datetime.Date 2025 1 1) (12 * 2147483648)
     = Raise OverflowError.
Proof. repeat split; vm_compute; reflexivity. Qed.

Lemma months_after_index d k :
  12 * fst (months_after d k) + (snd (months_after d k) - 1)
  = 12 * Datetime.year d + (Datetime.month d - 1) + k.
Proof.
  unfold months_after. cbn [fst snd].
  pose proof (Z.div_mod (12 * Datetime.year d + (Datetime.month d - 1) + k) 12).
  lia.
Qed.

(** X6. For a reference date and [months_ahead >= 0], the horizon that
    [_last_day_of_month] returns is never before the reference date. *)
Theorem last_day_of_month_not_before d k r :
  Datetime.valid d = true -> 0 <= k ->
  _last_day_of_month d k = Ok r ->
  date_le d r.
Proof.
  intros Hv Hk Hr. apply last_day_of_month_ok in Hr. subst r.
  apply valid_ymd_spec in Hv as (Hy & Hm & Hd).
  pose proof (months_after_index d k) as Hi.
  pose proof (months_after_month d k) as Hm'.
  destruct (months_after d k) as [y m]. cbn [fst snd] in *.
  unfold date_le. cbn [Datetime.year Datetime.month Datetime.day].
  destruct (decide (Datetime.year d = y)) as [<-|Hne]; [|lia].
  destruct (decide (Datetime.month d = m)) as [<-|Hne]; [|lia].
  lia.
Qed.

Lemma last_day_of_month_not_before_witness :
  date_le (Datetime.Date 2025 2 28) (Datetime.Date 2025 2 28).
Proof.
  apply (last_day_of_month_not_before (Datetime.Date 2025 2 28) 0).
  - reflexivity.
  - lia.
  - vm_compute. reflexivity.
Defined.

(** X7. [_last_day_of_month] is monotone in [months_ahead]: looking
    further ahead from the same date never gives an earlier horizon. *)
Theorem last_day_of_month_monotone d k1 k2 r1 r2 :
  k1 <= k2 ->
  _last_day_of_month d k1 = Ok r1 ->
  _last_day_of_month d k2 = Ok r2 ->
  date_le r1 r2.
Proof.
  intros Hk H1 H2.
  apply last_day_of_month_ok in H1, H2. subst r1 r2.
  pose proof (months_after_index d k1) as Hi1.
  pose proof (months_after_month d k1) as Hm1.
  pose proof (months_after_index d k2) as Hi2.
  pose proof (months_after_month d k2) as Hm2.
  destruct (months_after d k1) as [y1 m1], (months_after d k2) as [y2 m2].
  cbn [fst snd] in *.
  unfold date_le. cbn [Datetime.year Datetime.month Datetime.day].
  destruct (decide (y1 = y2)) as [<-|Hne]; [|lia].
  destruct (decide (m1 = m2)) as [<-|Hne]; [|lia].
  lia.
Qed.

Lemma last_day_of_month_monotone_witness :
  date_le (Datetime.Date 2025 2 28) (Datetime.Date 2026 2 28).
Proof.
  apply (last_day_of_month_monotone (Datetime.Date 2025 2 1) 0 12).
  - lia.
  - vm_compute. reflexivity.
  - vm_compute. reflexivity.
Defined.

(** ** The day after a date *)

Section NextDay.
Import Datetime.

Lemma _ord2ymd_parts n : _ord2ymd n = ord_date (ord_parts n).
Proof.
  unfold _ord2ymd, ord_date, ord_parts, month_day. cbv zeta.
  destruct (_ || _); [reflexivity|].
  match goal with |- context [if ?c then _ else _] => destruct c end;
    reflexivity.
Qed.

(** One 400-year cycle, by computation, year by year. *)
Lemma year_cycle_ok : all_upto (fun k => year_check (Z.of_nat k)) 400 = true.
Proof. vm_compute. reflexivity. Qed.

Lemma year_check_spec y :
  year_check y = true ->
  exists n100 n4 n1,
    ord_parts (_days_before_year y + 1) = (0, n100, n4, n1, 0) /\
    0 <= n100 <= 3 /\ 0 <= n4 /\ 0 <= n1 <= 3 /\
    n100 * 100 + n4 * 4 + n1 + 1 = y /\
    (n1 =? 3) && (negb (n4 =? 24) || (n100 =? 3)) = _is_leap y /\
    (_is_leap y = true ->
     _ord2ymd (_days_before_year y + 1 + 365) = (y, 12, 31)) /\
    _days_before_year (y + 1)
    = _days_before_year y + (if _is_leap y then 366 else 365).
Proof.
  unfold year_check. cbv zeta.
  destruct (ord_parts _) as [[[[n400 n100] n4] n1] n].
  rewrite !andb_true_iff.
  intros [[[[[[[[[[H1 H2] H3] H4] H5] H6] H7] H8] H9] H10] H11].
  apply Z.eqb_eq in H1, H7, H8, H11. apply Z.leb_le in H2, H3, H4, H5, H6.
  apply eqb_prop in H9. subst n400 n.
  exists n100, n4, n1. repeat (split; [done || lia|]).
  split; [|done]. intros Hl. rewrite Hl in H10. by apply bool_decide_eq_true in H10.
Qed.

Lemma year_cycle y :
  1 <= y <= 400 -> year_check y = true.
Proof.
  intros Hy.
  assert (1 <= Z.to_nat y <= 400)%nat as Hk by lia.
  pose proof (all_upto_spec _ 400 year_cycle_ok (Z.to_nat y) Hk) as H.
  cbv beta in H. by rewrite Z2Nat.id in H by lia.
Qed.

(** The days of a year, by computation: the tail of [_ord2ymd] undoes
    the table of days before each month. *)
Lemma month_day_ok :
  forallb
    (fun leap : bool =>
       forallb
         (fun m =>
            forallb
              (fun d =>
                 negb (d <=? (if (m =? 2) && leap then 29
                              else item _DAYS_IN_MONTH m))
                 || bool_decide
                      (month_day leap
                         (item _DAYS_BEFORE_MONTH m
                          + (if (2 <? m) && leap then 1 else 0) + d - 1)
                       = (m, d)))
              days31)
         months12)
    [true; false] = true.
Proof. vm_compute. reflexivity. Qed.

Lemma month_day_spec (leap : bool) m d :
  1 <= m <= 12 ->
  1 <= d <= (if (m =? 2) && leap then 29 else item _DAYS_IN_MONTH m) ->
  month_day leap
    (item _DAYS_BEFORE_MONTH m + (if (2 <? m) && leap then 1 else 0) + d - 1)
  = (m, d).
Proof.
  intros Hm Hd. pose proof month_day_ok as H.
  rewrite forallb_forall in H.
  assert (In leap [true; false]) as Hl by (destruct leap; cbn [In]; auto).
  apply H in Hl. rewrite forallb_forall in Hl.
  assert (In m months12) as Hin by (unfold months12; cbn [In]; lia).
  apply Hl in Hin. rewrite forallb_forall in Hin.
  assert (d <= 31) as Hd31.
  { revert Hd. each_month m Hm; destruct leap; eval_closed; lia. }
  assert (In d days31) as Hind by (unfold days31; cbn [In]; lia).
  apply Hin in Hind. apply orb_prop in Hind as [Hind|Hind].
  - apply negb_true_iff, Z.leb_gt in Hind. lia.
  - by apply bool_decide_eq_true in Hind.
Qed.

Lemma div_mod_shift a b k :
  0 < b -> 0 <= a mod b + k < b ->
  (a + k) / b = a / b /\ (a + k) mod b = a mod b + k.
Proof.
  intros Hb Hk.
  apply (Z.div_mod_unique b).
  - left. apply Z.mod_pos_bound. lia.
  - left. lia.
  - pose proof (Z.div_mod (a + k) b). pose proof (Z.div_mod a b). lia.
Qed.

(** Within a year the divisions of [_ord2ymd] give the same quotients. *)
Lemma ord_parts_shift n k n400 n100 n4 n1 r :
  ord_parts n = (n400, n100, n4, n1, r) ->
  0 <= n100 <= 3 -> 0 <= n4 -> 0 <= n1 <= 3 -> 0 <= r + k < 365 ->
  ord_parts (n + k) = (n400, n100, n4, n1, r + k).
Proof.
  unfold ord_parts. cbv zeta.
  change _DI400Y with 146097. change _DI100Y with 36524.
  change _DI4Y with 1461.
  set (r400 := (n - 1) mod 146097).
  set (r100 := r400 mod 36524).
  set (r4 := r100 mod 1461).
  intros [= E400 E100 E4 E1 Er] H100 H4 H1 Hk.
  pose proof (Z.div_mod r400 36524) as D100.
  pose proof (Z.mod_pos_bound r400 36524) as B100.
  pose proof (Z.div_mod r100 1461) as D4.
  pose proof (Z.mod_pos_bound r100 1461) as B4.
  pose proof (Z.div_mod r4 365) as D1.
  pose proof (Z.mod_pos_bound r4 365) as B1.
  pose proof (Z.mod_pos_bound (n - 1) 146097) as B400.
  fold r100 in D100, B100. fold r4 in D4, B4.
  rewrite E100 in D100. rewrite E4 in D4. rewrite E1, Er in D1.
  rewrite Er in B1. fold r400 in B400.
  replace (n + k - 1) with (n - 1 + k) by lia.
  destruct (div_mod_shift (n - 1) 146097 k) as [-> ->]; [lia| fold r400; lia |].
  fold r400.
  destruct (div_mod_shift r400 36524 k) as [-> ->]; [lia| fold r100; lia |].
  fold r100.
  destruct (div_mod_shift r100 1461 k) as [-> ->]; [lia| fold r4; lia |].
  fold r4.
  destruct (div_mod_shift r4 365 k) as [-> ->]; [lia| lia |].
  by rewrite E400, E100, E4, E1, Er.
Qed.

(** The index of a date in its year. *)
Lemma day_index_bounds (leap : bool) m d :
  1 <= m <= 12 ->
  1 <= d <= (if (m =? 2) && leap then 29 else item _DAYS_IN_MONTH m) ->
  let k := item _DAYS_BEFORE_MONTH m
           + (if (2 <? m) && leap then 1 else 0) + d - 1 in
  0 <= k < 365 \/ (k = 365 /\ leap = true /\ m = 12 /\ d = 31).
Proof.
  intros Hm. cbv zeta.
  each_month m Hm; destruct leap; eval_closed; lia.
Qed.

Lemma round_trip_cycle y m d :
  1 <= y <= 400 -> 1 <= m <= 12 -> 1 <= d <= _days_in_month y m ->
  _ord2ymd (_ymd2ord y m d) = (y, m, d).
Proof.
  intros Hy Hm Hd.
  destruct (year_check_spec y (year_cycle y Hy))
    as (n100 & n4 & n1 & Hp & H100 & H4 & H1 & Hyear & Hleap & Hlast & _).
  unfold _ymd2ord, _days_before_month. unfold _days_in_month in Hd.
  pose proof (day_index_bounds (_is_leap y) m d Hm Hd) as Hk.
  pose proof (month_day_spec (_is_leap y) m d Hm Hd) as Hmd.
  cbv zeta in Hk.
  set (k := item _DAYS_BEFORE_MONTH m
            + (if (2 <? m) && _is_leap y then 1 else 0) + d - 1) in *.
  replace (_days_before_year y
           + (item _DAYS_BEFORE_MONTH m
              + (if (2 <? m) && _is_leap y then 1 else 0)) + d)
    with (_days_before_year y + 1 + k) by (unfold k; lia).
  destruct Hk as [Hk|(-> & Hl & -> & ->)]; [|by apply Hlast].
  rewrite _ord2ymd_parts.
  rewrite (ord_parts_shift _ k 0 n100 n4 n1 0 Hp) by lia.
  unfold ord_date. cbv zeta.
  replace ((n1 =? 4) || (n100 =? 4)) with false
    by (symmetry; apply orb_false_iff; split; apply Z.eqb_neq; lia).
  rewrite Hleap. replace (0 + k) with k by lia. rewrite Hmd.
  f_equal. f_equal. lia.
Qed.

(** Every valid date is found again from its ordinal. *)
Lemma round_trip y m d :
  1 <= m <= 12 -> 1 <= d <= _days_in_month y m ->
  _ord2ymd (_ymd2ord y m d) = (y, m, d).
Proof.
  intros Hm Hd.
  assert (exists r q, y = r + 400 * q /\ 1 <= r <= 400) as (r & q & -> & Hr).
  { exists ((y - 1) mod 400 + 1), ((y - 1) / 400).
    pose proof (Z.div_mod (y - 1) 400).
    pose proof (Z.mod_pos_bound (y - 1) 400). lia. }
  rewrite _days_in_month_period in Hd.
  by rewrite _ymd2ord_period, _ord2ymd_period, round_trip_cycle.
Qed.

Lemma year_length y :
  _days_before_year (y + 1)
  = _days_before_year y + (if _is_leap y then 366 else 365).
Proof.
  assert (exists r q, y = r + 400 * q /\ 1 <= r <= 400) as (r & q & -> & Hr).
  { exists ((y - 1) mod 400 + 1), ((y - 1) / 400).
    pose proof (Z.div_mod (y - 1) 400).
    pose proof (Z.mod_pos_bound (y - 1) 400). lia. }
  destruct (year_check_spec r (year_cycle r Hr))
    as (n100 & n4 & n1 & _ & _ & _ & _ & _ & _ & _ & Hlen).
  replace (r + 400 * q + 1) with (r + 1 + 400 * q) by lia.
  rewrite !_days_before_year_period, _is_leap_period, Hlen. lia.
Qed.

(** The ordinal after that of a valid date is the ordinal of the next
    calendar day. *)
Lemma next_day_ord y m d :
  1 <= m <= 12 -> 1 <= d <= _days_in_month y m ->
  _ymd2ord y m d + 1
  = toordinal (next_day (Date y m d)).
Proof.
  intros Hm Hd. unfold next_day, toordinal. cbn [year month day].
  destruct (d <? _days_in_month y m) eqn:E1; cbn [year month day].
  { unfold _ymd2ord. lia. }
  apply Z.ltb_ge in E1. assert (d = _days_in_month y m) as -> by lia.
  destruct (m <? 12) eqn:E2; cbn [year month day].
  - apply Z.ltb_lt in E2.
    unfold _ymd2ord, _days_before_month, _days_in_month.
    each_month m Hm; destruct (_is_leap y); eval_closed; lia.
  - apply Z.ltb_ge in E2. assert (m = 12) as -> by lia.
    unfold _ymd2ord, _days_before_month, _days_in_month.
    rewrite year_length. destruct (_is_leap y), (_is_leap (y + 1));
      eval_closed; lia.
Qed.

Lemma next_day_valid y m d :
  1 <= y <= 9999 -> 1 <= m <= 12 -> 1 <= d <= _days_in_month y m ->
  y < 9999 \/ m < 12 \/ d < 31 ->
  valid (next_day (Date y m d)) = true.
Proof.
  intros Hy Hm Hd Hlt. unfold valid, next_day. cbn [year month day].
  pose proof (_days_in_month_bounds y m Hm) as Hdim.
  destruct (d <? _days_in_month y m) eqn:E1; cbn [year month day].
  { apply Z.ltb_lt in E1. apply valid_ymd_spec. lia. }
  apply Z.ltb_ge in E1.
  destruct (m <? 12) eqn:E2; cbn [year month day].
  { apply Z.ltb_lt in E2. apply valid_ymd_spec.
    pose proof (_days_in_month_bounds y (m + 1)). lia. }
  apply Z.ltb_ge in E2. assert (m = 12) as -> by lia.
  change (_days_in_month y 12) with 31 in *.
  apply valid_ymd_spec. pose proof (_days_in_month_bounds (y + 1) 1). lia.
Qed.

(** The ordinals of valid dates before 9999-12-31 leave room for a day. *)
Lemma toordinal_bounds y m d :
  1 <= y <= 9999 -> 1 <= m <= 12 -> 1 <= d <= _days_in_month y m ->
  y < 9999 \/ m < 12 \/ d < 31 ->
  0 < _ymd2ord y m d + 1 <= _MAXORDINAL.
Proof.
  intros Hy Hm Hd Hlt.
  unfold _ymd2ord, _MAXORDINAL, _days_before_year. cbv zeta.
  pose proof (Z.div_mod (y - 1) 4). pose proof (Z.mod_pos_bound (y - 1) 4).
  pose proof (Z.div_mod (y - 1) 100). pose proof (Z.mod_pos_bound (y - 1) 100).
  pose proof (Z.div_mod (y - 1) 400). pose proof (Z.mod_pos_bound (y - 1) 400).
  assert (0 <= _days_before_month y m /\ _days_before_month y m + d <= 366
          /\ (y = 9999 -> _days_before_month y m + d <= 365
                          /\ (m < 12 \/ d < 31 ->
                              _days_before_month y m + d <= 364))) as Hdb.
  { revert Hd. unfold _days_before_month, _days_in_month.
    destruct (decide (y = 9999)) as [->|Hne].
    - change (_is_leap 9999) with false.
      each_month m Hm; eval_closed; lia.
    - each_month m Hm; destruct (_is_leap y); eval_closed; lia. }
  destruct (decide (y = 9999)) as [->|Hne].
  - change ((9999 - 1) / 4) with 2499 in *.
    change ((9999 - 1) / 100) with 99 in *.
    change ((9999 - 1) / 400) with 24 in *. lia.
  - lia.
Qed.

(** [d + timedelta(days=1)] is the next calendar day, for every valid
    date but the last one. *)
Lemma add_one_day d :
  valid d = true ->
  year d < 9999 \/ month d < 12 \/ day d < 31 ->
  add_days d 1 = Ok (next_day d).
Proof.
  destruct d as [y m dd]. unfold valid. cbn [year month day].
  intros Hv Hlt. pose proof Hv as Hv'.
  apply valid_ymd_spec in Hv as (Hy & Hm & Hd).
  pose proof (toordinal_bounds y m dd Hy Hm Hd Hlt) as Hb.
  pose proof (next_day_valid y m dd Hy Hm Hd Hlt) as Hn.
  unfold add_days, toordinal. cbn [year month day].
  replace ((0 <? _ymd2ord y m dd + 1) && (_ymd2ord y m dd + 1 <=? _MAXORDINAL))
    with true by (symmetry; apply andb_true_iff; lia).
  rewrite next_day_ord by done.
  destruct (next_day (Date y m dd)) as [y' m' d'] eqn:En.
  unfold valid in Hn. cbn [year month day] in Hn.
  pose proof Hn as Hn'. apply valid_ymd_spec in Hn' as (_ & Hm' & Hd').
  unfold fromordinal, toordinal. cbn [year month day].
  rewrite round_trip by done. by rewrite new_spec, Hn.
Qed.

Lemma next_day_later d :
  valid d = true -> ltb d (next_day d) = true.
Proof.
  destruct d as [y m dd]. unfold valid, ltb, next_day. cbn [year month day].
  intros _.
  destruct (dd <? _days_in_month y m) eqn:E1; cbn [year month day].
  { rewrite !Z.eqb_refl, E1 || idtac.
    apply Z.ltb_lt in E1. rewrite !Z.eqb_refl.
    replace (dd <? dd + 1) with true by (symmetry; apply Z.ltb_lt; lia).
    by rewrite !orb_true_r. }
  destruct (m <? 12) eqn:E2; cbn [year month day].
  { rewrite Z.eqb_refl.
    replace (m <? m + 1) with true by (symmetry; apply Z.ltb_lt; lia).
    by rewrite orb_true_r. }
  replace (y <? y + 1) with true by (symmetry; apply Z.ltb_lt; lia).
  done.
Qed.

End NextDay.

(** ** More on the scanning loop *)

Section ScanCases.

Variable casefold : pystr -> pystr.
Variable urljoin : pystr -> pystr -> result pystr.
Variable self : KrogocoIcs.
Variables today horizon : Datetime.date.

Local Abbreviation step := (body casefold urljoin self today horizon).
Local Abbreviation loop := (scan casefold urljoin self today horizon).

(** The three ways an iteration can end without raising: a date line, a
    node that changes nothing, an event appended. *)
Lemma body_cases s h s' :
  returns (step s h) s' ->
  (exists m dd mm d,
     search DATE_LINE (get_text h) = Some m /\
     py_int (group m 1) = Ok dd /\ py_int (group m 2) = Ok mm /\
     Datetime.new (inferred_year s + rollover (prev_month s) mm) mm dd = Ok d /\
     s' = {| events := events s;
             seen := seen s;
             inferred_year := inferred_year s + rollover (prev_month s) mm;
             prev_month := Some mm;
             current_date := Some d |}) \/
  (search DATE_LINE (get_text h) = None /\ s' = s) \/
  (search DATE_LINE (get_text h) = None /\
   exists a cd u st en ad,
     find_a h = Some a /\ current_date s = Some cd /\
     Datetime.ltb cd today = false /\ Datetime.ltb horizon cd = false /\
     existsb (fun b => contains (casefold (a_text a)) b) (blacklist self)
       = false /\
     resolve urljoin (href a) = Ok u /\
     ((cd, a_text a, u) ∉ seen s) /\
     _parse_time_range (a_text a) = Ok (st, en, ad) /\
     s' = {| events :=
               events s ++
               [ {| date := cd; title := a_text a; url := u;
                    all_day := ad; start_time := st; end_time := en |} ];
             seen := {[ (cd, a_text a, u) ]} ∪ seen s;
             inferred_year := inferred_year s;
             prev_month := prev_month s;
             current_date := Some cd |}).
Proof.
  unfold body.
  destruct (search DATE_LINE (get_text h)) as [m|] eqn:Hm.
  { unfold date_line.
    destruct (py_int (group m 1)) as [dd|] eqn:Hdd; [|by intros [|]].
    destruct (py_int (group m 2)) as [mm|] eqn:Hmm; [|by intros [|]].
    assert (match prev_month s with
            | Some pm => if mm <? pm then inferred_year s + 1 else inferred_year s
            | None => inferred_year s
            end = inferred_year s + rollover (prev_month s) mm) as ->.
    { unfold rollover. destruct (prev_month s) as [pm|]; [|lia].
      destruct (mm <? pm); lia. }
    destruct (Datetime.new _ mm dd) as [d|] eqn:Hd; [|by intros [|]].
    intros [[= <-]|[=]]. left. by exists m, dd, mm, d. }
  destruct (find_a h) as [a|]; [|intros [[= <-]|[=]]; right; by left].
  destruct (current_date s) as [cd|] eqn:Hcd;
    [|intros [[= <-]|[=]]; right; by left].
  unfold event_line.
  destruct (Datetime.ltb cd today) eqn:Hpast;
    [intros [[= <-]|[=]]; right; by left|].
  destruct (Datetime.ltb horizon cd) eqn:Hfar;
    [intros [[=]|[= <-]]; right; by left|].
  destruct (existsb _ (blacklist self)) eqn:Hbl;
    [intros [[= <-]|[=]]; right; by left|].
  fold (resolve urljoin (href a)).
  destruct (resolve urljoin (href a)) as [u|] eqn:Hu; [|by intros [|]].
  destruct (decide _) as [Hin|Hnew]; [intros [[= <-]|[=]]; right; by left|].
  destruct (_parse_time_range (a_text a)) as [[[st en] ad]|] eqn:Hp;
    [|by intros [|]].
  intros [[= <-]|[=]]. right. right. split; [done|].
  exists a, cd, u, st, en, ad. by repeat split.
Qed.

(** Facts about every event that the loop keeps, with the node each one
    comes from. *)
Lemma scan_events_facts h3s s' :
  returns (loop (initial today) h3s) s' ->
  forall e, e ∈ events s' ->
    Datetime.valid (date e) = true /\
    (forall b, b ∈ blacklist self -> contains (casefold (title e)) b = false) /\
    exists h a,
      h ∈ h3s /\ find_a h = Some a /\ title e = a_text a /\
      search DATE_LINE (get_text h) = None.
Proof.
  intros Hret.
  set (P := fun (pre : list h3) (e : CalendarEvent) =>
    Datetime.valid (date e) = true /\
    (forall b, b ∈ blacklist self -> contains (casefold (title e)) b = false) /\
    exists h a,
      h ∈ pre /\ find_a h = Some a /\ title e = a_text a /\
      search DATE_LINE (get_text h) = None).
  assert (forall pre h e, P pre e -> P (pre ++ [h]) e) as Hweak.
  { intros pre h e (Hv & Hb & h0 & a & Hin & Hrest).
    split; [done|]. split; [done|]. exists h0, a. split; [|done].
    apply elem_of_app. by left. }
  set (I := fun (pre : list h3) (s : locals) =>
    (forall cd, current_date s = Some cd -> Datetime.valid cd = true) /\
    (forall e, e ∈ events s -> P pre e)).
  assert (forall pre s h s1, I pre s -> returns (step s h) s1 ->
                             I (pre ++ [h]) s1) as Hstep.
  { intros pre s h s1 [Hcd Hev] Hb.
    apply body_cases in Hb
      as [(m & dd & mm & d & _ & _ & _ & Hd & ->)|[[_ ->]|[Hno Hnew]]].
    - split; simpl.
      + intros cd [= <-]. rewrite new_spec in Hd.
        destruct (Datetime.valid_ymd _ mm dd) eqn:E;
          [|by destruct (_ && _) in Hd].
        injection Hd as <-. exact E.
      + intros e He. by apply Hweak, Hev.
    - split; [done|]. intros e He. by apply Hweak, Hev.
    - destruct Hnew as (a & cd & u & st & en & ad & Ha & Hc & _ & _ & Hbl
                        & _ & _ & _ & ->).
      split; simpl.
      + intros cd' [= <-]. by apply Hcd.
      + intros e He. apply elem_of_app in He as [He|He]; [by apply Hweak, Hev|].
        apply list_elem_of_singleton in He as ->. split; simpl.
        * by apply Hcd.
        * split.
          -- intros b Hb.
             rewrite <- not_true_iff_false in Hbl |- *. intros Hcon.
             apply Hbl, existsb_exists. exists b. split; [|done].
             by apply list_elem_of_In.
          -- exists h, a. split; [|done].
             apply elem_of_app. right. by apply list_elem_of_singleton. }
  assert (I [] (initial today)) as Hinit.
  { split; [done|]. intros e He. by apply elem_of_nil in He. }
  destruct (scan_invariant _ _ _ _ _ I Hstep h3s [] (initial today) s'
              Hinit Hret) as (sn & rn & -> & _ & HI).
  intros e He. destruct (HI e He) as (Hv & Hb & h & a & Hin & Hrest).
  split; [done|]. split; [done|]. exists h, a. split; [|done].
  apply elem_of_app. by left.
Qed.

(** The events are listed in the order of their links. *)
Lemma scan_events_order h3s s' :
  returns (loop (initial today) h3s) s' ->
  title <$> events s' `sublist_of` omap link_title h3s.
Proof.
  intros Hret.
  set (I := fun (pre : list h3) (s : locals) =>
    title <$> events s `sublist_of` omap link_title pre).
  assert (forall pre s h s1, I pre s -> returns (step s h) s1 ->
                             I (pre ++ [h]) s1) as Hstep.
  { intros pre s h s1 HI Hb. unfold I. rewrite omap_app.
    apply body_cases in Hb
      as [(m & dd & mm & d & _ & _ & _ & _ & ->)|[[_ ->]|[Hno Hnew]]].
    - by apply sublist_inserts_r.
    - by apply sublist_inserts_r.
    - destruct Hnew as (a & cd & u & st & en & ad & Ha & _ & _ & _ & _
                        & _ & _ & _ & ->).
      simpl. rewrite fmap_app. apply sublist_app; [done|].
      unfold link_title. rewrite Ha. simpl. done. }
  assert (I [] (initial today)) as Hinit by (unfold I; simpl; constructor).
  destruct (scan_invariant _ _ _ _ _ I Hstep h3s [] (initial today) s'
              Hinit Hret) as (sn & rn & -> & HI).
  unfold I in HI. simpl in HI. rewrite omap_app. by apply sublist_inserts_r.
Qed.

Lemma StronglySorted_snoc {A} (R : A -> A -> Prop) l x :
  StronglySorted R l -> (forall y, y ∈ l -> R y x) ->
  StronglySorted R (l ++ [x]).
Proof.
  induction 1 as [|y l Hl IH Hy]; intros Hx; simpl.
  - repeat constructor.
  - constructor.
    + apply IH. intros z Hz. apply Hx, elem_of_cons. by right.
    + apply Forall_app. split; [done|]. constructor; [|constructor].
      apply Hx, elem_of_cons. by left.
Qed.

(** The events never go back to an earlier month. *)
Lemma scan_events_months h3s s' :
  returns (loop (initial today) h3s) s' ->
  StronglySorted (fun a b => month_le (date a) (date b)) (events s').
Proof.
  intros Hret.
  set (I := fun (_ : list h3) (s : locals) =>
    (prev_month s = None -> events s = []) /\
    (forall cd, current_date s = Some cd ->
       Datetime.year cd = inferred_year s /\
       prev_month s = Some (Datetime.month cd)) /\
    (forall pm e, prev_month s = Some pm -> e ∈ events s ->
       Datetime.year (date e) < inferred_year s \/
       (Datetime.year (date e) = inferred_year s /\
        Datetime.month (date e) <= pm)) /\
    StronglySorted (fun a b => month_le (date a) (date b)) (events s)).
  assert (forall pre s h s1, I pre s -> returns (step s h) s1 ->
                             I (pre ++ [h]) s1) as Hstep.
  { intros pre s h s1 (Hnone & Hcd & Hle & Hsorted) Hb.
    apply body_cases in Hb
      as [(m & dd & mm & d & _ & _ & _ & Hd & ->)|[[_ ->]|[Hno Hnew]]].
    - unfold I. simpl. split; [done|]. split; [|split; [|done]].
      + intros cd [= <-]. rewrite new_spec in Hd.
        destruct (Datetime.valid_ymd _ mm dd); [|by destruct (_ && _) in Hd].
        by injection Hd as <-.
      + intros pm e [= <-] He. unfold rollover.
        destruct (prev_month s) as [pm|] eqn:Hpm.
        * specialize (Hle pm e eq_refl He).
          destruct (mm <? pm) eqn:E;
            [apply Z.ltb_lt in E | apply Z.ltb_ge in E]; lia.
        * rewrite Hnone in He by done. by apply elem_of_nil in He.
    - done.
    - destruct Hnew as (a & cd & u & st & en & ad & _ & Hc & _ & _ & _
                        & _ & _ & _ & ->).
      destruct (Hcd cd Hc) as [Hy Hpm].
      unfold I. simpl. split; [by rewrite Hpm|]. split; [|split].
      + by intros cd' [= <-].
      + intros pm e Hpm' He. rewrite Hpm in Hpm'. injection Hpm' as <-.
        apply elem_of_app in He as [He|He]; [by apply Hle|].
        apply list_elem_of_singleton in He as ->. simpl. lia.
      + apply StronglySorted_snoc; [done|].
        intros e1 He1.
        unfold month_le. simpl. specialize (Hle _ e1 Hpm He1). lia. }
  assert (I [] (initial today)) as Hinit.
  { unfold I. simpl. split; [done|]. split; [done|]. split; [|constructor].
    intros pm e _ He. by apply elem_of_nil in He. }
  by destruct (scan_invariant _ _ _ _ _ I Hstep h3s [] (initial today) s'
                 Hinit Hret) as (sn & rn & _ & _ & _ & _ & HI).
Qed.

(** Events are appended at the end of the list. *)
Lemma scan_events_prefix h3s s s' :
  returns (loop s h3s) s' -> events s `prefix_of` events s'.
Proof.
  intros Hret.
  set (I := fun (_ : list h3) (s1 : locals) => events s `prefix_of` events s1).
  assert (forall pre s0 h s1, I pre s0 -> returns (step s0 h) s1 ->
                              I (pre ++ [h]) s1) as Hstep.
  { intros pre s0 h s1 HI Hb.
    apply body_cases in Hb
      as [(m & dd & mm & d & _ & _ & _ & _ & ->)|[[_ ->]|[Hno Hnew]]];
      [done|done|].
    destruct Hnew as (a & cd & u & st & en & ad & _ & _ & _ & _ & _
                      & _ & _ & _ & ->).
    unfold I. simpl. by apply prefix_app_r. }
  assert (I [] s) as Hinit by (unfold I; done).
  by destruct (scan_invariant _ _ _ _ _ I Hstep h3s [] s s' Hinit Hret)
    as (sn & rn & _ & HI).
Qed.

(** Before the first date line nothing happens. *)
Lemma scan_no_date_line s : forall h3s,
  current_date s = None ->
  (forall h, h ∈ h3s -> search DATE_LINE (get_text h) = None) ->
  loop s h3s = Next s.
Proof.
  induction h3s as [|h tl IH]; intros Hcd Hno; [done|].
  cbn [scan]. unfold body.
  rewrite (Hno h) by (apply elem_of_cons; by left). rewrite Hcd.
  replace (match find_a h with Some _ => Next s | None => Next s end)
    with (Next s) by (by destruct (find_a h)).
  apply IH; [done|]. intros h' Hin. apply Hno, elem_of_cons. by right.
Qed.

End ScanCases.

(** ** More on [scrape_events] *)

(** X8. The returned events stand in document order: their titles are a
    subsequence of the link texts of the page. *)
Theorem events_in_document_order casefold urljoin self today h3s evs :
  scrape_events casefold urljoin self today h3s = Ok evs ->
  title <$> evs `sublist_of` omap link_title h3s.
Proof.
  intros Hs.
  apply scrape_events_returns in Hs as (horizon & s' & _ & Hret & ->).
  by apply (scan_events_order casefold urljoin self today horizon).
Qed.

Lemma events_in_document_order_witness :
  title <$> sample_events `sublist_of` omap link_title sample_page.
Proof.
  apply (events_in_document_order casefold_id urljoin_concat sample_scraper
           sample_today).
  vm_compute. reflexivity.
Defined.

(** X9. The returned events never go back to an earlier month: of any two
    events, the later one in the list is in the same (year, month) as the
    earlier one or in a later one. Days within a month are left in document
    order. *)
Theorem events_sorted_by_month casefold urljoin self today h3s evs :
  scrape_events casefold urljoin self today h3s = Ok evs ->
  StronglySorted (fun a b => month_le (date a) (date b)) evs.
Proof.
  intros Hs.
  apply scrape_events_returns in Hs as (horizon & s' & _ & Hret & ->).
  by apply (scan_events_months casefold urljoin self today horizon h3s).
Qed.

Lemma events_sorted_by_month_witness :
  StronglySorted (fun a b => month_le (date a) (date b)) rollover_events.
Proof.
  apply (events_sorted_by_month casefold_id urljoin_concat rollover_scraper
           rollover_today rollover_page).
  vm_compute. reflexivity.
Defined.

(** X10. No returned event has a title that, case-folded, contains an
    entry of the scraper's blacklist. *)
Theorem events_not_blacklisted casefold urljoin self today h3s evs e b :
  scrape_events casefold urljoin self today h3s = Ok evs ->
  e ∈ evs -> b ∈ blacklist self ->
  contains (casefold (title e)) b = false.
Proof.
  intros Hs He Hb.
  apply scrape_events_returns in Hs as (horizon & s' & _ & Hret & ->).
  destruct (scan_events_facts casefold urljoin self today horizon h3s s'
              Hret e He) as (_ & Hbl & _).
  by apply Hbl.
Qed.

Lemma events_not_blacklisted_witness :
  contains (casefold_id (title lunch_event)) (py "HV71") = false.
Proof.
  apply (events_not_blacklisted casefold_id urljoin_concat blacklist_scraper
           sample_today sample_page blacklist_events
           lunch_event).
  - vm_compute. reflexivity.
  - unfold blacklist_events, sample_events. cbn [tail].
    apply elem_of_cons. right. apply elem_of_cons. by left.
  - apply elem_of_cons. by left.
Defined.

Lemma contains_empty s : contains s [] = true.
Proof. by destruct s. Qed.

(** X11. An empty string in the blacklist is contained in every title:
    such a scraper returns no event at all. *)
Theorem empty_blacklist_entry_drops_all casefold urljoin self today h3s evs :
  [] ∈ blacklist self ->
  scrape_events casefold urljoin self today h3s = Ok evs ->
  evs = [].
Proof.
  intros Hb Hs. destruct evs as [|e evs]; [done|].
  apply scrape_events_returns in Hs as (horizon & s' & _ & Hret & Hev).
  assert (e ∈ events s') as He by (rewrite <- Hev; apply elem_of_cons; by left).
  destruct (scan_events_facts casefold urljoin self today horizon h3s s'
              Hret e He) as (_ & Hbl & _).
  specialize (Hbl [] Hb). by rewrite contains_empty in Hbl.
Qed.

Lemma empty_blacklist_entry_drops_all_witness :
  scrape_events casefold_id urljoin_concat (__init__ casefold_id 2 [py ""])
    sample_today sample_page = Ok [].
Proof.
  assert (exists evs,
    scrape_events casefold_id urljoin_concat (__init__ casefold_id 2 [py ""])
      sample_today sample_page = Ok evs) as [evs Hs].
  { eexists. vm_compute. reflexivity. }
  rewrite Hs. f_equal.
  apply (empty_blacklist_entry_drops_all casefold_id urljoin_concat
           (__init__ casefold_id 2 [py ""]) sample_today sample_page).
  - apply elem_of_cons. by left.
  - exact Hs.
Defined.

(** X12. Links before the first date line are ignored: nodes without a
    date, put in front of a page, do not change the result. *)
Theorem leading_links_ignored casefold urljoin self today pre post :
  (forall h, h ∈ pre -> search DATE_LINE (get_text h) = None) ->
  scrape_events casefold urljoin self today (pre ++ post)
  = scrape_events casefold urljoin self today post.
Proof.
  intros Hno. unfold scrape_events.
  destruct (_last_day_of_month today (months self)) as [horizon|]; [|done].
  simpl. rewrite scan_app.
  by rewrite (scan_no_date_line casefold urljoin self today horizon
                (initial today) pre).
Qed.

Lemma leading_links_ignored_witness :
  scrape_events casefold_id urljoin_concat sample_scraper sample_today
    ([heading "Kalender"; link "Boka bord" "/jonkoping/boka/"] ++ sample_page)
  = scrape_events casefold_id urljoin_concat sample_scraper sample_today
      sample_page.
Proof.
  apply leading_links_ignored.
  intros h Hh.
  apply elem_of_cons in Hh as [->|Hh]; [vm_compute; reflexivity|].
  apply elem_of_cons in Hh as [->|Hh]; [vm_compute; reflexivity|].
  by apply elem_of_nil in Hh.
Defined.

(** X13. Once the scan has stopped at an event beyond the horizon, nothing
    after it is looked at: whatever follows, the result is the same. *)
Theorem nodes_after_break_ignored casefold urljoin self today horizon pre post :
  _last_day_of_month today (months self) = Ok horizon ->
  is_break (scan casefold urljoin self today horizon (initial today) pre)
    = true ->
  scrape_events casefold urljoin self today (pre ++ post)
  = scrape_events casefold urljoin self today pre.
Proof.
  intros Hh Hbr. unfold scrape_events. rewrite Hh. simpl. rewrite scan_app.
  by destruct (scan _ _ _ _ _ _ pre).
Qed.

Lemma nodes_after_break_ignored_witness :
  scrape_events casefold_id urljoin_concat sample_scraper sample_today
    (sample_page ++ [heading "lördag 02/05"; link "Sommarfest" "/sommar/"])
  = scrape_events casefold_id urljoin_concat sample_scraper sample_today
      sample_page.
Proof.
  apply (nodes_after_break_ignored casefold_id urljoin_concat sample_scraper
           sample_today (Datetime.Date 2025 4 30)).
  - vm_compute. reflexivity.
  - vm_compute. reflexivity.
Defined.

(** X14. The three time fields of every returned event are what
    [_parse_time_range] returns for the title of that event. *)
Theorem event_times_from_title casefold urljoin self today h3s evs e :
  scrape_events casefold urljoin self today h3s = Ok evs ->
  e ∈ evs ->
  _parse_time_range (title e) = Ok (start_time e, end_time e, all_day e).
Proof.
  intros Hs He.
  apply scrape_events_returns in Hs as (horizon & s' & _ & Hret & ->).
  by destruct (scan_events_origin _ _ _ _ _ _ _ Hret e He)
    as (h & a & _ & _ & _ & _ & _ & _ & Hp).
Qed.

Lemma event_times_from_title_witness :
  _parse_time_range (title pianobar_event)
  = Ok (start_time pianobar_event, end_time pianobar_event,
        all_day pianobar_event).
Proof.
  apply (event_times_from_title casefold_id urljoin_concat sample_scraper
           sample_today sample_page sample_events
           pianobar_event).
  - vm_compute. reflexivity.
  - unfold sample_events. do 3 (apply elem_of_cons; right).
    apply elem_of_cons. by left.
Defined.

(** X15. A heading whose text holds a [DD/MM] date is a date line and
    never an event, even when it wraps a link: every returned event comes
    from a link node whose heading text has no such date. *)
Theorem events_from_undated_nodes casefold urljoin self today h3s evs e :
  scrape_events casefold urljoin self today h3s = Ok evs ->
  e ∈ evs ->
  exists h a,
    h ∈ h3s /\ find_a h = Some a /\ title e = a_text a /\
    search DATE_LINE (get_text h) = None.
Proof.
  intros Hs He.
  apply scrape_events_returns in Hs as (horizon & s' & _ & Hret & ->).
  by destruct (scan_events_facts casefold urljoin self today horizon h3s s'
                 Hret e He) as (_ & _ & Hnode).
Qed.

Lemma events_from_undated_nodes_witness :
  exists h a,
    h ∈ sample_page /\ find_a h = Some a /\
    title pianobar_event = a_text a /\
    search DATE_LINE (get_text h) = None.
Proof.
  apply (events_from_undated_nodes casefold_id urljoin_concat sample_scraper
           sample_today sample_page sample_events
           pianobar_event).
  - vm_compute. reflexivity.
  - unfold sample_events. do 3 (apply elem_of_cons; right).
    apply elem_of_cons. by left.
Defined.

(** X16. Every returned event carries a valid calendar date. *)
Theorem event_dates_valid casefold urljoin self today h3s evs e :
  scrape_events casefold urljoin self today h3s = Ok evs ->
  e ∈ evs ->
  Datetime.valid (date e) = true.
Proof.
  intros Hs He.
  apply scrape_events_returns in Hs as (horizon & s' & _ & Hret & ->).
  by destruct (scan_events_facts casefold urljoin self today horizon h3s s'
                 Hret e He) as (Hv & _).
Qed.

Lemma event_dates_valid_witness :
  Datetime.valid (date pianobar_event) = true.
Proof.
  apply (event_dates_valid casefold_id urljoin_concat sample_scraper
           sample_today sample_page sample_events
           pianobar_event).
  - vm_compute. reflexivity.
  - unfold sample_events. do 3 (apply elem_of_cons; right).
    apply elem_of_cons. by left.
Defined.

(** X17. Appending nodes to a page only appends events: the events of the
    shorter page are a prefix of the events of the longer one. *)
Theorem events_prefix_stable casefold urljoin self today pre post evs1 evs2 :
  scrape_events casefold urljoin self today pre = Ok evs1 ->
  scrape_events casefold urljoin self today (pre ++ post) = Ok evs2 ->
  evs1 `prefix_of` evs2.
Proof.
  unfold scrape_events.
  destruct (_last_day_of_month today (months self)) as [horizon|]; [|done].
  simpl. rewrite scan_app.
  destruct (scan _ _ _ _ _ _ pre) as [s1|s1|e1] eqn:Hpre; [| |done].
  - intros [= <-].
    destruct (scan _ _ _ _ _ s1 post) as [s2|s2|e2] eqn:Hpost;
      intros [= <-];
      apply (scan_events_prefix casefold urljoin self today horizon post);
      rewrite Hpost; [by left | by right].
  - by intros [= <-] [= <-].
Qed.

Lemma events_prefix_stable_witness :
  blacklist_events `prefix_of`
  blacklist_events ++ [
    {| date := Datetime.Date 2025 2 8;
       title := py "Brunch";
       url := py "https://krogoco.se/jonkoping/event/brunch/";
       all_day := true; start_time := None; end_time := None |}].
Proof.
  apply (events_prefix_stable casefold_id urljoin_concat blacklist_scraper
           sample_today (take 9 sample_page)
           [heading "söndag 08/02"; link "Brunch" "/jonkoping/event/brunch/"]).
  - vm_compute. reflexivity.
  - vm_compute. reflexivity.
Defined.

(** X18. An exception is final: when the scrape of a page raises, the
    scrape of any page that continues it raises the same exception. *)
Theorem exception_prefix_stable casefold urljoin self today pre post e :
  scrape_events casefold urljoin self today pre = Raise e ->
  scrape_events casefold urljoin self today (pre ++ post) = Raise e.
Proof.
  unfold scrape_events.
  destruct (_last_day_of_month today (months self)) as [horizon|]; [|done].
  simpl. rewrite scan_app.
  by destruct (scan _ _ _ _ _ _ pre).
Qed.

Lemma exception_prefix_stable_witness :
  scrape_events casefold_id urljoin_concat sample_scraper sample_today
    ([heading "måndag 30/02"] ++ sample_page) = Raise ValueError.
Proof.
  apply (exception_prefix_stable casefold_id urljoin_concat sample_scraper
           sample_today [heading "måndag 30/02"] sample_page ValueError).
  vm_compute. reflexivity.
Defined.

(** ** Building the calendar *)

Lemma digit_not_colon c :
  Unicode.isdecimal c = true -> (c =? chr1 ":")%N = false.
Proof.
  intros H. destruct (c =? chr1 ":")%N eqn:E; [|done].
  apply N.eqb_eq in E. subst c. vm_compute in H. discriminate.
Qed.

(** What [split] and [int] read back from a time of the parser. *)
Lemma is_H_MM_clock t :
  is_H_MM t = true ->
  exists h m,
    unpack_hm (split (chr1 ":") t) = Ok (h, m) /\
    clock_fields t = Some (h, m) /\
    0 <= h <= 99 /\ 0 <= m <= 99 /\ t <> [].
Proof.
  destruct t as [|h1 [|h2 [|c [|m1 [|m2 [|x t]]]]]]; simpl; try done.
  - rename h2 into c, c into m1, m1 into m2.
    rewrite !andb_true_iff. intros [[[H1 Hc] H3] H4].
    apply N.eqb_eq in Hc. subst c.
    destruct (py_int_1 h1 H1) as (h & Hh & Rh).
    destruct (py_int_2 m1 m2 H3 H4) as (m & Hm & Rm).
    exists h, m. unfold clock_fields. cbn [split split_colon].
    rewrite !(digit_not_colon h1 H1), !(digit_not_colon m1 H3),
      !(digit_not_colon m2 H4), !N.eqb_refl.
    cbn [unpack_hm]. rewrite Hh, Hm. simpl.
    split; [done|]. split; [done|]. split; [lia|]. split; [lia|done].
  - rewrite !andb_true_iff. intros [[[[H1 H2] Hc] H3] H4].
    apply N.eqb_eq in Hc. subst c.
    destruct (py_int_2 h1 h2 H1 H2) as (h & Hh & Rh).
    destruct (py_int_2 m1 m2 H3 H4) as (m & Hm & Rm).
    exists h, m. unfold clock_fields. cbn [split split_colon].
    rewrite !(digit_not_colon h1 H1), !(digit_not_colon h2 H2),
      !(digit_not_colon m1 H3), !(digit_not_colon m2 H4), !N.eqb_refl.
    cbn [unpack_hm]. rewrite Hh, Hm. simpl.
    split; [done|]. split; [done|]. split; [lia|]. split; [lia|done].
Qed.

Lemma ltb_irrefl d : Datetime.ltb d d = false.
Proof.
  unfold Datetime.ltb. rewrite !Z.ltb_irrefl, !Z.eqb_refl. reflexivity.
Qed.

Lemma timestamp_new d h m :
  Datetime.valid d = true -> 0 <= h <= 99 -> 0 <= m <= 99 ->
  Timestamp.new (Datetime.year d) (Datetime.month d) (Datetime.day d) h m
  = if (h <=? 23) && (m <=? 59) then Ok (Timestamp.DateTime d h m)
    else Raise ValueError.
Proof.
  intros Hv Hh Hm. unfold Timestamp.new. rewrite new_spec.
  unfold Datetime.valid in Hv. rewrite Hv.
  pose proof (valid_ymd_fits _ _ _ Hv) as Hf.
  apply andb_prop in Hf as [Hf ->]. apply andb_prop in Hf as [-> ->].
  rewrite !andb_true_r.
  replace (Datetime.fits_int h) with true
    by (symmetry; apply fits_int_spec;
        unfold Datetime.INT_MIN, Datetime.INT_MAX; lia).
  replace (Datetime.fits_int m) with true
    by (symmetry; apply fits_int_spec;
        unfold Datetime.INT_MIN, Datetime.INT_MAX; lia).
  destruct d as [y mo dd]. simpl.
  replace (0 <=? h) with true by (symmetry; apply Z.leb_le; lia).
  replace (0 <=? m) with true by (symmetry; apply Z.leb_le; lia).
  simpl. destruct (h <=? 23); simpl; [|done].
  by destruct (m <=? 59).
Qed.

Lemma timestamp_add_one_day d h m :
  Datetime.valid d = true ->
  Datetime.year d < 9999 \/ Datetime.month d < 12 ->
  Timestamp.add_days (Timestamp.DateTime d h m) 1
  = Ok (Timestamp.DateTime (next_day d) h m).
Proof.
  intros Hv Hlt.
  assert (Datetime.add_days d 1 = Ok (next_day d)) as Ha
    by (apply add_one_day; [done|lia]).
  unfold Datetime.add_days in Ha. unfold Timestamp.add_days.
  cbn [Timestamp.date_of Timestamp.hour Timestamp.minute].
  destruct (_ && _); [|done]. by rewrite Ha.
Qed.

Lemma clock_of_fields t h m :
  clock_fields t = Some (h, m) ->
  clock t = if (h <=? 23) && (m <=? 59) then Some (h, m) else None.
Proof. unfold clock. by intros ->. Qed.

(** The loop body against the span of the specification. *)
Lemma component_expected e :
  parsed e ->
  component e = match expected e with
                | Some c => Built c
                | None => Failed (Raised ValueError)
                end.
Proof.
  intros (Hv & Hlt & Hp).
  pose proof (_parse_time_range_all_day _ _ _ _ Hp) as [Hiff Hsome].
  pose proof (_parse_time_range_times _ _ _ _ Hp) as [Hst Hen].
  unfold component, expected, span.
  destruct (all_day e) eqn:Ead.
  { destruct Hiff as [Hiff _]. destruct (Hiff eq_refl) as [-> _].
    unfold all_day_event.
    rewrite add_one_day by (done || lia). reflexivity. }
  destruct (Hsome eq_refl) as [st Est]. rewrite Est in Hst |- *.
  cbn [time_like] in Hst.
  apply is_H_MM_clock in Hst as (h & m & Hu & Hc & Rh & Rm & _).
  unfold timed_event. rewrite Hu. cbn [mbind result_bind option_bind].
  rewrite (timestamp_new (date e) 0 0) by (done || lia).
  rewrite (timestamp_new (date e) h m) by (done || lia).
  rewrite (clock_of_fields st h m Hc).
  destruct ((h <=? 23) && (m <=? 59)); [|done]. cbn [mbind result_bind option_bind].
  destruct (end_time e) as [en|] eqn:Een; cbn [time_like] in Hen.
  - apply is_H_MM_clock in Hen as (h' & m' & Hu' & Hc' & Rh' & Rm' & Hne).
    destruct en as [|c t]; [done|].
    rewrite Hu'. cbn [mbind result_bind option_bind].
    rewrite (timestamp_new (date e) h' m') by (done || lia).
    rewrite (clock_of_fields (c :: t) h' m' Hc').
    destruct ((h' <=? 23) && (m' <=? 59)); [|done]. cbn [mbind result_bind option_bind].
    unfold Timestamp.leb, Timestamp.ltb.
    cbn [Timestamp.date_of Timestamp.hour Timestamp.minute].
    rewrite ltb_irrefl. cbn [orb negb andb].
    destruct ((h <? h') || ((h =? h') && (m <? m'))); cbn [negb].
    + reflexivity.
    + rewrite timestamp_add_one_day by done. reflexivity.
  - change ((0 <=? 23) && (0 <=? 59)) with true. cbv iota.
    cbn [mbind result_bind option_bind].
    rewrite timestamp_add_one_day by done. reflexivity.
Qed.

Lemma build_components_expected evs :
  Forall parsed evs ->
  build_components evs = match mapM expected evs with
                         | Some cs => Built cs
                         | None => Failed (Raised ValueError)
                         end.
Proof.
  induction 1 as [|e evs He _ IH]; [done|].
  cbn [build_components]. rewrite (component_expected e He), IH.
  cbn [mapM]. destruct (expected e) as [c|]; [|done].
  by destruct (mapM expected evs).
Qed.

(** Every event of [scrape_events] is one that the builder can take. *)
Lemma scraped_parsed casefold urljoin self today h3s evs :
  scrape_events casefold urljoin self today h3s = Ok evs ->
  Forall parsed evs.
Proof.
  intros Hs.
  apply scrape_events_returns in Hs as (horizon & s' & Hh & Hret & ->).
  apply Forall_forall. intros e He.
  destruct (scan_events_facts casefold urljoin self today horizon h3s s'
              Hret e He) as (Hv & _).
  destruct (scan_events_origin casefold urljoin self today horizon h3s s'
              Hret e He) as (h & a & _ & _ & _ & _ & _ & Hhor & Hp).
  apply last_day_of_month_bound in Hh as [Hy Hlt].
  apply ltb_false_date_le in Hhor. unfold date_le in Hhor.
  split; [done|]. split; [lia|done].
Qed.

Lemma build_calendar_expected casefold urljoin self today h3s evs :
  scrape_events casefold urljoin self today h3s = Ok evs ->
  _build_calendar casefold urljoin self today h3s
  = match mapM expected evs with
    | Some cs => Built {| prodid := py "-//KrogCo//Calendar//EN";
                          version := py "2.0";
                          components := cs |}
    | None => Failed (Raised ValueError)
    end.
Proof.
  intros Hs. unfold _build_calendar. rewrite Hs.
  rewrite (build_components_expected evs)
    by (by eapply scraped_parsed).
  by destruct (mapM expected evs).
Qed.

(** X19. [_build_calendar] as a whole: an exception of [scrape_events]
    passes through; otherwise the calendar holds, for each event in order,
    the span the specification describes, and the build fails with a
    [ValueError] as soon as one event has no such span. *)
Theorem build_calendar_outcome casefold urljoin self today h3s :
  _build_calendar casefold urljoin self today h3s
  = match scrape_events casefold urljoin self today h3s with
    | Raise e => Failed (Raised e)
    | Ok evs =>
        match mapM expected evs with
        | Some cs => Built {| prodid := py "-//KrogCo//Calendar//EN";
                              version := py "2.0";
                              components := cs |}
        | None => Failed (Raised ValueError)
        end
    end.
Proof.
  destruct (scrape_events casefold urljoin self today h3s) as [evs|e] eqn:Hs.
  - by apply build_calendar_expected.
  - unfold _build_calendar. by rewrite Hs.
Qed.

(** X20. The build adds no exception of another kind: it never fails
    with the [AttributeError] of a missing start time, and it fails with
    an [OverflowError] only when [scrape_events] raised it. *)
Theorem build_calendar_failures casefold urljoin self today h3s err :
  _build_calendar casefold urljoin self today h3s = Failed err ->
  err = Raised ValueError \/
  (err = Raised OverflowError /\
   scrape_events casefold urljoin self today h3s = Raise OverflowError).
Proof.
  destruct (scrape_events casefold urljoin self today h3s) as [evs|e] eqn:Hs.
  - rewrite (build_calendar_expected _ _ _ _ _ _ Hs).
    destruct (mapM expected evs); [done|]. intros [= <-]. by left.
  - unfold _build_calendar. rewrite Hs. intros [= <-].
    destruct e; [by left | by right].
Qed.

Lemma build_calendar_failures_witness :
  Raised ValueError = Raised ValueError \/
  (Raised ValueError = Raised OverflowError /\
   scrape_events casefold_id urljoin_concat sample_scraper sample_today
     late_page = Raise OverflowError).
Proof.
  apply (build_calendar_failures casefold_id urljoin_concat sample_scraper
           sample_today late_page (Raised ValueError)).
  vm_compute. reflexivity.
Defined.

Lemma mapM_expected_fields evs cs :
  mapM expected evs = Some cs ->
  summary <$> cs = title <$> evs /\ event_url <$> cs = url <$> evs.
Proof.
  intros H. apply mapM_Some in H.
  induction H as [|e c evs cs Hc _ [IH1 IH2]]; [done|].
  unfold expected in Hc. destruct (span e) as [[s t]|]; [|done].
  simpl in Hc. injection Hc as <-. cbn [fmap list_fmap].
  cbn [summary event_url]. split; by f_equal.
Qed.

(** X21. A calendar that is built has one component for each scraped
    event, in the order of the events, with the title as summary and the
    event's URL; its product identifier and version are fixed. *)
Theorem build_calendar_components casefold urljoin self today h3s cal :
  _build_calendar casefold urljoin self today h3s = Built cal ->
  exists evs,
    scrape_events casefold urljoin self today h3s = Ok evs /\
    summary <$> components cal = title <$> evs /\
    event_url <$> components cal = url <$> evs /\
    prodid cal = py "-//KrogCo//Calendar//EN" /\ version cal = py "2.0".
Proof.
  destruct (scrape_events casefold urljoin self today h3s) as [evs|e] eqn:Hs.
  - rewrite (build_calendar_expected _ _ _ _ _ _ Hs).
    destruct (mapM expected evs) as [cs|] eqn:Hm; [|done].
    intros [= <-]. exists evs. split; [done|].
    apply mapM_expected_fields in Hm as [H1 H2]. by cbn [components].
  - unfold _build_calendar. by rewrite Hs.
Qed.

Lemma build_calendar_components_witness :
  exists evs,
    scrape_events casefold_id urljoin_concat sample_scraper sample_today
      night_page = Ok evs /\
    summary <$> components night_calendar = title <$> evs /\
    event_url <$> components night_calendar = url <$> evs /\
    prodid night_calendar = py "-//KrogCo//Calendar//EN" /\
    version night_calendar = py "2.0".
Proof.
  apply (build_calendar_components casefold_id urljoin_concat sample_scraper
           sample_today night_page night_calendar).
  vm_compute. reflexivity.
Defined.

Lemma expected_order e c :
  Datetime.valid (date e) = true ->
  expected e = Some c ->
  value_ltb (dtstart c) (dtend c) = true /\
  day_of (dtstart c) = date e /\
  (day_of (dtend c) = date e \/ day_of (dtend c) = next_day (date e)).
Proof.
  intros Hv. pose proof (next_day_later (date e) Hv) as Hn.
  unfold expected, span.
  destruct (start_time e) as [st|].
  - destruct (clock st) as [[h m]|]; [|done]. cbn [mbind option_bind].
    destruct (end_time e) as [en|].
    + destruct (clock en) as [[h' m']|]; [|done]. cbn [mbind option_bind].
      intros [= <-]. cbn [dtstart dtend value_ltb day_of Timestamp.date_of].
      unfold Timestamp.ltb.
      cbn [Timestamp.date_of Timestamp.hour Timestamp.minute].
      destruct ((h <? h') || ((h =? h') && (m <? m'))).
      * rewrite ltb_irrefl. cbn [negb andb orb]. by auto.
      * rewrite Hn. by auto.
    + intros [= <-]. cbn [dtstart dtend value_ltb day_of Timestamp.date_of].
      unfold Timestamp.ltb. cbn [Timestamp.date_of]. rewrite Hn. by auto.
  - cbn [mbind option_bind]. intros [= <-].
    cbn [dtstart dtend value_ltb day_of]. by auto.
Qed.

(** X22. In a calendar that is built every component ends strictly after
    it starts, and it ends on the day it starts or on the day after. *)
Theorem build_calendar_start_before_end casefold urljoin self today h3s cal c :
  _build_calendar casefold urljoin self today h3s = Built cal ->
  c ∈ components cal ->
  value_ltb (dtstart c) (dtend c) = true /\
  (day_of (dtend c) = day_of (dtstart c) \/
   day_of (dtend c) = next_day (day_of (dtstart c))).
Proof.
  destruct (scrape_events casefold urljoin self today h3s) as [evs|e] eqn:Hs.
  - rewrite (build_calendar_expected _ _ _ _ _ _ Hs).
    destruct (mapM expected evs) as [cs|] eqn:Hm; [|done].
    intros [= <-]. cbn [components]. intros Hc.
    apply mapM_Some in Hm.
    apply scraped_parsed in Hs.
    apply list_elem_of_lookup in Hc as [i Hi].
    destruct (Forall2_lookup_r _ _ _ _ _ Hm Hi) as (e & He & Hexp).
    rewrite Forall_forall in Hs.
    destruct (Hs e (list_elem_of_lookup_2 _ _ _ He)) as (Hv & _).
    destruct (expected_order e c Hv Hexp) as (Hlt & -> & Hday). by auto.
  - unfold _build_calendar. by rewrite Hs.
Qed.

Lemma build_calendar_start_before_end_witness :
  value_ltb (dtstart night_event) (dtend night_event) = true /\
  (day_of (dtend night_event) = day_of (dtstart night_event) \/
   day_of (dtend night_event) = next_day (day_of (dtstart night_event))).
Proof.
  apply (build_calendar_start_before_end casefold_id urljoin_concat
           sample_scraper sample_today night_page night_calendar night_event).
  - vm_compute. reflexivity.
  - apply elem_of_cons. by left.
Defined.

Lemma expected_is_Some e :
  start_time e <> None \/ end_time e = None ->
  is_Some (expected e) <->
  forall t, start_time e = Some t \/ end_time e = Some t -> is_Some (clock t).
Proof.
  intros Hshape. unfold expected, span.
  destruct (start_time e) as [st|].
  - destruct (clock st) as [[h m]|] eqn:Hc; cbn [mbind option_bind].
    + destruct (end_time e) as [en|].
      * destruct (clock en) as [[h' m']|] eqn:Hc'; cbn [mbind option_bind].
        -- split; [|by eauto].
           intros _ t [Ht|Ht]; injection Ht as <-;
             [by rewrite Hc | by rewrite Hc'].
        -- split; [by intros [? ?]|]. intros H.
           destruct (H en) as [x Hx]; [by right|]. by rewrite Hc' in Hx.
      * split; [|by eauto]. intros _ t [Ht|Ht]; [|done].
        injection Ht as <-. by rewrite Hc.
    + split; [by intros [? ?]|]. intros H.
      destruct (H st) as [x Hx]; [by left|]. by rewrite Hc in Hx.
  - destruct Hshape as [H| ->]; [done|]. cbn [mbind option_bind].
    split; [|by eauto]. by intros _ t [?|?].
Qed.

Lemma parsed_shape e :
  parsed e -> start_time e <> None \/ end_time e = None.
Proof.
  intros (_ & _ & Hparse).
  apply _parse_time_range_all_day in Hparse as [Hiff Hsome].
  destruct (all_day e); [right; by apply Hiff | left].
  by destruct (Hsome eq_refl) as [x ->].
Qed.

(** X23. When [scrape_events] returns, [_build_calendar] succeeds exactly
    when every start and end time among the events is a clock time, with
    an hour up to 23 and a minute up to 59. A title such as
    "Nattklubb 25.00" so loses the whole calendar. *)
Theorem build_calendar_succeeds_iff casefold urljoin self today h3s evs :
  scrape_events casefold urljoin self today h3s = Ok evs ->
  (exists cal, _build_calendar casefold urljoin self today h3s = Built cal)
  <->
  (forall e t, e ∈ evs ->
     start_time e = Some t \/ end_time e = Some t -> is_Some (clock t)).
Proof.
  intros Hs. rewrite (build_calendar_expected _ _ _ _ _ _ Hs).
  pose proof (scraped_parsed _ _ _ _ _ _ Hs) as Hp.
  assert (is_Some (mapM expected evs) <->
          forall e t, e ∈ evs ->
            start_time e = Some t \/ end_time e = Some t -> is_Some (clock t))
    as <-.
  { rewrite mapM_is_Some, Forall_forall. rewrite Forall_forall in Hp.
    split.
    - intros H e t He. specialize (H e He). cbn in H.
      by apply (expected_is_Some e (parsed_shape e (Hp e He))).
    - intros H e He. cbn.
      apply (expected_is_Some e (parsed_shape e (Hp e He))). by eauto. }
  destruct (mapM expected evs) as [cs|].
  - split; by eauto.
  - split; by intros [? ?].
Qed.

Lemma build_calendar_succeeds_iff_witness :
  (exists cal,
     _build_calendar casefold_id urljoin_concat sample_scraper sample_today
       sample_page = Built cal)
  <->
  (forall e t, e ∈ sample_events ->
     start_time e = Some t \/ end_time e = Some t -> is_Some (clock t)).
Proof.
  apply (build_calendar_succeeds_iff casefold_id urljoin_concat sample_scraper
           sample_today sample_page sample_events).
  vm_compute. reflexivity.
Defined.
